(** * RearrangeEpisodeGenerator: a shallow embedding

    Model of [habitat/datasets/rearrange/rearrange_generator.py].

    The generator drives an external simulator and a family of external
    samplers.  Everything that lives behind those interfaces (physics,
    random draws, the samplers' own bookkeeping) is kept abstract in a
    [Backend]; the generator's own control flow, its dictionaries, its
    assertions and its counters are transcribed method by method into a
    state-and-exception monad.

    Conventions:
    - Python [float] values are idealised as rationals [Q]; comparisons are
      the exact order on [Q] (no NaN, no rounding).
    - A Python [dict] whose iteration order is observable (the sampler
      registries, the [.items()] of a sampler's result) is an association
      list in insertion order; a [dict] only ever read by key is a [gmap].
    - Every [while] loop takes a fuel argument; [OutOfFuel] is distinct from
      every Python exception.  *)

From Stdlib Require Import QArith Qabs ZArith Lia.
From stdpp Require Import base gmap strings list fin_maps pretty.

Local Open Scope string_scope.
Local Open Scope list_scope.

(** ** Exceptions, results, the monad *)

Inductive exn : Type :=
| AssertionError (msg : string)
| NotImplementedError
| KeyError (key : string)
| TypeError
| AttributeError
| ZeroDivisionError.

Inductive result (S A : Type) : Type :=
| Ok (a : A) (s : S)        (* normal return, with the state reached *)
| Raise (e : exn) (s : S)   (* exception, with the state at the raise *)
| OutOfFuel.                (* a loop exhausted its fuel *)
Arguments Ok {S A} a s.
Arguments Raise {S A} e s.
Arguments OutOfFuel {S A}.

Definition M (S A : Type) : Type := S → result S A.

#[global] Instance M_ret {S} : MRet (M S) := λ A a s, Ok a s.

#[global] Instance M_bind {S} : MBind (M S) := λ A B k m s,
  match m s with
  | Ok a s' => k a s'
  | Raise e s' => Raise e s'
  | OutOfFuel => OutOfFuel
  end.

Definition raise {S A} (e : exn) : M S A := λ s, Raise e s.
Definition out_of_fuel {S A} : M S A := λ _, OutOfFuel.
Definition gets {S A} (f : S → A) : M S A := λ s, Ok (f s) s.
Definition modify {S} (f : S → S) : M S unit := λ s, Ok tt (f s).

(** [assert c, msg] *)
Definition assert {S} (c : bool) (msg : string) : M S unit :=
  if c then mret tt else raise (AssertionError msg).

(** [if c: m] *)
Definition when {S} (c : bool) (m : M S unit) : M S unit :=
  if c then m else mret tt.

(** [for x in l: body x] *)
Fixpoint for_each {S A} (l : list A) (body : A → M S unit) : M S unit :=
  match l with
  | [] => mret tt
  | x :: l' => body x ;; for_each l' body
  end.

(** ** Numbers *)

(** [x > y] on floats, idealised on [Q]. *)
Definition Qgtb (x y : Q) : bool :=
  match (x ?= y)%Q with Gt => true | _ => false end.

Definition Qltb (x y : Q) : bool :=
  match (x ?= y)%Q with Lt => true | _ => false end.

(** Python's [max] on two numbers: [max(a, b)] is [b] when [b > a]. *)
Definition py_max (a b : Q) : Q := if Qgtb b a then b else a.

(** [len(l)] as a Python number. *)
Definition len {A} (l : list A) : Z := Z.of_nat (length l).

(** [a / b] on numbers: raises [ZeroDivisionError] when [b] is zero. *)
Definition py_div {S} (a b : Q) : M S Q :=
  if Qeq_bool b 0 then raise ZeroDivisionError else mret (a / b)%Q.

(** [mn.Vector3]: componentwise arithmetic. *)
Record Vector3 : Type := mkVector3 { vx : Q; vy : Q; vz : Q }.

Definition Vector3_zero : Vector3 := mkVector3 0 0 0.
Definition Vector3_add (a b : Vector3) : Vector3 :=
  mkVector3 (vx a + vx b) (vy a + vy b) (vz a + vz b).
Definition Vector3_sub (a b : Vector3) : Vector3 :=
  mkVector3 (vx a - vx b) (vy a - vy b) (vz a - vz b).
Definition Vector3_div {S} (a : Vector3) (n : Q) : M S Vector3 :=
  if Qeq_bool n 0 then raise ZeroDivisionError
  else mret (mkVector3 (vx a / n) (vy a / n) (vz a / n)).

(** A 4x4 transform, row major. *)
Definition Matrix4 : Type := list Q.

(** ** Configuration (the yacs node read by the generator) *)

Abbreviation resource_sets := (list (string * list string)).

(** [("single", (scene,))] or [("subset", (included, excluded))]. *)
Inductive SceneSamplerParams : Type :=
| SingleParams (scene : string)
| SubsetParams (included excluded : list string).

(** Parameters of a "uniform" object or target sampler:
    [(sets, receptacle sets, min, max, orientation)]. *)
Record UniformParams : Type := mkUniformParams {
  up_sets : list string;
  up_receptacle_sets : list string;
  up_min : Z;
  up_max : Z;
  up_orientation : string
}.

(** Parameters of an articulated-object state sampler:
    uniform [(ao_handle, link, min, max)], or
    composite [([(ao_handle, [(link, min, max)])],)]. *)
Inductive AOParams : Type :=
| AOUniformParams (ao_handle link : string) (lo hi : Q)
| AOCompositeParams (entries : list (string * list (string * Q * Q))).

Record Config : Type := mkConfig {
  dataset_path : string;
  additional_object_paths : list string;
  scene_sets : resource_sets;
  object_sets : resource_sets;
  receptacle_sets : resource_sets;
  scene_sampler : string * SceneSamplerParams;
  obj_samplers : list (string * string * UniformParams);
  obj_target_samplers : list (string * string * UniformParams);
  ao_state_samplers : list (string * string * AOParams);
  markers : list (string * string * list string)
}.

(** ** Objects handed out by the external modules *)

(** [habitat_sim.physics.ManagedRigidObject]: a wrapper identified by its
    instance handle; live attributes are read through the [Backend]. *)
Record RigidObject : Type := mkRigidObject {
  handle : string;                      (* [x.handle] *)
  creation_attributes_handle : string   (* [x.creation_attributes.handle] *)
}.

(** [ManagedArticulatedObject], used as a dictionary key. *)
Abbreviation ao_instance := nat.

(** The sampler objects of [habitat.datasets.rearrange.samplers], as the
    arguments their constructors receive. *)
Inductive SceneSampler : Type :=
| SingleSceneSampler (scene : string)
| SceneSubsetSampler (included excluded : gset string).

Record ObjectSampler : Type := mkObjectSampler {
  os_objects : list string;
  os_receptacles : list string;
  os_num_objects : Z * Z;
  os_orientation : string
}.

Record ObjectTargetSampler : Type := mkObjectTargetSampler {
  ts_object_instances : list RigidObject;
  ts_receptacles : list string;
  ts_num_targets : Z * Z;
  ts_orientation : string
}.

Inductive AOStateSampler : Type :=
| ArticulatedObjectStateSampler (ao_handle link : string) (range : Q * Q)
| CompositeArticulatedObjectStateSampler
    (params : list (string * list (string * (Q * Q)))).

(** Calls into the debug visualizer and the wire-box helpers; they only
    record observations. *)
Inductive DebugCall : Type :=
| VisualizeSceneReceptacles
| MakeDebugVideo (prefix : string)
| LookAtAndObserve (target : Vector3)
| SettleObservation
| TargetWireBox (instance_handle : string) (target_transform : Matrix4).

(** ** The external collaborators *)

Class Backend : Type := {
  (** the simulator process, the random state and the samplers' internals *)
  World : Type;
  (** [habitat_sim.Simulator(hab_cfg)] for a scene and a dataset *)
  Simulator_new : string → string → World → World;
  (** [object_attr_mgr.load_configs(path)] *)
  load_configs : string → World → World;
  (** [sim.config.sim_cfg.scene_id], read and written *)
  sim_cfg_scene_id : World → string;
  set_sim_cfg_scene_id : string → World → World;
  (** [sim.reconfigure(hab_cfg)] *)
  reconfigure : string → string → World → World;
  (** the agent is moved to the centre of the scene bounding box and a
      fresh [DebugVisualizer] is attached *)
  setup_debug_camera : World → World;
  get_world_time : World → Q;
  step_world : Q → World → World;
  (** [obj.translation] and [obj.transformation] of the object with a handle *)
  translation : string → World → Vector3;
  transformation : string → World → Matrix4;
  remove_object_by_handle : string → World → World;
  (** [Vector3.length()] *)
  Vector3_length : Vector3 → Q;
  (** samplers *)
  scene_sampler_sample : SceneSampler → World → string * World;
  scene_sampler_reset : SceneSampler → World → World;
  object_sampler_reset : ObjectSampler → World → World;
  object_sampler_sample :
    ObjectSampler → bool → bool → World → list RigidObject * World;
  ao_sampler_sample :
    AOStateSampler → World →
    option (list (ao_instance * list (nat * Q))) * World;
  target_sampler_sample :
    ObjectTargetSampler → bool → World → list (string * RigidObject) * World;
  (** debug visualisation *)
  vdb_call : DebugCall → World → World
}.

(** ** Dictionaries with an observable insertion order *)

(** [k in d] *)
Definition dict_has {V} (d : list (string * V)) (k : string) : bool :=
  bool_decide (k ∈ d.*1).

(** [d[k] = v]: an existing key keeps its position, a new key goes last. *)
Fixpoint dict_set {V} (d : list (string * V)) (k : string) (v : V)
  : list (string * V) :=
  match d with
  | [] => [(k, v)]
  | (k', v') :: d' =>
      if decide (k = k') then (k, v) :: d' else (k', v') :: dict_set d' k v
  end.

(** The loops of [_get_resource_sets]: [for name, xs in sets: d[name] = xs]. *)
Definition dict_of_sets (sets : resource_sets) : gmap string (list string) :=
  foldl (λ d '(name, xs), <[name := xs]> d) ∅ sets.

(** ** The record produced for an accepted episode *)

Record RearrangeEpisode : Type := mkRearrangeEpisode {
  episode_id : string;
  start_position : list Q;
  start_rotation : list Q;
  scene_id : string;
  ao_states : gmap ao_instance (gmap nat Q);
  rigid_objs : list (string * Matrix4);
  targets : gmap string Matrix4;
  ep_markers : list (string * string * list string)
}.

(** ** What the generator prints, and the calls it makes to the samplers *)

Inductive Event : Type :=
| CallSceneSampler
| CallAOSampler (name : string)
| CallObjSampler (name : string)
| CallStepWorld
| CallTargetSampler (name : string)
| CallRemoveObject (object_handle : string)
| PrintNotImplemented (sampler_type : string)
| PrintSamplerGenerated (name : string) (count : Z)
| PrintAbortUnstable
| PrintUnstable (object_handle : string) (error : Q)
| PrintStabilityReport (unstable total : Z) (percent : Q)
    (unstable_placements : list string)
| PrintMaxDisplacement (d : Q)
| PrintGenerated (num_episodes tries : Z).

Section Generator.
Context `{Backend}.

(** ** The generator object together with the world it drives *)

Record State : Type := mkState {
  world : World;
  (** events, most recent first *)
  events : list Event;
  cfg : Config;
  _render_debug_obs : bool;
  (** [self.sim is not None] *)
  sim_created : bool;
  _scene_sets : gmap string (list string);
  _obj_sets : gmap string (list string);
  _receptacle_sets : gmap string (list string);
  _scene_sampler : option SceneSampler;
  _obj_samplers : list (string * ObjectSampler);
  _ao_state_samplers : list (string * AOStateSampler);
  _target_samplers : list (string * ObjectTargetSampler);
  ep_sampled_objects : list RigidObject;
  num_ep_generated : nat;
  (** [self.episode_data["sampled_objects"]] and [["sampled_targets"]] *)
  sampled_objects : gmap string (list RigidObject);
  sampled_targets : gmap string Matrix4
}.

Definition set_world (w : World) (s : State) : State :=
  mkState w (events s) (cfg s) (_render_debug_obs s) (sim_created s)
    (_scene_sets s) (_obj_sets s) (_receptacle_sets s) (_scene_sampler s)
    (_obj_samplers s) (_ao_state_samplers s) (_target_samplers s)
    (ep_sampled_objects s) (num_ep_generated s) (sampled_objects s)
    (sampled_targets s).

Definition add_event (e : Event) (s : State) : State :=
  mkState (world s) (e :: events s) (cfg s) (_render_debug_obs s)
    (sim_created s) (_scene_sets s) (_obj_sets s) (_receptacle_sets s)
    (_scene_sampler s) (_obj_samplers s) (_ao_state_samplers s)
    (_target_samplers s) (ep_sampled_objects s) (num_ep_generated s)
    (sampled_objects s) (sampled_targets s).

Definition set_sim_created (b : bool) (s : State) : State :=
  mkState (world s) (events s) (cfg s) (_render_debug_obs s) b
    (_scene_sets s) (_obj_sets s) (_receptacle_sets s) (_scene_sampler s)
    (_obj_samplers s) (_ao_state_samplers s) (_target_samplers s)
    (ep_sampled_objects s) (num_ep_generated s) (sampled_objects s)
    (sampled_targets s).

Definition set_resource_sets (sc ob re : gmap string (list string))
    (s : State) : State :=
  mkState (world s) (events s) (cfg s) (_render_debug_obs s) (sim_created s)
    sc ob re (_scene_sampler s)
    (_obj_samplers s) (_ao_state_samplers s) (_target_samplers s)
    (ep_sampled_objects s) (num_ep_generated s) (sampled_objects s)
    (sampled_targets s).

Definition set_scene_sampler (x : option SceneSampler) (s : State) : State :=
  mkState (world s) (events s) (cfg s) (_render_debug_obs s) (sim_created s)
    (_scene_sets s) (_obj_sets s) (_receptacle_sets s) x
    (_obj_samplers s) (_ao_state_samplers s) (_target_samplers s)
    (ep_sampled_objects s) (num_ep_generated s) (sampled_objects s)
    (sampled_targets s).

Definition set_obj_samplers (x : list (string * ObjectSampler)) (s : State)
  : State :=
  mkState (world s) (events s) (cfg s) (_render_debug_obs s) (sim_created s)
    (_scene_sets s) (_obj_sets s) (_receptacle_sets s) (_scene_sampler s)
    x (_ao_state_samplers s) (_target_samplers s)
    (ep_sampled_objects s) (num_ep_generated s) (sampled_objects s)
    (sampled_targets s).

Definition set_ao_state_samplers (x : list (string * AOStateSampler))
    (s : State) : State :=
  mkState (world s) (events s) (cfg s) (_render_debug_obs s) (sim_created s)
    (_scene_sets s) (_obj_sets s) (_receptacle_sets s) (_scene_sampler s)
    (_obj_samplers s) x (_target_samplers s)
    (ep_sampled_objects s) (num_ep_generated s) (sampled_objects s)
    (sampled_targets s).

Definition set_target_samplers (x : list (string * ObjectTargetSampler))
    (s : State) : State :=
  mkState (world s) (events s) (cfg s) (_render_debug_obs s) (sim_created s)
    (_scene_sets s) (_obj_sets s) (_receptacle_sets s) (_scene_sampler s)
    (_obj_samplers s) (_ao_state_samplers s) x
    (ep_sampled_objects s) (num_ep_generated s) (sampled_objects s)
    (sampled_targets s).

Definition set_ep_sampled_objects (x : list RigidObject) (s : State) : State :=
  mkState (world s) (events s) (cfg s) (_render_debug_obs s) (sim_created s)
    (_scene_sets s) (_obj_sets s) (_receptacle_sets s) (_scene_sampler s)
    (_obj_samplers s) (_ao_state_samplers s) (_target_samplers s)
    x (num_ep_generated s) (sampled_objects s) (sampled_targets s).

Definition set_num_ep_generated (x : nat) (s : State) : State :=
  mkState (world s) (events s) (cfg s) (_render_debug_obs s) (sim_created s)
    (_scene_sets s) (_obj_sets s) (_receptacle_sets s) (_scene_sampler s)
    (_obj_samplers s) (_ao_state_samplers s) (_target_samplers s)
    (ep_sampled_objects s) x (sampled_objects s) (sampled_targets s).

Definition set_sampled_objects (x : gmap string (list RigidObject))
    (s : State) : State :=
  mkState (world s) (events s) (cfg s) (_render_debug_obs s) (sim_created s)
    (_scene_sets s) (_obj_sets s) (_receptacle_sets s) (_scene_sampler s)
    (_obj_samplers s) (_ao_state_samplers s) (_target_samplers s)
    (ep_sampled_objects s) (num_ep_generated s) x (sampled_targets s).

Definition set_sampled_targets (x : gmap string Matrix4) (s : State) : State :=
  mkState (world s) (events s) (cfg s) (_render_debug_obs s) (sim_created s)
    (_scene_sets s) (_obj_sets s) (_receptacle_sets s) (_scene_sampler s)
    (_obj_samplers s) (_ao_state_samplers s) (_target_samplers s)
    (ep_sampled_objects s) (num_ep_generated s) (sampled_objects s) x.

Abbreviation Gen := (M State).

(** A [print], or the record of a sampler call. *)
Definition emit (e : Event) : Gen unit := modify (add_event e).

(** An effect on the world. *)
Definition sim_do (f : World → World) : Gen unit :=
  modify (λ s, set_world (f (world s)) s).

(** A read of the world. *)
Definition sim_get {A} (f : World → A) : Gen A := gets (λ s, f (world s)).

(** A call that returns a value and changes the world. *)
Definition sim_call {A} (f : World → A * World) : Gen A :=
  λ s, let '(a, w) := f (world s) in Ok a (set_world w s).

Definition vdb (c : DebugCall) : Gen unit := sim_do (vdb_call c).

(** [for x in l: acc = body acc x], for a loop that updates local variables. *)
Fixpoint fold_loop {A B} (body : B → A → Gen B) (l : list A) (acc : B)
  : Gen B :=
  match l with
  | [] => mret acc
  | x :: l' => acc' ← body acc x; fold_loop body l' acc'
  end.

(** [while cond: body] *)
Fixpoint while_loop (fuel : nat) (cond : Gen bool) (body : Gen unit)
  : Gen unit :=
  c ← cond;
  if c : bool then
    match fuel with
    | O => out_of_fuel
    | S fuel' => body;; while_loop fuel' cond body
    end
  else mret tt.

(** [[x for y in names for x in d[y]]]; a missing [y] raises [KeyError]. *)
Fixpoint flatten_sets {V} (d : gmap string (list V)) (names : list string)
  : Gen (list V) :=
  match names with
  | [] => mret []
  | y :: names' =>
      match d !! y with
      | None => raise (KeyError y)
      | Some xs => rest ← flatten_sets d names'; mret (xs ++ rest)
      end
  end.

(** ** Construction: [__init__] and the sampler caches *)

(** [initialize_sim(scene_name, dataset_path)] *)
Definition initialize_sim (scene_name dataset_path : string) : Gen unit :=
  created ← gets sim_created;
  (if created : bool then
     cur ← sim_get sim_cfg_scene_id;
     when (bool_decide (cur = scene_name))
       (assert (bool_decide (cur ≠ "NONE"))
          "Should never generate episodes in an empty scene. Mistake?";;
        sim_do (set_sim_cfg_scene_id "NONE"));;
     sim_do (reconfigure scene_name dataset_path)
   else
     sim_do (Simulator_new scene_name dataset_path);;
     modify (set_sim_created true);;
     c ← gets cfg;
     for_each (additional_object_paths c) (λ object_path,
       sim_do (load_configs object_path)));;
  sim_do setup_debug_camera.

Definition _get_resource_sets : Gen unit :=
  c ← gets cfg;
  modify (set_resource_sets (dict_of_sets (scene_sets c))
            (dict_of_sets (object_sets c))
            (dict_of_sets (receptacle_sets c))).

Definition _get_obj_samplers : Gen unit :=
  modify (set_obj_samplers []);;
  c ← gets cfg;
  for_each (obj_samplers c) (λ '(obj_sampler_name, obj_sampler_type, params),
    registered ← gets _obj_samplers;
    assert (negb (dict_has registered obj_sampler_name))
      ("Duplicate object sampler name '" +:+ obj_sampler_name
         +:+ "' in config.");;
    if decide (obj_sampler_type = "uniform") then
      obj_sets ← gets _obj_sets;
      objects ← flatten_sets obj_sets (up_sets params);
      rec_sets ← gets _receptacle_sets;
      receptacles ← flatten_sets rec_sets (up_receptacle_sets params);
      modify (set_obj_samplers
        (dict_set registered obj_sampler_name
           (mkObjectSampler objects receptacles
              (up_min params, up_max params) (up_orientation params))))
    else
      emit (PrintNotImplemented obj_sampler_type);;
      raise NotImplementedError).

(** Called from [generate_single_episode], once the object samplers have
    filled [episode_data]. *)
Definition _get_object_target_samplers : Gen unit :=
  modify (set_target_samplers []);;
  c ← gets cfg;
  for_each (obj_target_samplers c)
    (λ '(target_sampler_name, target_sampler_type, params),
    registered ← gets _target_samplers;
    assert (negb (dict_has registered target_sampler_name))
      ("Duplicate target sampler name '" +:+ target_sampler_name
         +:+ "' in config.");;
    if decide (target_sampler_type = "uniform") then
      so ← gets sampled_objects;
      object_instances ← flatten_sets so (up_sets params);
      rec_sets ← gets _receptacle_sets;
      receptacles ← flatten_sets rec_sets (up_receptacle_sets params);
      modify (set_target_samplers
        (dict_set registered target_sampler_name
           (mkObjectTargetSampler object_instances receptacles
              (up_min params, up_max params) (up_orientation params))))
    else
      emit (PrintNotImplemented target_sampler_type);;
      raise NotImplementedError).

(** One of the two inner loops of the "subset" branch: every named scene
    set must exist; its members are added to the set being collected. *)
Definition collect_scene_subset (names : list string) : Gen (gset string) :=
  fold_loop (λ acc scene_set,
    sets ← gets _scene_sets;
    match sets !! scene_set with
    | None =>
        raise (AssertionError ("SubsetSceneSampler requested scene_set "
                                 +:+ scene_set +:+ " not found."))
    | Some members => mret (foldl (λ a scene_subset, {[scene_subset]} ∪ a)
                              acc members)
    end) names ∅.

(** A parameter tuple of the other sampler's shape is outside the typed
    configuration; the model raises [TypeError] for it. *)
Definition _get_scene_sampler : Gen unit :=
  modify (set_scene_sampler None);;
  c ← gets cfg;
  let '(sampler_type, params) := scene_sampler c in
  if decide (sampler_type = "single") then
    match params with
    | SingleParams scene =>
        modify (set_scene_sampler (Some (SingleSceneSampler scene)))
    | SubsetParams _ _ => raise TypeError
    end
  else if decide (sampler_type = "subset") then
    match params with
    | SubsetParams included excluded =>
        inc ← collect_scene_subset included;
        exc ← collect_scene_subset excluded;
        modify (set_scene_sampler (Some (SceneSubsetSampler inc exc)))
    | SingleParams _ => raise TypeError
    end
  else
    emit (PrintNotImplemented sampler_type);;
    raise NotImplementedError.

(** The nested loops of the "composite" branch. *)
Definition composite_link_params (ao_handle : string)
    (link_sample_params : list (string * Q * Q))
  : Gen (list (string * (Q * Q))) :=
  fold_loop (λ links '(link_name, lo, hi),
    assert (negb (dict_has links link_name))
      ("Duplicate link name '" +:+ link_name +:+ "' for handle '"
         +:+ ao_handle +:+ " in composite AO sampler config.");;
    mret (dict_set links link_name (lo, hi))) link_sample_params [].

Definition composite_params (entries : list (string * list (string * Q * Q)))
  : Gen (list (string * list (string * (Q * Q)))) :=
  fold_loop (λ composite_ao_sampler_params '(ao_handle, link_sample_params),
    assert (negb (dict_has composite_ao_sampler_params ao_handle))
      ("Duplicate handle '" +:+ ao_handle
         +:+ "' in composite AO sampler config.");;
    links ← composite_link_params ao_handle link_sample_params;
    mret (dict_set composite_ao_sampler_params ao_handle links)) entries [].

Definition _get_ao_state_samplers : Gen unit :=
  modify (set_ao_state_samplers []);;
  c ← gets cfg;
  for_each (ao_state_samplers c)
    (λ '(ao_state_sampler_name, ao_state_sampler_type, params),
    registered ← gets _ao_state_samplers;
    assert (negb (dict_has registered ao_state_sampler_name))
      ("Duplicate AO state sampler name " +:+ ao_state_sampler_name
         +:+ " in config.");;
    if decide (ao_state_sampler_type = "uniform") then
      match params with
      | AOUniformParams ao_handle link lo hi =>
          modify (set_ao_state_samplers
            (dict_set registered ao_state_sampler_name
               (ArticulatedObjectStateSampler ao_handle link (lo, hi))))
      | AOCompositeParams _ => raise TypeError
      end
    else if decide (ao_state_sampler_type = "composite") then
      match params with
      | AOCompositeParams entries =>
          composite_ao_sampler_params ← composite_params entries;
          modify (set_ao_state_samplers
            (dict_set registered ao_state_sampler_name
               (CompositeArticulatedObjectStateSampler
                  composite_ao_sampler_params)))
      | AOUniformParams _ _ _ _ => raise TypeError
      end
    else
      emit (PrintNotImplemented ao_state_sampler_type);;
      raise NotImplementedError).

Definition __init__ : Gen unit :=
  c ← gets cfg;
  initialize_sim "NONE" (dataset_path c);;
  _get_resource_sets;;
  _get_scene_sampler;;
  _get_obj_samplers;;
  _get_ao_state_samplers;;
  modify (set_ep_sampled_objects []);;
  modify (set_num_ep_generated 0).

(** The object before [__init__] has run: no simulator, no caches. *)
Definition blank (c : Config) (debug_visualization : bool) (w : World)
  : State :=
  mkState w [] c debug_visualization false ∅ ∅ ∅ None [] [] [] [] 0 ∅ ∅.

(** [RearrangeEpisodeGenerator(cfg, debug_visualization)] *)
Definition RearrangeEpisodeGenerator (c : Config) (debug_visualization : bool)
    (w : World) : result State unit :=
  __init__ (blank c debug_visualization w).

(** ** One episode *)

Definition _reset_samplers : Gen unit :=
  modify (set_ep_sampled_objects []);;
  scene_sampler ← gets _scene_sampler;
  match scene_sampler with
  | None => raise AttributeError
  | Some sampler => sim_do (scene_sampler_reset sampler)
  end;;
  samplers ← gets _obj_samplers;
  for_each samplers (λ '(_, sampler), sim_do (object_sampler_reset sampler)).

Definition generate_scene : Gen string :=
  scene_sampler ← gets _scene_sampler;
  match scene_sampler with
  | None => raise AttributeError
  | Some sampler =>
      emit CallSceneSampler;;
      cur_scene_name ← sim_call (scene_sampler_sample sampler);
      c ← gets cfg;
      initialize_sim cur_scene_name (dataset_path c);;
      dbg ← gets _render_debug_obs;
      when dbg (vdb VisualizeSceneReceptacles;;
                vdb (MakeDebugVideo "receptacles_"));;
      mret cur_scene_name
  end.

(** Lines 339-343: one sampler's [link_states] for one instance are written
    into [ao_states]. *)
Definition merge_link_states (ao_states : gmap ao_instance (gmap nat Q))
    (sampled_instance : ao_instance) (link_states : list (nat * Q))
  : gmap ao_instance (gmap nat Q) :=
  let ao_states :=
    match ao_states !! sampled_instance with
    | None => <[sampled_instance := ∅]> ao_states
    | Some _ => ao_states
    end in
  foldl (λ acc '(link_ix, joint_state),
           alter (<[link_ix := joint_state]>) sampled_instance acc)
        ao_states link_states.

Definition merge_sampler_states (ao_states : gmap ao_instance (gmap nat Q))
    (sampler_states : list (ao_instance * list (nat * Q)))
  : gmap ao_instance (gmap nat Q) :=
  foldl (λ acc '(sampled_instance, link_states),
           merge_link_states acc sampled_instance link_states)
        ao_states sampler_states.

(** The loop over [self._ao_state_samplers.items()], from a given
    [ao_states]. *)
Definition sample_ao_states_from
    (samplers : list (string * AOStateSampler))
    (ao_states : gmap ao_instance (gmap nat Q))
  : Gen (gmap ao_instance (gmap nat Q)) :=
  fold_loop (λ ao_states '(sampler_name, ao_state_sampler),
    emit (CallAOSampler sampler_name);;
    sampler_states ← sim_call (ao_sampler_sample ao_state_sampler);
    match sampler_states with
    | None =>
        raise (AssertionError ("AO sampler '" +:+ sampler_name +:+ "' failed"))
    | Some states => mret (merge_sampler_states ao_states states)
    end) samplers ao_states.

Definition sample_ao_states : Gen (gmap ao_instance (gmap nat Q)) :=
  samplers ← gets _ao_state_samplers;
  sample_ao_states_from samplers ∅.

Definition sample_object_placements : Gen unit :=
  samplers ← gets _obj_samplers;
  dbg ← gets _render_debug_obs;
  for_each samplers (λ '(sampler_name, obj_sampler),
    emit (CallObjSampler sampler_name);;
    new_objects ← sim_call (object_sampler_sample obj_sampler true dbg);
    so ← gets sampled_objects;
    modify (set_sampled_objects
      match so !! sampler_name with
      | None => <[sampler_name := new_objects]> so
      | Some old => <[sampler_name := old ++ new_objects]> so
      end);;
    objs ← gets ep_sampled_objects;
    modify (set_ep_sampled_objects (objs ++ new_objects));;
    emit (PrintSamplerGenerated sampler_name (len new_objects));;
    when dbg (for_each new_objects (λ new_object,
      t ← sim_get (translation (handle new_object));
      vdb (LookAtAndObserve t)))).

(** ** The stability validator *)

Definition error_eps : Q := 1 # 10.

(** Lines 523-525: positions recorded at call time, and their sum. *)
Definition record_spawn_positions (objs : list RigidObject)
  : Gen (gmap string Vector3 * Vector3) :=
  fold_loop (λ '(spawn_positions, new_obj_centroid) new_object,
    t ← sim_get (translation (handle new_object));
    mret (<[handle new_object := t]> spawn_positions,
          Vector3_add new_obj_centroid t))
    objs (∅, Vector3_zero).

(** Lines 535-538. *)
Definition settle_loop (fuel : nat) (duration : Q) : Gen unit :=
  while_loop fuel
    (t ← sim_get get_world_time; mret (Qltb t duration))
    (emit CallStepWorld;;
     sim_do (step_world (1 / 30));;
     dbg ← gets _render_debug_obs;
     when dbg (vdb SettleObservation)).

(** Lines 545-554: the displacement of every object, the running maximum and
    the handles found unstable. *)
Definition check_stability (spawn_positions : gmap string Vector3)
    (objs : list RigidObject) : Gen (Q * list string) :=
  fold_loop (λ '(max_settle_displacement, unstable_placements) new_object,
    match spawn_positions !! handle new_object with
    | None => raise (KeyError (handle new_object))
    | Some spawn =>
        t ← sim_get (translation (handle new_object));
        let error := Vector3_length (Vector3_sub spawn t) in
        let max_settle_displacement := py_max max_settle_displacement error in
        if Qgtb error error_eps then
          emit (PrintUnstable (handle new_object) error);;
          mret (max_settle_displacement,
                unstable_placements ++ [handle new_object])
        else mret (max_settle_displacement, unstable_placements)
    end) objs (0%Q, []).

Definition settle_sim (fuel : nat) (duration : Q) (make_video : bool)
  : Gen bool :=
  objs ← gets ep_sampled_objects;
  assert (bool_decide (len objs > 0)%Z) EmptyString;;
  '(spawn_positions, new_obj_centroid) ← record_spawn_positions objs;
  new_obj_centroid ← Vector3_div new_obj_centroid (inject_Z (len objs));
  dbg ← gets _render_debug_obs;
  when dbg (vdb (LookAtAndObserve new_obj_centroid));;
  settle_loop fuel duration;;
  '(max_settle_displacement, unstable_placements) ←
    check_stability spawn_positions objs;
  ratio ← py_div (inject_Z (len unstable_placements)) (inject_Z (len objs));
  emit (PrintStabilityReport (len unstable_placements) (len objs)
          (ratio * 100) unstable_placements);;
  emit (PrintMaxDisplacement max_settle_displacement);;
  when (dbg && make_video) (vdb (MakeDebugVideo "settle_"));;
  mret (bool_decide (len unstable_placements = 0)%Z).

(** ** Targets and the episode record *)

(** Lines 390-417: one [(instance_handle, target_object)] item. *)
Definition record_target (instance_handle : string)
    (target_object : RigidObject) : Gen unit :=
  st ← gets sampled_targets;
  assert (bool_decide (st !! instance_handle = None))
    ("Duplicate target for instance '" +:+ instance_handle +:+ "'.");;
  target_transform ← sim_get (transformation (handle target_object));
  modify (set_sampled_targets (<[instance_handle := target_transform]> st));;
  emit (CallRemoveObject (handle target_object));;
  sim_do (remove_object_by_handle (handle target_object));;
  dbg ← gets _render_debug_obs;
  when dbg (vdb (TargetWireBox instance_handle target_transform)).

Definition sample_targets : Gen unit :=
  samplers ← gets _target_samplers;
  for_each samplers (λ '(sampler_name, target_sampler),
    emit (CallTargetSampler sampler_name);;
    new_target_objects ← sim_call (target_sampler_sample target_sampler true);
    for_each new_target_objects (λ '(instance_handle, target_object),
      record_target instance_handle target_object)).

(** Lines 419-441. *)
Definition assemble_episode (ep_scene_handle : string)
    (ao_st : gmap ao_instance (gmap nat Q)) : Gen (option RearrangeEpisode) :=
  objs ← gets ep_sampled_objects;
  w ← gets world;
  let sampled_rigid_object_states :=
    map (λ x, (creation_attributes_handle x, transformation (handle x) w))
        objs in
  n ← gets num_ep_generated;
  modify (set_num_ep_generated (n + 1));;
  n ← gets num_ep_generated;
  tg ← gets sampled_targets;
  c ← gets cfg;
  mret (Some (mkRearrangeEpisode
                (pretty (n - 1)%nat)
                [0; 0; 0]%Q
                [0; 0; 0; 1]%Q
                ep_scene_handle
                ao_st
                sampled_rigid_object_states
                tg
                (markers c))).

(** Lines 321-369: everything that precedes the stability check. *)
Definition sample_episode_state
  : Gen (string * gmap ao_instance (gmap nat Q)) :=
  _reset_samplers;;
  modify (set_sampled_objects ∅);;
  modify (set_sampled_targets ∅);;
  ep_scene_handle ← generate_scene;
  ao_st ← sample_ao_states;
  sample_object_placements;;
  mret (ep_scene_handle, ao_st).

Definition generate_single_episode (sfuel : nat)
  : Gen (option RearrangeEpisode) :=
  '(ep_scene_handle, ao_st) ← sample_episode_state;
  stable ← settle_sim sfuel 5 true;
  if negb stable then
    emit PrintAbortUnstable;;
    mret None
  else
    _get_object_target_samplers;;
    sample_targets;;
    assemble_episode ep_scene_handle ao_st.

(** ** The retry loop *)

Fixpoint generate_episodes_loop (fuel sfuel : nat) (num_episodes : Z)
    (generated_episodes : list RearrangeEpisode) (failed_episodes : Z)
  : Gen (list RearrangeEpisode * Z) :=
  if bool_decide (len generated_episodes < num_episodes)%Z then
    match fuel with
    | O => out_of_fuel
    | S fuel' =>
        new_episode ← generate_single_episode sfuel;
        match new_episode with
        | None =>
            generate_episodes_loop fuel' sfuel num_episodes
              generated_episodes (failed_episodes + 1)
        | Some ep =>
            generate_episodes_loop fuel' sfuel num_episodes
              (generated_episodes ++ [ep]) failed_episodes
        end
    end
  else mret (generated_episodes, failed_episodes).

Definition generate_episodes (fuel sfuel : nat) (num_episodes : Z)
  : Gen (list RearrangeEpisode) :=
  '(generated_episodes, failed_episodes) ←
    generate_episodes_loop fuel sfuel num_episodes [] 0;
  emit (PrintGenerated num_episodes (num_episodes + failed_episodes));;
  mret generated_episodes.

End Generator.

Abbreviation Gen := (M State).

(** ** A small concrete backend

    A deterministic stand-in for the simulator and the samplers, used to run
    the generator on concrete configurations.  Objects only move along the
    vertical axis, at a rate fixed per attempt by a script; a sampler over an
    empty range fails. *)

Module Toy.

Record TWorld : Type := mkTWorld {
  tw_time : Q;
  tw_scene : string;
  (** vertical speed of every object during the current attempt *)
  tw_rate : Q;
  (** speeds for the attempts to come *)
  tw_script : list Q;
  tw_removed : list string
}.

Definition tw_with_scene (scene : string) (w : TWorld) : TWorld :=
  mkTWorld 0 scene (tw_rate w) (tw_script w) (tw_removed w).

Definition tw_sample_scene (smp : SceneSampler) (w : TWorld)
  : string * TWorld :=
  (match smp with
   | SingleSceneSampler scene => scene
   | SceneSubsetSampler _ _ => "subset_scene"
   end,
   mkTWorld (tw_time w) (tw_scene w) (hd 0%Q (tw_script w))
     (tl (tw_script w)) (tw_removed w)).

Definition tw_step (dt : Q) (w : TWorld) : TWorld :=
  mkTWorld (Qred (tw_time w + dt)) (tw_scene w) (tw_rate w) (tw_script w)
    (tw_removed w).

Definition tw_translation (h : string) (w : TWorld) : Vector3 :=
  mkVector3 0 (Qred (- (tw_rate w * tw_time w))) 0.

Definition tw_transformation (h : string) (w : TWorld) : Matrix4 :=
  [1; 0; 0; 0;
   0; 1; 0; vy (tw_translation h w);
   0; 0; 1; 0;
   0; 0; 0; 1]%Q.

(** For the axis-aligned vectors of this backend the sum of the absolute
    components is the Euclidean length. *)
Definition tw_length (v : Vector3) : Q :=
  Qred (Qabs (vx v) + Qabs (vy v) + Qabs (vz v)).

Definition tw_sample_objects (smp : ObjectSampler) (snap_down vdb : bool)
    (w : TWorld) : list RigidObject * TWorld :=
  (map (λ o, mkRigidObject (o +:+ "_:0000") o) (os_objects smp), w).

Definition tw_link_ix (link : string) : nat := String.length link.
Definition tw_instance (ao_handle : string) : ao_instance :=
  String.length ao_handle.

Definition tw_sample_ao (smp : AOStateSampler) (w : TWorld)
  : option (list (ao_instance * list (nat * Q))) * TWorld :=
  (match smp with
   | ArticulatedObjectStateSampler ao_handle link (lo, hi) =>
       if Qgtb lo hi then None
       else Some [(tw_instance ao_handle, [(tw_link_ix link, lo)])]
   | CompositeArticulatedObjectStateSampler params =>
       if existsb (λ '(_, links),
                     existsb (λ '(_, (lo, hi)), Qgtb lo hi) links) params
       then None
       else Some (map (λ '(ao_handle, links),
                         (tw_instance ao_handle,
                          map (λ '(link, (lo, _)), (tw_link_ix link, lo))
                              links)) params)
   end, w).

Definition tw_sample_targets (smp : ObjectTargetSampler) (snap_down : bool)
    (w : TWorld) : list (string * RigidObject) * TWorld :=
  (map (λ o, (handle o,
              mkRigidObject (handle o +:+ "_target")
                (creation_attributes_handle o)))
       (ts_object_instances smp), w).

Definition tw_remove (h : string) (w : TWorld) : TWorld :=
  mkTWorld (tw_time w) (tw_scene w) (tw_rate w) (tw_script w)
    (h :: tw_removed w).

#[local] Instance backend : Backend := {|
  World := TWorld;
  Simulator_new scene _ := tw_with_scene scene;
  load_configs _ w := w;
  sim_cfg_scene_id := tw_scene;
  set_sim_cfg_scene_id scene w :=
    mkTWorld (tw_time w) scene (tw_rate w) (tw_script w) (tw_removed w);
  reconfigure scene _ := tw_with_scene scene;
  setup_debug_camera w := w;
  get_world_time := tw_time;
  step_world := tw_step;
  translation := tw_translation;
  transformation := tw_transformation;
  remove_object_by_handle := tw_remove;
  Vector3_length := tw_length;
  scene_sampler_sample := tw_sample_scene;
  scene_sampler_reset _ w := w;
  object_sampler_reset _ w := w;
  object_sampler_sample := tw_sample_objects;
  ao_sampler_sample := tw_sample_ao;
  target_sampler_sample := tw_sample_targets;
  vdb_call _ w := w
|}.

(** The world before any generator exists; [script] gives the speed of the
    objects in each attempt to come. *)
Definition world0 (script : list Q) : TWorld :=
  mkTWorld 0 EmptyString 0 script [].

Definition base_cfg : Config := {|
  dataset_path := "data/replica_cad/replicaCAD.scene_dataset_config.json";
  additional_object_paths := ["data/objects/ycb/"];
  scene_sets := [("default", ["v3_sc0_staging_00"]); ("any", ["NONE"])];
  object_sets := [("any", ["002_master_chef_can"; "003_cracker_box"]);
                  ("cheezit", ["003_cracker_box"])];
  receptacle_sets := [("table", ["frl_apartment_table_01"]);
                      ("fridge", ["fridge"])];
  scene_sampler := ("single", SingleParams "v3_sc0_staging_00");
  obj_samplers := [("any", "uniform",
                    mkUniformParams ["any"] ["table"] 2 2 "up")];
  obj_target_samplers := [("any_targets", "uniform",
                           mkUniformParams ["any"] ["table"] 2 2 "up")];
  ao_state_samplers :=
    [("open_fridge_doors", "composite",
      AOCompositeParams
        [("fridge", [("top_door", 3 # 2, 3 # 2);
                     ("bottom_door", 3 # 2, 3 # 2)]%Q)])];
  markers := [("chair", "rigid_object", ["frl_apartment_chair_01"])]
|}.

(** [cfg] with some fields replaced. *)
Definition with_obj_samplers (x : list (string * string * UniformParams))
    (c : Config) : Config :=
  mkConfig (dataset_path c) (additional_object_paths c) (scene_sets c)
    (object_sets c) (receptacle_sets c) (scene_sampler c) x
    (obj_target_samplers c) (ao_state_samplers c) (markers c).

Definition with_target_samplers (x : list (string * string * UniformParams))
    (c : Config) : Config :=
  mkConfig (dataset_path c) (additional_object_paths c) (scene_sets c)
    (object_sets c) (receptacle_sets c) (scene_sampler c) (obj_samplers c)
    x (ao_state_samplers c) (markers c).

Definition with_ao_samplers (x : list (string * string * AOParams))
    (c : Config) : Config :=
  mkConfig (dataset_path c) (additional_object_paths c) (scene_sets c)
    (object_sets c) (receptacle_sets c) (scene_sampler c) (obj_samplers c)
    (obj_target_samplers c) x (markers c).

(** Construct a generator and run a method on it. *)
Definition run {A} (c : Config) (script : list Q) (m : M State A)
  : result State A :=
  match RearrangeEpisodeGenerator c false (world0 script) with
  | Ok _ s => m s
  | Raise e s => Raise e s
  | OutOfFuel => OutOfFuel
  end.

(** The generator constructed from [c]. *)
Definition generator (c : Config) (script : list Q) : State :=
  match RearrangeEpisodeGenerator c false (world0 script) with
  | Ok _ s | Raise _ s => s
  | OutOfFuel => blank c false (world0 script)
  end.

(** What a method returns from a state (or [d] if it does not return), and
    the state it leaves. *)
Definition returned {A} (d : A) (m : M State A) (s : State) : A :=
  match m s with Ok a _ => a | _ => d end.

Definition state_after {A} (m : M State A) (s : State) : State :=
  match m s with Ok _ s' | Raise _ s' => s' | OutOfFuel => s end.

(** Observations of a result. *)
Definition value {S A} (r : result S A) : option A :=
  match r with Ok a _ => Some a | _ => None end.

Definition raised {S A} (r : result S A) : option exn :=
  match r with Raise e _ => Some e | _ => None end.

Definition final {S A} (r : result S A) : option S :=
  match r with Ok _ s | Raise _ s => Some s | OutOfFuel => None end.

End Toy.

(** * Reasoning about the monad *)

(** [sat R D m]: from any state, a run of [m] that returns or raises ends in
    a state related to the initial one by [R]; it may run out of fuel only
    if [D] holds. *)
Definition sat {S A} (R : S → S → Prop) (D : Prop) (m : M S A) : Prop :=
  ∀ s, match m s with
       | Ok _ s' | Raise _ s' => R s s'
       | OutOfFuel => D
       end.

Section Sat.
Context {S : Type} (R : S → S → Prop) (D : Prop).
Context `{!Reflexive R, !Transitive R}.

Lemma sat_ret {A} (a : A) : sat R D (mret a : M S A).
Proof. intros s. simpl. reflexivity. Qed.

Lemma sat_raise {A} (e : exn) : sat R D (raise e : M S A).
Proof. intros s. simpl. reflexivity. Qed.

Lemma sat_gets {A} (f : S → A) : sat R D (gets f).
Proof. intros s. simpl. reflexivity. Qed.

Lemma sat_modify (f : S → S) : (∀ s, R s (f s)) → sat R D (modify f).
Proof. intros Hf s. simpl. apply Hf. Qed.

Lemma sat_out_of_fuel {A} : D → sat R D (out_of_fuel : M S A).
Proof. intros HD s. exact HD. Qed.

Lemma sat_bind {A B} (m : M S A) (k : A → M S B) :
  sat R D m → (∀ a, sat R D (k a)) → sat R D (m ≫= k).
Proof.
  intros Hm Hk s. specialize (Hm s).
  unfold mbind, M_bind. destruct (m s) as [a s1|e s1|]; auto.
  specialize (Hk a s1). destruct (k a s1); eauto.
Qed.

Lemma sat_assert (c : bool) (msg : string) : sat R D (assert c msg : M S unit).
Proof. destruct c; [apply sat_ret | apply sat_raise]. Qed.

Lemma sat_when (c : bool) (m : M S unit) : sat R D m → sat R D (when c m).
Proof. destruct c; [auto | intros; apply sat_ret]. Qed.

Lemma sat_for_each {A} (l : list A) (body : A → M S unit) :
  (∀ x, sat R D (body x)) → sat R D (for_each l body).
Proof.
  intros Hb. induction l as [|x l IH]; simpl.
  - apply sat_ret.
  - apply sat_bind; auto.
Qed.

End Sat.

(** Inversion of a bind that returned. *)
Lemma bind_Ok_inv {S A B} (m : M S A) (k : A → M S B) s b s2 :
  (m ≫= k) s = Ok b s2 → ∃ a s1, m s = Ok a s1 ∧ k a s1 = Ok b s2.
Proof.
  unfold mbind, M_bind. destruct (m s) as [a s1|e s1|]; try discriminate.
  eauto.
Qed.

Lemma bind_Ok {S A B} (m : M S A) (k : A → M S B) s a s1 :
  m s = Ok a s1 → (m ≫= k) s = k a s1.
Proof. unfold mbind, M_bind. intros ->. reflexivity. Qed.

Lemma bind_Raise {S A B} (m : M S A) (k : A → M S B) s e s1 :
  m s = Raise e s1 → (m ≫= k) s = Raise e s1.
Proof. unfold mbind, M_bind. intros ->. reflexivity. Qed.

Section GenSat.
Context `{Backend}.
Context (R : State → State → Prop) (D : Prop).
Context `{!Reflexive R, !Transitive R}.

Lemma sat_fold_loop {A B} (body : B → A → Gen B) (l : list A) (acc : B) :
  (∀ b x, sat R D (body b x)) → sat R D (fold_loop body l acc).
Proof.
  intros Hb. revert acc. induction l as [|x l IH]; intros acc; simpl.
  - apply sat_ret; auto.
  - apply sat_bind; auto.
Qed.

Lemma sat_while_loop (fuel : nat) (cond : Gen bool) (body : Gen unit) :
  D → sat R D cond → sat R D body → sat R D (while_loop fuel cond body).
Proof.
  intros HD Hc Hb. induction fuel as [|fuel IH]; simpl.
  - apply sat_bind; auto. intros [|]; [apply sat_out_of_fuel | apply sat_ret];
      auto.
  - apply sat_bind; auto. intros [|]; [|apply sat_ret; auto].
    apply sat_bind; auto.
Qed.

Lemma sat_sim_get {A} (f : World → A) : sat R D (sim_get f).
Proof. apply sat_gets; auto. Qed.

Lemma sat_sim_do (f : World → World) :
  (∀ s w, R s (set_world w s)) → sat R D (sim_do f).
Proof. intros Hw. apply sat_modify. intros s. apply Hw. Qed.

Lemma sat_sim_call {A} (f : World → A * World) :
  (∀ s w, R s (set_world w s)) → sat R D (sim_call f).
Proof.
  intros Hw s. unfold sim_call. destruct (f (world s)) as [a w]. apply Hw.
Qed.

Lemma sat_vdb (c : DebugCall) :
  (∀ s w, R s (set_world w s)) → sat R D (vdb c).
Proof. apply sat_sim_do. Qed.

Lemma sat_emit (e : Event) : (∀ s, R s (add_event e s)) → sat R D (emit e).
Proof. apply sat_modify. Qed.

Lemma sat_flatten_sets {V} (d : gmap string (list V)) (names : list string) :
  sat R D (flatten_sets d names).
Proof.
  induction names as [|y names IH]; simpl.
  - apply sat_ret; auto.
  - destruct (d !! y); [|apply sat_raise; auto].
    apply sat_bind; [exact _ | exact IH | intros rest; apply sat_ret; exact _].
Qed.

End GenSat.

(** One structural step of a [sat] proof. *)
Ltac sat_step :=
  lazymatch goal with
  | |- sat _ _ (mbind _ _) => apply sat_bind; try exact _; [ | intros ?]
  | |- sat _ _ (mret _) => apply sat_ret; try exact _
  | |- sat _ _ (raise _) => apply sat_raise; try exact _
  | |- sat _ _ (gets _) => apply sat_gets; try exact _
  | |- sat _ _ (sim_get _) => apply sat_sim_get; try exact _
  | |- sat _ _ (assert _ _) => apply sat_assert; try exact _
  | |- sat _ _ (when _ _) => apply sat_when; try exact _
  | |- sat _ _ (for_each _ _) => apply sat_for_each; try exact _; intros ?
  | |- sat _ _ (fold_loop _ _ _) =>
      apply sat_fold_loop; try exact _; intros ? ?
  | |- sat _ _ (while_loop _ _ _) => apply sat_while_loop; try exact _
  | |- sat _ _ (modify _) => apply sat_modify
  | |- sat _ _ (emit _) => apply sat_emit
  | |- sat _ _ (sim_do _) => apply sat_sim_do
  | |- sat _ _ (sim_call _) => apply sat_sim_call
  | |- sat _ _ (vdb _) => apply sat_vdb
  | |- sat _ _ (flatten_sets _ _) => apply sat_flatten_sets; try exact _
  | |- sat _ _ (match ?x with _ => _ end) => destruct x
  | |- sat _ _ ((match ?x with _ => _ end) _) => destruct x; cbv beta
  end.

(** * Frame properties of the phases of an episode *)

(** Events that belong to target sampling. *)
Definition is_target_event (e : Event) : bool :=
  match e with
  | CallTargetSampler _ | CallRemoveObject _ => true
  | _ => false
  end.

Section Frames.
Context `{Backend}.

(** [quiet s s']: the episode counter and the recorded targets are those of
    [s], and the events added since [s] involve no target sampling. *)
Definition quiet (s s' : State) : Prop :=
  num_ep_generated s' = num_ep_generated s ∧
  sampled_targets s' = sampled_targets s ∧
  ∃ new, events s' = new ++ events s ∧
         Forall (λ e, is_target_event e = false) new.

#[local] Instance quiet_refl : Reflexive quiet.
Proof. intros s. repeat split. exists []. split; [reflexivity | constructor]. Qed.

#[local] Instance quiet_trans : Transitive quiet.
Proof.
  intros s1 s2 s3 (Hn1 & Ht1 & new1 & He1 & Hf1) (Hn2 & Ht2 & new2 & He2 & Hf2).
  repeat split; [congruence | congruence |].
  exists (new2 ++ new1). split.
  - rewrite He2, He1. apply app_assoc.
  - apply Forall_app; auto.
Qed.

Lemma quiet_same (s s' : State) :
  num_ep_generated s' = num_ep_generated s →
  sampled_targets s' = sampled_targets s →
  events s' = events s → quiet s s'.
Proof.
  intros Hn Ht He. repeat split; auto. exists []. split; [auto | constructor].
Qed.

Lemma quiet_event (e : Event) (s : State) :
  is_target_event e = false → quiet s (add_event e s).
Proof.
  intros He. repeat split. exists [e]. split; [reflexivity |].
  constructor; [exact He | constructor].
Qed.

End Frames.

Create HintDb frames.
#[local] Hint Resolve quiet_event : frames.
#[local] Hint Extern 1 (quiet _ _) =>
  (apply quiet_same; reflexivity) : frames.

Ltac quiet_go :=
  repeat (first [ sat_step | exact I ]);
  try solve [ intros; auto with frames ].

Section QuietPhases.
Context `{Backend}.
#[local] Existing Instances quiet_refl quiet_trans.

Lemma initialize_sim_quiet scene_name path :
  sat quiet True (initialize_sim scene_name path).
Proof. unfold initialize_sim. quiet_go. Qed.

Lemma reset_samplers_quiet : sat quiet True _reset_samplers.
Proof. unfold _reset_samplers. quiet_go. Qed.

Lemma generate_scene_quiet : sat quiet True generate_scene.
Proof.
  unfold generate_scene. quiet_go. apply initialize_sim_quiet.
Qed.

Lemma sample_ao_states_quiet : sat quiet True sample_ao_states.
Proof. unfold sample_ao_states, sample_ao_states_from. quiet_go. Qed.

Lemma sample_object_placements_quiet : sat quiet True sample_object_placements.
Proof. unfold sample_object_placements. quiet_go. Qed.

Lemma settle_sim_quiet fuel duration make_video :
  sat quiet True (settle_sim fuel duration make_video).
Proof.
  unfold settle_sim, record_spawn_positions, settle_loop, check_stability,
    Vector3_div, py_div.
  quiet_go.
Qed.

Lemma get_object_target_samplers_quiet :
  sat quiet True _get_object_target_samplers.
Proof. unfold _get_object_target_samplers. quiet_go. Qed.

End QuietPhases.

(** * The shape of one attempt *)

Lemma sat_Ok {S A} (R : S → S → Prop) (D : Prop) (m : M S A) s a s' :
  sat R D m → m s = Ok a s' → R s s'.
Proof. intros Hm Hs. specialize (Hm s). rewrite Hs in Hm. exact Hm. Qed.

Lemma sat_Raise {S A} (R : S → S → Prop) (D : Prop) (m : M S A) s e s' :
  sat R D m → m s = Raise e s' → R s s'.
Proof. intros Hm Hs. specialize (Hm s). rewrite Hs in Hm. exact Hm. Qed.

Section Attempt.
Context `{Backend}.
#[local] Existing Instances quiet_refl quiet_trans.

(** [assemble_episode] always returns a record and advances the counter. *)
Lemma assemble_episode_eq (scene : string)
    (ao_st : gmap ao_instance (gmap nat Q)) (s : State) :
  assemble_episode scene ao_st s =
  Ok (Some (mkRearrangeEpisode
              (pretty (num_ep_generated s + 1 - 1)%nat)
              [0; 0; 0]%Q [0; 0; 0; 1]%Q scene ao_st
              (map (λ x, (creation_attributes_handle x,
                          transformation (handle x) (world s)))
                   (ep_sampled_objects s))
              (sampled_targets s) (markers (cfg s))))
     (set_num_ep_generated (num_ep_generated s + 1) s).
Proof. reflexivity. Qed.

(** A run of [generate_single_episode] that returns went through the
    sampling phase and the stability check, and then either gave up or
    sampled targets and assembled the record. *)
Lemma generate_single_episode_Ok_inv sfuel s r s' :
  generate_single_episode sfuel s = Ok r s' →
  ∃ scene ao_st s1 stable s2,
    sample_episode_state s = Ok (scene, ao_st) s1 ∧
    settle_sim sfuel 5 true s1 = Ok stable s2 ∧
    ((stable = false ∧ r = None ∧ s' = add_event PrintAbortUnstable s2) ∨
     (stable = true ∧ ∃ s3 s4,
        _get_object_target_samplers s2 = Ok tt s3 ∧
        sample_targets s3 = Ok tt s4 ∧
        assemble_episode scene ao_st s4 = Ok r s')).
Proof.
  unfold generate_single_episode. intros Hg.
  apply bind_Ok_inv in Hg as ([scene ao_st] & s1 & Hpre & Hg).
  apply bind_Ok_inv in Hg as (stable & s2 & Hsettle & Hg).
  exists scene, ao_st, s1, stable, s2. split; [exact Hpre|]. split; [exact Hsettle|].
  destruct stable; simpl in Hg.
  - right. split; [reflexivity|].
    apply bind_Ok_inv in Hg as ([] & s3 & Ht & Hg).
    apply bind_Ok_inv in Hg as ([] & s4 & Hs & Hg).
    eauto.
  - left. inversion Hg; subst. auto.
Qed.

(** The sampling phase leaves the counter alone, emits no target event, and
    hands over an empty target mapping. *)
Lemma sample_episode_state_Ok s r s1 :
  sample_episode_state s = Ok r s1 →
  num_ep_generated s1 = num_ep_generated s ∧
  sampled_targets s1 = ∅ ∧
  ∃ new, events s1 = new ++ events s ∧
         Forall (λ e, is_target_event e = false) new.
Proof.
  unfold sample_episode_state. intros Hp.
  apply bind_Ok_inv in Hp as ([] & sa & Hreset & Hp).
  apply bind_Ok_inv in Hp as ([] & sb & Hso & Hp).
  apply bind_Ok_inv in Hp as ([] & sc & Hst & Hp).
  inversion Hso; subst sb. inversion Hst; subst sc. clear Hso Hst.
  apply (sat_Ok quiet True) in Hreset as (Hn1 & _ & new1 & He1 & Hf1);
    [|apply reset_samplers_quiet].
  assert (Hq : quiet (set_sampled_targets ∅ (set_sampled_objects ∅ sa)) s1).
  { eapply (sat_Ok quiet True); [|exact Hp].
    sat_step; [apply generate_scene_quiet|].
    sat_step; [apply sample_ao_states_quiet|].
    sat_step; [apply sample_object_placements_quiet|].
    sat_step. }
  destruct Hq as (Hn2 & Ht2 & new2 & He2 & Hf2). simpl in *.
  split; [congruence|]. split; [exact Ht2|].
  exists (new2 ++ new1). split.
  - rewrite He2, He1. apply app_assoc.
  - apply Forall_app; auto.
Qed.

End Attempt.

(** * Target sampling *)

(** The number of target objects removed so far; [record_target] removes
    one each time it records a target. *)
Fixpoint count_removals (evs : list Event) : nat :=
  match evs with
  | [] => 0
  | CallRemoveObject _ :: evs' => S (count_removals evs')
  | _ :: evs' => count_removals evs'
  end.

Lemma count_removals_quiet (new old : list Event) :
  Forall (λ e, is_target_event e = false) new →
  count_removals (new ++ old) = count_removals old.
Proof.
  induction 1 as [|e new He _ IH]; simpl; [reflexivity|].
  destruct e; simpl in He; try discriminate; exact IH.
Qed.

Section Targets.
Context `{Backend}.

(** [tracked s s']: same counter, and as many targets were added to the
    mapping as target objects were removed. *)
Definition tracked (s s' : State) : Prop :=
  num_ep_generated s' = num_ep_generated s ∧
  size (sampled_targets s') + count_removals (events s) =
  size (sampled_targets s) + count_removals (events s').

#[local] Instance tracked_refl : Reflexive tracked.
Proof. intros s. split; reflexivity. Qed.

#[local] Instance tracked_trans : Transitive tracked.
Proof. intros s1 s2 s3 [Hn1 Hc1] [Hn2 Hc2]. split; [congruence | lia]. Qed.

(** The duplicate check: a handle already present raises, and nothing has
    changed when it does. *)
Lemma record_target_duplicate (instance_handle : string)
    (target_object : RigidObject) (s : State) :
  is_Some (sampled_targets s !! instance_handle) →
  record_target instance_handle target_object s =
  Raise (AssertionError
           ("Duplicate target for instance '" +:+ instance_handle +:+ "'."))
        s.
Proof.
  intros [t Ht]. unfold record_target, mbind, M_bind, gets. simpl.
  rewrite bool_decide_eq_false_2; [reflexivity | congruence].
Qed.

(** A fresh handle is recorded with the target object's transform, and the
    target object is removed. *)
Lemma record_target_fresh (instance_handle : string)
    (target_object : RigidObject) (s : State) :
  sampled_targets s !! instance_handle = None →
  ∃ s', record_target instance_handle target_object s = Ok tt s' ∧
        sampled_targets s' =
          <[instance_handle :=
              transformation (handle target_object) (world s)]>
            (sampled_targets s) ∧
        events s' = CallRemoveObject (handle target_object) :: events s ∧
        num_ep_generated s' = num_ep_generated s.
Proof.
  intros Hfresh. unfold record_target, mbind, M_bind, gets. simpl.
  rewrite bool_decide_eq_true_2 by exact Hfresh. simpl.
  destruct (_render_debug_obs s); simpl; eauto.
Qed.

Lemma record_target_tracked instance_handle target_object :
  sat tracked True (record_target instance_handle target_object).
Proof.
  intros s.
  destruct (sampled_targets s !! instance_handle) as [t|] eqn:Hl.
  - rewrite record_target_duplicate by eauto. reflexivity.
  - destruct (record_target_fresh instance_handle target_object s Hl)
      as (s' & -> & Hst & Hev & Hn).
    split; [exact Hn|]. rewrite Hst, Hev. simpl.
    rewrite map_size_insert_None by exact Hl. lia.
Qed.

Lemma sample_targets_tracked : sat tracked True sample_targets.
Proof.
  unfold sample_targets.
  repeat (first [ apply record_target_tracked | sat_step ]);
    intros; split; reflexivity.
Qed.

(** One sampler's items: if they were all recorded, their handles were
    pairwise distinct and absent from the mapping beforehand. *)
Lemma record_targets_NoDup (items : list (string * RigidObject)) (s s' : State) :
  for_each items (λ '(instance_handle, target_object),
    record_target instance_handle target_object) s = Ok tt s' →
  NoDup items.*1 ∧
  (∀ h, h ∈ items.*1 → sampled_targets s !! h = None) ∧
  (∀ h, is_Some (sampled_targets s' !! h) ↔
        is_Some (sampled_targets s !! h) ∨ h ∈ items.*1).
Proof.
  revert s. induction items as [|[h o] items IH]; intros s Hrun; simpl in *.
  - inversion Hrun; subst. split; [constructor|]. split.
    + intros h Hh. inversion Hh.
    + intros h. split; [auto|]. intros [?|Hh]; [auto | inversion Hh].
  - apply bind_Ok_inv in Hrun as ([] & s1 & Hrec & Hrun).
    destruct (sampled_targets s !! h) as [t|] eqn:Hl.
    { rewrite record_target_duplicate in Hrec by eauto. discriminate. }
    destruct (record_target_fresh h o s Hl) as (s1' & Hrec' & Hst & _).
    rewrite Hrec in Hrec'. inversion Hrec'; subst s1'. clear Hrec'.
    destruct (IH s1 Hrun) as (Hnd & Hfresh & Hdom).
    assert (Hh : h ∉ items.*1).
    { intros Hin. specialize (Hfresh h Hin). rewrite Hst in Hfresh.
      rewrite lookup_insert_eq in Hfresh. discriminate. }
    split; [constructor; assumption|]. split.
    + intros h' Hin. apply elem_of_cons in Hin as [->|Hin]; [exact Hl|].
      specialize (Hfresh h' Hin). rewrite Hst in Hfresh.
      destruct (decide (h = h')) as [->|Hne]; [contradiction|].
      rewrite lookup_insert_ne in Hfresh by exact Hne. exact Hfresh.
    + intros h'. rewrite Hdom, Hst, elem_of_cons.
      destruct (decide (h = h')) as [->|Hne].
      * rewrite lookup_insert_eq. split; [intros _; right; left; reflexivity|].
        intros _. left. eauto.
      * rewrite lookup_insert_ne by exact Hne. split.
        -- intros [?|?]; [left | right; right]; assumption.
        -- intros [?|[?|?]]; [left | congruence | right]; assumption.
Qed.

End Targets.

(** * The episode counter across one attempt *)

Lemma sat_mono {S A} (R R' : S → S → Prop) (D : Prop) (m : M S A) :
  (∀ s s', R s s' → R' s s') → sat R D m → sat R' D m.
Proof.
  intros HR Hm s. specialize (Hm s). destruct (m s); auto.
Qed.

Lemma bind_Raise_inv {S A B} (m : M S A) (k : A → M S B) s e s2 :
  (m ≫= k) s = Raise e s2 →
  m s = Raise e s2 ∨ ∃ a s1, m s = Ok a s1 ∧ k a s1 = Raise e s2.
Proof.
  unfold mbind, M_bind. destruct (m s) as [a s1|e1 s1|]; try discriminate.
  - eauto.
  - intros Hr. left. inversion Hr. reflexivity.
Qed.

Section Counter.
Context `{Backend}.
#[local] Existing Instances quiet_refl quiet_trans tracked_refl tracked_trans.

Definition same_counter (s s' : State) : Prop :=
  num_ep_generated s' = num_ep_generated s.

#[local] Instance same_counter_refl : Reflexive same_counter.
Proof. intros s. reflexivity. Qed.

#[local] Instance same_counter_trans : Transitive same_counter.
Proof. intros s1 s2 s3 H1 H2. unfold same_counter in *. congruence. Qed.

Lemma quiet_same_counter s s' : quiet s s' → same_counter s s'.
Proof. intros [Hn _]. exact Hn. Qed.

Lemma tracked_same_counter s s' : tracked s s' → same_counter s s'.
Proof. intros [Hn _]. exact Hn. Qed.

Lemma sample_episode_state_counter : sat same_counter True sample_episode_state.
Proof.
  unfold sample_episode_state.
  sat_step; [eapply sat_mono, reset_samplers_quiet; apply quiet_same_counter|].
  sat_step; [intros s; reflexivity|].
  sat_step; [intros s; reflexivity|].
  sat_step; [eapply sat_mono, generate_scene_quiet; apply quiet_same_counter|].
  sat_step; [eapply sat_mono, sample_ao_states_quiet; apply quiet_same_counter|].
  sat_step; [eapply sat_mono, sample_object_placements_quiet;
             apply quiet_same_counter|].
  sat_step.
Qed.

(** An attempt that returns a record numbered it with the counter and
    advanced the counter by one; an attempt that returns [None] left the
    counter alone. *)
Lemma generate_single_episode_Ok_counter sfuel s r s' :
  generate_single_episode sfuel s = Ok r s' →
  match r with
  | Some ep => episode_id ep = pretty (num_ep_generated s) ∧
               num_ep_generated s' = S (num_ep_generated s)
  | None => num_ep_generated s' = num_ep_generated s
  end.
Proof.
  intros Hg.
  apply generate_single_episode_Ok_inv in Hg
    as (scene & ao_st & s1 & stable & s2 & Hpre & Hsettle & Hg).
  apply sample_episode_state_Ok in Hpre as (Hn1 & _).
  apply (sat_Ok quiet True) in Hsettle as (Hn2 & _);
    [|apply settle_sim_quiet].
  destruct Hg as [(_ & -> & ->)|(_ & s3 & s4 & Ht & Hs & Ha)].
  - simpl. congruence.
  - apply (sat_Ok quiet True) in Ht as (Hn3 & _);
      [|apply get_object_target_samplers_quiet].
    apply (sat_Ok tracked True) in Hs as (Hn4 & _);
      [|apply sample_targets_tracked].
    rewrite assemble_episode_eq in Ha. inversion Ha; subst; clear Ha. simpl.
    replace (num_ep_generated s4) with (num_ep_generated s) by congruence.
    split; [f_equal; lia | lia].
Qed.

(** An attempt that raises left the counter alone. *)
Lemma generate_single_episode_Raise_counter sfuel s e s' :
  generate_single_episode sfuel s = Raise e s' →
  num_ep_generated s' = num_ep_generated s.
Proof.
  unfold generate_single_episode. intros Hg.
  apply bind_Raise_inv in Hg as [Hg|([scene ao_st] & s1 & Hpre & Hg)].
  { exact (sat_Raise same_counter True _ _ _ _ sample_episode_state_counter Hg). }
  apply (sat_Ok same_counter True) in Hpre; [|apply sample_episode_state_counter].
  apply bind_Raise_inv in Hg as [Hg|(stable & s2 & Hsettle & Hg)].
  { apply (sat_Raise quiet True) in Hg as (Hn & _); [|apply settle_sim_quiet].
    unfold same_counter in *. congruence. }
  apply (sat_Ok quiet True) in Hsettle as (Hn2 & _); [|apply settle_sim_quiet].
  destruct stable; simpl in Hg; [|discriminate].
  apply bind_Raise_inv in Hg as [Hg|([] & s3 & Ht & Hg)].
  { apply (sat_Raise quiet True) in Hg as (Hn & _);
      [|apply get_object_target_samplers_quiet].
    unfold same_counter in *. congruence. }
  apply (sat_Ok quiet True) in Ht as (Hn3 & _);
    [|apply get_object_target_samplers_quiet].
  apply bind_Raise_inv in Hg as [Hg|([] & s4 & Hs & Hg)].
  { apply (sat_Raise tracked True) in Hg as (Hn & _);
      [|apply sample_targets_tracked].
    unfold same_counter in *. congruence. }
  rewrite assemble_episode_eq in Hg. discriminate.
Qed.

(** Construction ends by setting the counter to zero. *)
Lemma init_counter (s s' : State) :
  __init__ s = Ok tt s' → num_ep_generated s' = 0.
Proof.
  unfold __init__. intros Hi.
  repeat (apply bind_Ok_inv in Hi as (? & ? & _ & Hi)).
  inversion Hi. reflexivity.
Qed.

End Counter.

(** * The retry loop as a sequence of attempts *)

(** The records among the outcomes of a sequence of attempts, and the number
    of attempts that gave none. *)
Definition accepted (outs : list (option RearrangeEpisode))
  : list RearrangeEpisode := omap id outs.

Fixpoint failures (outs : list (option RearrangeEpisode)) : Z :=
  match outs with
  | [] => 0
  | None :: outs' => failures outs' + 1
  | Some _ :: outs' => failures outs'
  end.

Lemma len_app {A} (l k : list A) : len (l ++ k) = (len l + len k)%Z.
Proof. unfold len. rewrite length_app. lia. Qed.

Lemma len_nonneg {A} (l : list A) : (0 ≤ len l)%Z.
Proof. unfold len. lia. Qed.

Lemma failures_nonneg outs : (0 ≤ failures outs)%Z.
Proof. induction outs as [|[ep|] outs IH]; simpl; lia. Qed.

Section Loop.
Context `{Backend}.

(** [attempts sfuel s outs s']: calling [generate_single_episode] again and
    again from [s] returns the outcomes [outs] in turn and ends in [s']. *)
Inductive attempts (sfuel : nat)
  : State → list (option RearrangeEpisode) → State → Prop :=
| attempts_nil s : attempts sfuel s [] s
| attempts_cons s r s1 rs s2 :
    generate_single_episode sfuel s = Ok r s1 →
    attempts sfuel s1 rs s2 →
    attempts sfuel s (r :: rs) s2.

Lemma generate_episodes_loop_done fuel sfuel n gen f s :
  (n ≤ len gen)%Z →
  generate_episodes_loop fuel sfuel n gen f s = Ok (gen, f) s.
Proof.
  intros Hn. destruct fuel; simpl;
    rewrite bool_decide_eq_false_2 by lia; reflexivity.
Qed.

Lemma generate_episodes_loop_step fuel sfuel n gen f s :
  (len gen < n)%Z →
  generate_episodes_loop (S fuel) sfuel n gen f s =
  (new_episode ← generate_single_episode sfuel;
   match new_episode with
   | None => generate_episodes_loop fuel sfuel n gen (f + 1)
   | Some ep => generate_episodes_loop fuel sfuel n (gen ++ [ep]) f
   end) s.
Proof.
  intros Hn. simpl. rewrite bool_decide_eq_true_2 by lia. reflexivity.
Qed.

(** A loop that returns made finitely many attempts, all of which returned;
    its list is the initial one followed by the records they gave. *)
Lemma generate_episodes_loop_Ok_inv fuel sfuel n gen f s eps f' s' :
  generate_episodes_loop fuel sfuel n gen f s = Ok (eps, f') s' →
  ∃ outs, attempts sfuel s outs s' ∧
          eps = gen ++ accepted outs ∧
          f' = (f + failures outs)%Z ∧
          len eps = Z.max (len gen) n ∧
          (length outs ≤ fuel)%nat.
Proof.
  revert gen f s. induction fuel as [|fuel IH]; intros gen f s Hl.
  - simpl in Hl. destruct (bool_decide (len gen < n)%Z) eqn:Hc; [discriminate|].
    apply bool_decide_eq_false in Hc. inversion Hl; subst.
    exists []. split; [constructor|]. simpl. rewrite app_nil_r.
    repeat split; lia.
  - destruct (decide (len gen < n)%Z) as [Hc|Hc].
    + rewrite generate_episodes_loop_step in Hl by exact Hc.
      apply bind_Ok_inv in Hl as (r & s1 & Hg & Hl).
      destruct r as [ep|];
        apply IH in Hl as (outs & Ha & Heps & -> & Hlen & Hf).
      * exists (Some ep :: outs). split; [econstructor; eauto|].
        split; [rewrite Heps, <- app_assoc; reflexivity|].
        split; [reflexivity|]. split; [|simpl; lia].
        rewrite Hlen, len_app. unfold len at 2. simpl. lia.
      * exists (None :: outs). split; [econstructor; eauto|].
        split; [exact Heps|]. split; [simpl; lia|].
        split; [exact Hlen | simpl; lia].
    + rewrite generate_episodes_loop_done in Hl by lia.
      inversion Hl; subst.
      exists []. split; [constructor|]. simpl. rewrite app_nil_r.
      repeat split; lia.
Qed.

(** Conversely, if the attempts return and the last of them fills the
    list, the loop returns, however many of them failed. *)
Lemma generate_episodes_loop_run fuel sfuel n gen f s pre ep s' :
  attempts sfuel s (pre ++ [Some ep]) s' →
  (len gen + len (accepted pre) + 1 = n)%Z →
  (length pre < fuel)%nat →
  generate_episodes_loop fuel sfuel n gen f s =
  Ok (gen ++ accepted pre ++ [ep], (f + failures pre)%Z) s'.
Proof.
  revert fuel gen f s.
  induction pre as [|r pre IH]; intros fuel gen f s Ha Hn Hf;
    (destruct fuel as [|fuel]; [simpl in Hf; lia|]);
    revert Hn; inversion Ha as [|? ? s1 ? ? Hg Hrest]; subst; clear Ha;
    intros Hn.
  - revert Hn; inversion Hrest; subst; intros Hn.
    rewrite generate_episodes_loop_step
      by (unfold len in *; simpl in *; lia).
    rewrite (bind_Ok _ _ _ _ _ Hg).
    rewrite generate_episodes_loop_done
      by (rewrite len_app; unfold len in *; simpl in *; lia).
    simpl. rewrite Z.add_0_r. reflexivity.
  - pose proof (len_nonneg (accepted pre)) as Hpos.
    rewrite generate_episodes_loop_step
      by (destruct r; unfold len in *; simpl in *; lia).
    rewrite (bind_Ok _ _ _ _ _ Hg).
    simpl in Hf. destruct r as [ep'|]; simpl.
    + rewrite (IH fuel (gen ++ [ep']) f s1 Hrest); [| |lia].
      * rewrite <- app_assoc. reflexivity.
      * rewrite len_app. unfold len in *. simpl in *. lia.
    + rewrite (IH fuel gen (f + 1)%Z s1 Hrest); [|exact Hn|lia].
      f_equal. f_equal. lia.
Qed.

(** Every record of the attempts was numbered with the counter. *)
Lemma attempts_counter sfuel s outs s' :
  attempts sfuel s outs s' →
  num_ep_generated s' = num_ep_generated s + length (accepted outs) ∧
  ∀ i ep, accepted outs !! i = Some ep →
          episode_id ep = pretty (num_ep_generated s + i).
Proof.
  induction 1 as [s|s r s1 rs s2 Hg _ [IHn IHid]].
  - split; [simpl; lia|]. intros i ep Hi. inversion Hi.
  - apply generate_single_episode_Ok_counter in Hg.
    destruct r as [ep0|]; simpl.
    + destruct Hg as [Hid Hn]. split; [lia|].
      intros [|i] ep Hi; simpl in Hi.
      * inversion Hi; subst. rewrite Nat.add_0_r. exact Hid.
      * rewrite (IHid i ep Hi). f_equal. lia.
    + rewrite Hg in *. split; [exact IHn | exact IHid].
Qed.

(** A property of every record an attempt can return holds of every record
    of the attempts. *)
Lemma attempts_Forall (P : RearrangeEpisode → Prop) sfuel s outs s' :
  (∀ s0 ep s1, generate_single_episode sfuel s0 = Ok (Some ep) s1 → P ep) →
  attempts sfuel s outs s' → Forall P (accepted outs).
Proof.
  intros HP. induction 1 as [s|s r s1 rs s2 Hg _ IH]; [constructor|].
  destruct r as [ep|]; simpl; [|exact IH].
  constructor; [eapply HP; exact Hg | exact IH].
Qed.

Lemma generate_episodes_Ok_inv fuel sfuel n s eps s' :
  generate_episodes fuel sfuel n s = Ok eps s' →
  ∃ outs s1, attempts sfuel s outs s1 ∧ eps = accepted outs ∧
             len eps = Z.max 0 n ∧ (length outs ≤ fuel)%nat ∧
             s' = add_event (PrintGenerated n (n + failures outs)) s1.
Proof.
  unfold generate_episodes. intros Hg.
  apply bind_Ok_inv in Hg as ([eps' f'] & s1 & Hl & Hg).
  inversion Hg; subst; clear Hg.
  apply generate_episodes_loop_Ok_inv in Hl as (outs & Ha & -> & -> & Hlen & Hf).
  exists outs, s1. simpl in *. repeat split; auto.
Qed.

End Loop.

(** * The life of a generator instance *)

Section Lifetime.
Context `{Backend}.

(** [lifetime sfuel s eps s']: from [s], calls of [generate_single_episode]
    (that returned a record, returned [None] or raised), interleaved with
    report lines, accepted the records [eps] in this order and left the
    instance in [s']. *)
Inductive lifetime (sfuel : nat)
  : State → list RearrangeEpisode → State → Prop :=
| lifetime_nil s : lifetime sfuel s [] s
| lifetime_accept s ep s1 eps s2 :
    generate_single_episode sfuel s = Ok (Some ep) s1 →
    lifetime sfuel s1 eps s2 →
    lifetime sfuel s (ep :: eps) s2
| lifetime_reject s s1 eps s2 :
    generate_single_episode sfuel s = Ok None s1 →
    lifetime sfuel s1 eps s2 →
    lifetime sfuel s eps s2
| lifetime_raise s e s1 eps s2 :
    generate_single_episode sfuel s = Raise e s1 →
    lifetime sfuel s1 eps s2 →
    lifetime sfuel s eps s2
| lifetime_print s e eps s2 :
    lifetime sfuel (add_event e s) eps s2 →
    lifetime sfuel s eps s2.

Lemma lifetime_counter sfuel s eps s' :
  lifetime sfuel s eps s' →
  num_ep_generated s' = num_ep_generated s + length eps ∧
  ∀ k ep, eps !! k = Some ep →
          episode_id ep = pretty (num_ep_generated s + k).
Proof.
  induction 1 as [s|s ep0 s1 eps s2 Hg _ [IHn IHid]
                  |s s1 eps s2 Hg _ [IHn IHid]
                  |s e s1 eps s2 Hg _ [IHn IHid]
                  |s e eps s2 _ [IHn IHid]].
  - split; [simpl; lia|]. intros k ep Hk. inversion Hk.
  - apply generate_single_episode_Ok_counter in Hg as [Hid Hn].
    split; [simpl; lia|].
    intros [|k] ep Hk; simpl in Hk.
    + inversion Hk; subst. rewrite Nat.add_0_r. exact Hid.
    + rewrite (IHid k ep Hk). f_equal. lia.
  - apply generate_single_episode_Ok_counter in Hg. simpl in Hg.
    rewrite Hg in *. split; assumption.
  - apply generate_single_episode_Raise_counter in Hg.
    rewrite Hg in *. split; assumption.
  - simpl in *. split; assumption.
Qed.

Lemma lifetime_app sfuel s eps1 s1 eps2 s2 :
  lifetime sfuel s eps1 s1 → lifetime sfuel s1 eps2 s2 →
  lifetime sfuel s (eps1 ++ eps2) s2.
Proof.
  induction 1; intros Hrest; simpl;
    [assumption | eapply lifetime_accept | eapply lifetime_reject
     | eapply lifetime_raise | eapply lifetime_print]; eauto.
Qed.

Lemma attempts_lifetime sfuel s outs s' :
  attempts sfuel s outs s' → lifetime sfuel s (accepted outs) s'.
Proof.
  induction 1 as [s|s r s1 rs s2 Hg _ IH]; [constructor|].
  destruct r as [ep|]; simpl.
  - eapply lifetime_accept; eauto.
  - eapply lifetime_reject; eauto.
Qed.

(** A call of [generate_episodes] that returns is such a stretch of life. *)
Lemma generate_episodes_lifetime fuel sfuel n s eps s' :
  generate_episodes fuel sfuel n s = Ok eps s' → lifetime sfuel s eps s'.
Proof.
  intros Hg.
  apply generate_episodes_Ok_inv in Hg as (outs & s1 & Ha & -> & _ & _ & ->).
  rewrite <- (app_nil_r (accepted outs)).
  eapply lifetime_app; [apply attempts_lifetime; exact Ha|].
  apply (lifetime_print _ _ (PrintGenerated n (n + failures outs))).
  constructor.
Qed.

End Lifetime.

(** * The generation loop: count, rejection, numbering, start pose *)

Section GenerationClaims.
Context `{Backend}.

(** C1, amended: whenever [generate_episodes(num_episodes)] returns, the
    returned list holds exactly [max(num_episodes, 0)] episode records
    (records, never [None]): they are the records of the attempts made, in
    order, and the report line counts the attempts that gave none.  The
    number of attempts is not bounded by the code: whenever a sequence of
    attempts returns and its last one yields the [num_episodes]-th record,
    the call returns that list, however many attempts were rejected before.
    A call with [num_episodes <= 0] makes no attempt and returns the empty
    list. *)
Theorem generate_episodes_count fuel sfuel num_episodes s :
  (∀ eps s', generate_episodes fuel sfuel num_episodes s = Ok eps s' →
     len eps = Z.max 0 num_episodes ∧
     ∃ outs s1, attempts sfuel s outs s1 ∧ eps = accepted outs ∧
       s' = add_event (PrintGenerated num_episodes
                         (num_episodes + failures outs)) s1) ∧
  (∀ pre ep s1, attempts sfuel s (pre ++ [Some ep]) s1 →
     (len (accepted pre) + 1 = num_episodes)%Z →
     (length pre < fuel)%nat →
     generate_episodes fuel sfuel num_episodes s =
     Ok (accepted pre ++ [ep])
        (add_event (PrintGenerated num_episodes
                      (num_episodes + failures pre)) s1)) ∧
  ((num_episodes ≤ 0)%Z →
     generate_episodes fuel sfuel num_episodes s =
     Ok [] (add_event (PrintGenerated num_episodes (num_episodes + 0)) s)).
Proof.
  split; [|split].
  - intros eps s' Hg.
    apply generate_episodes_Ok_inv in Hg
      as (outs & s1 & Ha & Heps & Hlen & _ & Hs).
    split; [exact Hlen|]. exists outs, s1. auto.
  - intros pre ep s1 Ha Hn Hf. unfold generate_episodes.
    erewrite bind_Ok;
      [|apply (generate_episodes_loop_run fuel sfuel num_episodes [] 0);
        [exact Ha | unfold len in *; simpl in *; lia | exact Hf]].
    reflexivity.
  - intros Hn. unfold generate_episodes.
    erewrite bind_Ok;
      [|apply generate_episodes_loop_done; unfold len; simpl; lia].
    reflexivity.
Qed.

(** C3: when the stability check of an attempt returns false,
    [generate_single_episode] returns [None] (it does not raise), the
    episode counter is unchanged (no record was assembled), the target
    mapping is empty and no target sampler was called or target object
    removed; and [generate_episodes] goes on to the next attempt with the
    failure count increased by one and the list of episodes unchanged. *)
Theorem unstable_attempt_is_rejected fuel sfuel num_episodes
    generated_episodes failed_episodes s scene ao_st s1 s2 :
  sample_episode_state s = Ok (scene, ao_st) s1 →
  settle_sim sfuel 5 true s1 = Ok false s2 →
  generate_single_episode sfuel s = Ok None (add_event PrintAbortUnstable s2) ∧
  num_ep_generated (add_event PrintAbortUnstable s2) = num_ep_generated s ∧
  sampled_targets (add_event PrintAbortUnstable s2) = ∅ ∧
  (∃ new, events (add_event PrintAbortUnstable s2) = new ++ events s ∧
          Forall (λ e, is_target_event e = false) new) ∧
  ((len generated_episodes < num_episodes)%Z →
   generate_episodes_loop (S fuel) sfuel num_episodes generated_episodes
     failed_episodes s =
   generate_episodes_loop fuel sfuel num_episodes generated_episodes
     (failed_episodes + 1) (add_event PrintAbortUnstable s2)).
Proof.
  intros Hpre Hsettle.
  assert (Hg : generate_single_episode sfuel s =
               Ok None (add_event PrintAbortUnstable s2)).
  { unfold generate_single_episode.
    rewrite (bind_Ok _ _ _ _ _ Hpre). simpl.
    rewrite (bind_Ok _ _ _ _ _ Hsettle). reflexivity. }
  apply sample_episode_state_Ok in Hpre as (Hn1 & Ht1 & new1 & He1 & Hf1).
  apply (sat_Ok quiet True) in Hsettle as (Hn2 & Ht2 & new2 & He2 & Hf2);
    [|apply settle_sim_quiet].
  split; [exact Hg|]. split; [simpl; congruence|].
  split; [simpl; congruence|]. split.
  - exists (PrintAbortUnstable :: new2 ++ new1). split.
    + simpl. rewrite He2, He1, app_assoc. reflexivity.
    + constructor; [reflexivity|]. apply Forall_app; auto.
  - intros Hlt. rewrite generate_episodes_loop_step by exact Hlt.
    rewrite (bind_Ok _ _ _ _ _ Hg). reflexivity.
Qed.

End GenerationClaims.

Section RecordClaims.
Context `{Backend}.

(** C7: a freshly constructed generator has its id counter at 0; an attempt
    that returns a record gives it the decimal string of the counter as
    [episode_id] and advances the counter by exactly one; an attempt that
    returns [None] or raises leaves the counter alone.  Hence over the life
    of an instance the k-th accepted episode (from zero) has
    [episode_id = str(k)], and the counter equals the number of episodes
    accepted so far. *)
Theorem episode_id_is_acceptance_index sfuel :
  (∀ c dbg w s0, RearrangeEpisodeGenerator c dbg w = Ok tt s0 →
     num_ep_generated s0 = 0) ∧
  (∀ s ep s', generate_single_episode sfuel s = Ok (Some ep) s' →
     episode_id ep = pretty (num_ep_generated s) ∧
     num_ep_generated s' = S (num_ep_generated s)) ∧
  (∀ s s', generate_single_episode sfuel s = Ok None s' →
     num_ep_generated s' = num_ep_generated s) ∧
  (∀ s e s', generate_single_episode sfuel s = Raise e s' →
     num_ep_generated s' = num_ep_generated s) ∧
  (∀ c dbg w s0 eps s, RearrangeEpisodeGenerator c dbg w = Ok tt s0 →
     lifetime sfuel s0 eps s →
     num_ep_generated s = length eps ∧
     ∀ k ep, eps !! k = Some ep → episode_id ep = pretty k).
Proof.
  split; [|split; [|split; [|split]]].
  - intros c dbg w s0 Hc. exact (init_counter _ _ Hc).
  - intros s ep s' Hg.
    exact (generate_single_episode_Ok_counter _ _ _ _ Hg).
  - intros s s' Hg.
    exact (generate_single_episode_Ok_counter _ _ _ _ Hg).
  - intros s e s' Hg.
    exact (generate_single_episode_Raise_counter _ _ _ _ Hg).
  - intros c dbg w s0 eps s Hc Hl.
    apply init_counter in Hc.
    apply lifetime_counter in Hl as [Hn Hid]. rewrite Hc in *.
    split; [exact Hn|]. intros k ep Hk. exact (Hid k ep Hk).
Qed.

(** C9: every episode record returned by [generate_single_episode] has the
    zero 3-vector as [start_position] and [0, 0, 0, 1] as [start_rotation],
    whatever was sampled. *)
Theorem start_pose_is_constant sfuel s ep s' :
  generate_single_episode sfuel s = Ok (Some ep) s' →
  start_position ep = [0; 0; 0]%Q ∧ start_rotation ep = [0; 0; 0; 1]%Q.
Proof.
  intros Hg.
  apply generate_single_episode_Ok_inv in Hg
    as (scene & ao_st & s1 & stable & s2 & _ & _ & Hg).
  destruct Hg as [(_ & Hr & _)|(_ & s3 & s4 & _ & _ & Ha)]; [discriminate|].
  rewrite assemble_episode_eq in Ha. inversion Ha; subst. split; reflexivity.
Qed.

(** C6: recording a target for an instance handle that is already a key of
    the episode's sampled-targets mapping raises the duplicate-target
    assertion with the state, mapping included, exactly as it was; the
    error aborts the attempt.  So the items of one target sampler that
    were all recorded had pairwise distinct handles, none of them present
    before, and the [targets] of a returned record holds one entry for each
    target object recorded (and removed) during the attempt: no entry was
    overwritten. *)
Theorem duplicate_target_is_rejected sfuel :
  (∀ instance_handle target_object s,
     is_Some (sampled_targets s !! instance_handle) →
     record_target instance_handle target_object s =
     Raise (AssertionError ("Duplicate target for instance '"
                              +:+ instance_handle +:+ "'.")) s) ∧
  (∀ items s s',
     for_each items (λ '(instance_handle, target_object),
       record_target instance_handle target_object) s = Ok tt s' →
     NoDup items.*1 ∧
     ∀ h, h ∈ items.*1 → sampled_targets s !! h = None) ∧
  (∀ s scene ao_st s1 s2 s3 e s4,
     sample_episode_state s = Ok (scene, ao_st) s1 →
     settle_sim sfuel 5 true s1 = Ok true s2 →
     _get_object_target_samplers s2 = Ok tt s3 →
     sample_targets s3 = Raise e s4 →
     generate_single_episode sfuel s = Raise e s4) ∧
  (∀ s ep s', generate_single_episode sfuel s = Ok (Some ep) s' →
     size (targets ep) + count_removals (events s) =
     count_removals (events s')).
Proof.
  split; [|split; [|split]].
  - intros h o s Hdup. exact (record_target_duplicate h o s Hdup).
  - intros items s s' Hrun.
    destruct (record_targets_NoDup items s s' Hrun) as (Hnd & Hfresh & _).
    split; assumption.
  - intros s scene ao_st s1 s2 s3 e s4 Hpre Hsettle Ht Hs.
    unfold generate_single_episode.
    rewrite (bind_Ok _ _ _ _ _ Hpre). simpl.
    rewrite (bind_Ok _ _ _ _ _ Hsettle). simpl.
    rewrite (bind_Ok _ _ _ _ _ Ht).
    rewrite (bind_Raise _ _ _ _ _ Hs). reflexivity.
  - intros s ep s' Hg.
    apply generate_single_episode_Ok_inv in Hg
      as (scene & ao_st & s1 & stable & s2 & Hpre & Hsettle & Hg).
    destruct Hg as [(_ & Hr & _)|(_ & s3 & s4 & Ht & Hs & Ha)];
      [discriminate|].
    apply sample_episode_state_Ok in Hpre as (_ & Ht1 & new1 & He1 & Hf1).
    apply (sat_Ok quiet True) in Hsettle as (_ & Ht2 & new2 & He2 & Hf2);
      [|apply settle_sim_quiet].
    apply (sat_Ok quiet True) in Ht as (_ & Ht3 & new3 & He3 & Hf3);
      [|apply get_object_target_samplers_quiet].
    apply (sat_Ok tracked True) in Hs as (_ & Hc); [|apply sample_targets_tracked].
    rewrite assemble_episode_eq in Ha. inversion Ha; subst; clear Ha. simpl.
    rewrite Ht3, Ht2, Ht1, map_size_empty in Hc.
    rewrite He3, He2, He1 in Hc.
    rewrite !count_removals_quiet in Hc by assumption. lia.
Qed.

End RecordClaims.

(** * The stability validator *)

Lemma Qgtb_true (x y : Q) : Qgtb x y = true ↔ (y < x)%Q.
Proof.
  unfold Qgtb. rewrite Qgt_alt. destruct (x ?= y)%Q; split; congruence.
Qed.

Lemma Qgtb_false (x y : Q) : Qgtb x y = false ↔ (x <= y)%Q.
Proof.
  unfold Qgtb. rewrite Qle_alt. destruct (x ?= y)%Q; split; congruence.
Qed.

Lemma Qltb_false (x y : Q) : Qltb x y = false ↔ (y <= x)%Q.
Proof.
  unfold Qltb. rewrite Qle_alt, <- (Qcompare_antisym x y).
  destruct (x ?= y)%Q; simpl; split; congruence.
Qed.

Lemma inject_Z_len_nonzero {A} (l : list A) :
  l ≠ [] → Qeq_bool (inject_Z (len l)) 0 = false.
Proof.
  intros Hl. destruct l as [|x l]; [contradiction|].
  apply not_true_is_false. intros Heq. apply Qeq_bool_iff in Heq.
  unfold Qeq, len in Heq. simpl in Heq. lia.
Qed.

Section Settle.
Context `{Backend}.

(** How far an object is in [w1] from where it was in [w0]. *)
Definition displacement (w0 w1 : World) (o : RigidObject) : Q :=
  Vector3_length (Vector3_sub (translation (handle o) w0)
                              (translation (handle o) w1)).

Definition is_unstable (w0 w1 : World) (o : RigidObject) : bool :=
  Qgtb (displacement w0 w1 o) error_eps.

(** The first loop records, for every handle, the position at call time;
    it reads the world and changes nothing. *)
Lemma record_spawn_positions_Ok (objs : list RigidObject) (s : State) :
  ∃ spawn_positions new_obj_centroid,
    record_spawn_positions objs s = Ok (spawn_positions, new_obj_centroid) s ∧
    ∀ o, o ∈ objs →
         spawn_positions !! handle o = Some (translation (handle o) (world s)).
Proof.
  unfold record_spawn_positions.
  generalize (∅ : gmap string Vector3) as m0. generalize Vector3_zero as c0.
  assert (Hgen : ∀ objs c0 (m0 : gmap string Vector3), ∃ m c,
    fold_loop (λ '(spawn_positions, new_obj_centroid) new_object,
      t ← sim_get (translation (handle new_object));
      mret (<[handle new_object := t]> spawn_positions,
            Vector3_add new_obj_centroid t)) objs (m0, c0) s = Ok (m, c) s ∧
    (∀ o, o ∈ objs → m !! handle o = Some (translation (handle o) (world s))) ∧
    (∀ h, m0 !! h = Some (translation h (world s)) →
          m !! h = Some (translation h (world s)))).
  { clear objs. induction objs as [|x objs IH]; intros c0 m0.
    - exists m0, c0. split; [reflexivity|]. split; [|auto].
      intros o Ho. inversion Ho.
    - simpl.
      destruct (IH (Vector3_add c0 (translation (handle x) (world s)))
                   (<[handle x := translation (handle x) (world s)]> m0))
        as (m & c & Hrun & Hin & Hkeep).
      exists m, c. split; [exact Hrun|]. split.
      + intros o Ho. apply elem_of_cons in Ho as [->|Ho]; [|auto].
        apply Hkeep. apply lookup_insert_eq.
      + intros h Hh. apply Hkeep.
        destruct (decide (handle x = h)) as [<-|Hne].
        * apply lookup_insert_eq.
        * rewrite lookup_insert_ne by exact Hne. exact Hh. }
  intros c0 m0. destruct (Hgen objs c0 m0) as (m & c & Hrun & Hin & _).
  exists m, c. split; assumption.
Qed.

(** The settle loop never raises, and it ends only once the world time has
    reached the duration. *)
Lemma settle_loop_spec (fuel : nat) (duration : Q) (s : State) :
  match settle_loop fuel duration s with
  | Ok _ s' => (duration <= get_world_time (world s'))%Q
  | Raise _ _ => False
  | OutOfFuel => True
  end.
Proof.
  unfold settle_loop. revert s. induction fuel as [|fuel IH]; intros s.
  - simpl. unfold mbind, M_bind, sim_get, gets. simpl.
    destruct (Qltb (get_world_time (world s)) duration) eqn:Hc; simpl;
      [exact I|]. apply Qltb_false. exact Hc.
  - simpl. unfold mbind at 1, M_bind at 1. unfold mbind at 1, M_bind at 1.
    unfold sim_get at 1, gets at 1. simpl.
    destruct (Qltb (get_world_time (world s)) duration) eqn:Hc; simpl;
      [|apply Qltb_false; exact Hc].
    match goal with
    | |- context [while_loop fuel ?c ?b] =>
        set (loop := while_loop fuel c b) in *
    end.
    unfold mbind, M_bind, emit, sim_do, modify, gets, when, vdb, sim_do,
      modify; simpl.
    destruct (_render_debug_obs s); simpl; apply IH.
Qed.

End Settle.

Lemma filter_nil_Forall {A} (f : A → bool) (l : list A) :
  List.filter f l = [] ↔ Forall (λ x, f x = false) l.
Proof.
  induction l as [|x l IH]; simpl.
  - split; [constructor | reflexivity].
  - destruct (f x) eqn:Hx; split.
    + discriminate.
    + intros Hall. inversion Hall; congruence.
    + intros Hnil. constructor; [exact Hx | apply IH; exact Hnil].
    + intros Hall. inversion Hall; subst. apply IH. assumption.
Qed.

Section SettleRun.
Context `{Backend}.

(** The second loop: with every handle recorded, it raises nothing, leaves
    the world alone and collects the handles of the unstable objects in
    order. *)
Lemma check_stability_Ok (spawn_positions : gmap string Vector3) (w0 : World)
    (objs : list RigidObject) (s : State) :
  (∀ o, o ∈ objs →
        spawn_positions !! handle o = Some (translation (handle o) w0)) →
  ∃ m s', check_stability spawn_positions objs s =
            Ok (m, map handle (List.filter (is_unstable w0 (world s)) objs)) s' ∧
          world s' = world s ∧
          _render_debug_obs s' = _render_debug_obs s ∧
          ∃ new, events s' = new ++ events s.
Proof.
  unfold check_stability. intros Hspawn.
  assert (Hgen : ∀ objs m0 u0 s,
    (∀ o, o ∈ objs →
          spawn_positions !! handle o = Some (translation (handle o) w0)) →
    ∃ m s', fold_loop (λ '(max_settle_displacement, unstable_placements) new_object,
      match spawn_positions !! handle new_object with
      | None => raise (KeyError (handle new_object))
      | Some spawn =>
          t ← sim_get (translation (handle new_object));
          let error := Vector3_length (Vector3_sub spawn t) in
          let max_settle_displacement := py_max max_settle_displacement error in
          if Qgtb error error_eps then
            emit (PrintUnstable (handle new_object) error);;
            mret (max_settle_displacement,
                  unstable_placements ++ [handle new_object])
          else mret (max_settle_displacement, unstable_placements)
      end) objs (m0, u0) s =
      Ok (m, u0 ++ map handle (List.filter (is_unstable w0 (world s)) objs)) s' ∧
      world s' = world s ∧ _render_debug_obs s' = _render_debug_obs s ∧
      ∃ new, events s' = new ++ events s).
  { clear. induction objs as [|x objs IH]; intros m0 u0 s Hspawn.
    - exists m0, s. simpl. rewrite app_nil_r.
      repeat split. exists []. reflexivity.
    - simpl. rewrite (Hspawn x) by (left).
      unfold mbind at 1, M_bind at 1. unfold mbind at 1, M_bind at 1.
      unfold sim_get at 1, gets at 1.
      fold (displacement w0 (world s) x). fold (is_unstable w0 (world s) x).
      destruct (is_unstable w0 (world s) x) eqn:Hu.
      + unfold mbind at 1, M_bind at 1, emit at 1, modify at 1. simpl mret.
        unfold mret at 1, M_ret at 1.
        destruct (IH (py_max m0 (displacement w0 (world s) x))
                     (u0 ++ [handle x])
                     (add_event (PrintUnstable (handle x)
                                   (displacement w0 (world s) x)) s))
          as (m & s' & Hrun & Hw & Hd & new & He).
        { intros o Ho. apply Hspawn. right. exact Ho. }
        exists m, s'. split.
        * etrans; [exact Hrun|]. simpl. rewrite <- app_assoc. reflexivity.
        * split; [exact Hw|]. split; [exact Hd|].
          exists (new ++ [PrintUnstable (handle x)
                            (displacement w0 (world s) x)]).
          rewrite He, <- app_assoc. reflexivity.
      + unfold mret at 1, M_ret at 1.
        destruct (IH (py_max m0 (displacement w0 (world s) x)) u0 s)
          as (m & s' & Hrun & Hrest).
        { intros o Ho. apply Hspawn. right. exact Ho. }
        exists m, s'. split; [exact Hrun | exact Hrest]. }
  destruct (Hgen objs 0%Q [] s Hspawn) as (m & s' & Hrun & Hrest).
  exists m, s'. split; [exact Hrun | exact Hrest].
Qed.

End SettleRun.

Section SettleSim.
Context `{Backend}.

(** The state in which the settle loop starts: with debug rendering on, the
    visualizer has looked at the centroid [c] of the objects. *)
Definition before_settle (c : Vector3) (s : State) : State :=
  if _render_debug_obs s
  then set_world (vdb_call (LookAtAndObserve c) (world s)) s
  else s.

(** The handles [settle_sim] reports as unstable, given the world at call
    time and the settled world. *)
Definition unstable_handles (w0 w1 : World) (objs : list RigidObject)
  : list string :=
  map handle (List.filter (is_unstable w0 w1) objs).

(** [settle_sim] on a non-empty object list: it raises nothing; it returns
    exactly when its settle loop does, and its verdict is that no handle is
    unstable. *)
Lemma settle_sim_run fuel duration make_video s :
  ep_sampled_objects s ≠ [] →
  ∃ c, match settle_loop fuel duration (before_settle c s) with
       | Ok _ sb =>
           let u := unstable_handles (world s) (world sb)
                      (ep_sampled_objects s) in
           ∃ m ratio evs s',
             settle_sim fuel duration make_video s =
               Ok (bool_decide (len u = 0)%Z) s' ∧
             events s' =
               PrintMaxDisplacement m ::
               PrintStabilityReport (len u) (len (ep_sampled_objects s))
                 ratio u :: evs
       | Raise _ _ => False
       | OutOfFuel => settle_sim fuel duration make_video s = OutOfFuel
       end.
Proof.
  intros Hne. unfold settle_sim.
  erewrite bind_Ok; [|reflexivity].
  erewrite bind_Ok;
    [|rewrite bool_decide_eq_true_2; [reflexivity|]].
  2: { destruct (ep_sampled_objects s); [contradiction|].
       unfold len. simpl. lia. }
  destruct (record_spawn_positions_Ok (ep_sampled_objects s) s)
    as (spawn & c0 & Hspawn & Hlook).
  erewrite bind_Ok; [|exact Hspawn]. cbv beta iota.
  unfold Vector3_div. rewrite inject_Z_len_nonzero by exact Hne.
  erewrite bind_Ok; [|reflexivity].
  erewrite bind_Ok; [|reflexivity].
  match goal with
  | |- context [LookAtAndObserve ?c] => exists c; set (cen := c)
  end.
  assert (Hwhen : when (_render_debug_obs s) (vdb (LookAtAndObserve cen)) s =
                  Ok tt (before_settle cen s)).
  { unfold before_settle. destruct (_render_debug_obs s); reflexivity. }
  rewrite !(bind_Ok _ _ _ _ _ Hwhen).
  pose proof (settle_loop_spec fuel duration (before_settle cen s)) as Hloop.
  destruct (settle_loop fuel duration (before_settle cen s))
    as [[] sb|e sb|] eqn:Hl; [|contradiction|].
  - rewrite (bind_Ok _ _ _ _ _ Hl).
    destruct (check_stability_Ok spawn (world s) (ep_sampled_objects s) sb
                Hlook) as (m & sc & Hcs & Hw & Hd & new & He).
    rewrite (bind_Ok _ _ _ _ _ Hcs). cbv beta iota zeta.
    unfold py_div. rewrite inject_Z_len_nonzero by exact Hne.
    erewrite bind_Ok; [|reflexivity].
    erewrite bind_Ok; [|reflexivity].
    erewrite bind_Ok; [|reflexivity].
    unfold unstable_handles.
    destruct (_render_debug_obs s && make_video);
      eexists _, _, _, _; (split; [reflexivity|]); simpl; reflexivity.
  - unfold mbind, M_bind. rewrite Hl. reflexivity.
Qed.

End SettleSim.

Section SettleClaims.
Context `{Backend}.

(** C2: for a call of [settle_sim] over a non-empty list of episode-sampled
    objects, the call returns exactly when its settle loop does; the world
    has then been stepped to the duration, and the returned boolean is true
    if and only if every object's displacement (the length of the
    difference between its position at call time and its position in the
    settled world) is at most [error_eps = 0.1].  An object is reported
    unstable exactly when its displacement is strictly greater than 0.1. *)
Theorem settle_sim_verdict fuel duration make_video s :
  ep_sampled_objects s ≠ [] →
  ∃ c,
    (∀ b s', settle_sim fuel duration make_video s = Ok b s' →
       ∃ sb, settle_loop fuel duration (before_settle c s) = Ok tt sb) ∧
    (∀ sb, settle_loop fuel duration (before_settle c s) = Ok tt sb →
       (duration <= get_world_time (world sb))%Q ∧
       ∃ b s', settle_sim fuel duration make_video s = Ok b s' ∧
         (b = true ↔
          Forall (λ o, (displacement (world s) (world sb) o <= 1 # 10)%Q)
                 (ep_sampled_objects s)) ∧
         (∀ o, is_unstable (world s) (world sb) o = true ↔
               (1 # 10 < displacement (world s) (world sb) o)%Q) ∧
         ∃ m ratio evs,
           events s' =
           PrintMaxDisplacement m ::
           PrintStabilityReport
             (len (unstable_handles (world s) (world sb)
                     (ep_sampled_objects s)))
             (len (ep_sampled_objects s)) ratio
             (unstable_handles (world s) (world sb) (ep_sampled_objects s))
             :: evs).
Proof.
  intros Hne.
  destruct (settle_sim_run fuel duration make_video s Hne) as (c & Hrun).
  exists c.
  pose proof (settle_loop_spec fuel duration (before_settle c s)) as Hloop.
  destruct (settle_loop fuel duration (before_settle c s))
    as [[] sb|e sb|]; [|contradiction|].
  - destruct Hrun as (m & ratio & evs & s' & Hs & He). split.
    + intros _ _ _. exists sb. reflexivity.
    + intros sb' Hsb. inversion Hsb; subst sb'. split; [exact Hloop|].
      eexists _, s'. split; [exact Hs|]. split; [|split].
      * rewrite bool_decide_eq_true. unfold unstable_handles, len.
        rewrite length_map.
        set (l := List.filter (is_unstable (world s) (world sb))
                    (ep_sampled_objects s)).
        assert (Hl : Z.of_nat (length l) = 0%Z ↔ l = []).
        { destruct l; simpl; split;
            first [discriminate | lia | reflexivity]. }
        rewrite Hl. unfold l. rewrite filter_nil_Forall.
        apply Forall_iff. intros o. unfold is_unstable. apply Qgtb_false.
      * intros o. unfold is_unstable. apply Qgtb_true.
      * exists m, ratio, evs. exact He.
  - split.
    + intros b s' Hs. rewrite Hrun in Hs. discriminate.
    + intros sb Hsb. discriminate.
Qed.

(** C10: [settle_sim] on an empty list of episode-sampled objects raises
    the assertion error of its first line, with the state untouched, and
    the error aborts the attempt (it is not turned into a rejection).  On a
    non-empty list it raises nothing: both divisions by the object count
    have a non-zero divisor. *)
Theorem settle_sim_needs_objects fuel duration make_video s :
  (ep_sampled_objects s = [] →
   settle_sim fuel duration make_video s = Raise (AssertionError EmptyString) s ∧
   ∀ s0 r, sample_episode_state s0 = Ok r s →
           generate_single_episode fuel s0 =
           Raise (AssertionError EmptyString) s) ∧
  (ep_sampled_objects s ≠ [] →
   (∀ e s', settle_sim fuel duration make_video s ≠ Raise e s') ∧
   (∀ (v : Vector3) (s0 : State),
      Vector3_div v (inject_Z (len (ep_sampled_objects s))) s0 ≠
      Raise ZeroDivisionError s0) ∧
   (∀ (k : Z) (s0 : State),
      py_div (inject_Z k) (inject_Z (len (ep_sampled_objects s))) s0 ≠
      Raise ZeroDivisionError s0)).
Proof.
  split.
  - intros Hnil.
    assert (Hraise : ∀ f d mv,
      settle_sim f d mv s = Raise (AssertionError EmptyString) s).
    { intros f d mv. unfold settle_sim.
      erewrite bind_Ok; [|reflexivity]. rewrite Hnil. reflexivity. }
    split; [apply Hraise|].
    intros s0 [scene ao_st] Hpre. unfold generate_single_episode.
    rewrite (bind_Ok _ _ _ _ _ Hpre). simpl.
    rewrite (bind_Raise _ _ _ _ _ (Hraise fuel 5%Q true)). reflexivity.
  - intros Hne. split; [|split].
    + intros e s' Hs.
      destruct (settle_sim_run fuel duration make_video s Hne) as (c & Hrun).
      destruct (settle_loop fuel duration (before_settle c s))
        as [[] sb|e' sb|]; [|contradiction|].
      * destruct Hrun as (m & ratio & evs & s'' & Hs' & _).
        rewrite Hs in Hs'. discriminate.
      * rewrite Hs in Hrun. discriminate.
    + intros v s0. unfold Vector3_div.
      rewrite inject_Z_len_nonzero by exact Hne. discriminate.
    + intros k s0. unfold py_div.
      rewrite inject_Z_len_nonzero by exact Hne. discriminate.
Qed.

End SettleClaims.

(** * Articulated-object states *)

(** The joint state recorded for a link of an instance, if any. *)
Definition ao_lookup (m : gmap ao_instance (gmap nat Q))
    (inst : ao_instance) (link_ix : nat) : option Q :=
  m !! inst ≫= λ links, links !! link_ix.

(** What the samplers returned, as single writes in the order in which
    the loops perform them. *)
Definition assignments (states : list (ao_instance * list (nat * Q)))
  : list (ao_instance * nat * Q) :=
  flat_map (λ '(inst, links), map (λ '(link_ix, v), (inst, link_ix, v)) links)
           states.

(** The value a link holds after a list of writes. *)
Definition last_write (prev : option Q) (l : list (ao_instance * nat * Q))
    (inst : ao_instance) (link_ix : nat) : option Q :=
  foldl (λ cur '(i, k, v),
           if decide (i = inst ∧ k = link_ix) then Some v else cur) prev l.

Definition writes_to (inst : ao_instance) (link_ix : nat)
    (a : ao_instance * nat * Q) : Prop :=
  a.1.1 = inst ∧ a.1.2 = link_ix.

Lemma last_write_app prev l1 l2 inst link_ix :
  last_write prev (l1 ++ l2) inst link_ix =
  last_write (last_write prev l1 inst link_ix) l2 inst link_ix.
Proof. unfold last_write. apply foldl_app. Qed.

Lemma last_write_none prev l inst link_ix :
  Forall (λ a, ¬ writes_to inst link_ix a) l →
  last_write prev l inst link_ix = prev.
Proof.
  unfold last_write. intros Hl. revert prev.
  induction Hl as [|[[i k] v] l Ha _ IH]; intros prev; simpl; [reflexivity|].
  rewrite IH. destruct (decide (i = inst ∧ k = link_ix)) as [Hik|];
    [|reflexivity].
  exfalso. apply Ha. exact Hik.
Qed.

Lemma last_write_last prev l1 l2 inst link_ix v :
  Forall (λ a, ¬ writes_to inst link_ix a) l2 →
  last_write prev (l1 ++ (inst, link_ix, v) :: l2) inst link_ix = Some v.
Proof.
  intros Hl2. rewrite last_write_app.
  change ((inst, link_ix, v) :: l2) with ([(inst, link_ix, v)] ++ l2).
  rewrite last_write_app, last_write_none by exact Hl2.
  unfold last_write. simpl. rewrite decide_True by auto. reflexivity.
Qed.

Lemma ao_lookup_fresh m i inst link_ix :
  m !! i = None → ao_lookup (<[i := ∅]> m) inst link_ix = ao_lookup m inst link_ix.
Proof.
  intros Hi. unfold ao_lookup. destruct (decide (i = inst)) as [->|Hne].
  - rewrite lookup_insert_eq, Hi. simpl. apply lookup_empty.
  - rewrite lookup_insert_ne by exact Hne. reflexivity.
Qed.

Lemma ao_lookup_alter m i k v inst link_ix :
  is_Some (m !! i) →
  ao_lookup (alter (<[k := v]>) i m) inst link_ix =
  if decide (i = inst ∧ k = link_ix) then Some v else ao_lookup m inst link_ix.
Proof.
  intros [per Hper]. unfold ao_lookup.
  destruct (decide (i = inst)) as [->|Hne].
  - rewrite lookup_alter_eq, Hper. simpl.
    destruct (decide (k = link_ix)) as [->|Hk].
    + rewrite decide_True by auto. apply lookup_insert_eq.
    + rewrite decide_False by (intros [_ ?]; contradiction).
      apply lookup_insert_ne. exact Hk.
  - rewrite lookup_alter_ne by exact Hne.
    rewrite decide_False by (intros [? _]; contradiction). reflexivity.
Qed.

Lemma merge_link_states_lookup m i links inst link_ix :
  ao_lookup (merge_link_states m i links) inst link_ix =
  last_write (ao_lookup m inst link_ix)
             (map (λ '(k, v), (i, k, v)) links) inst link_ix.
Proof.
  unfold merge_link_states.
  assert (Hgen : ∀ links m0, is_Some (m0 !! i) →
    ao_lookup (foldl (λ acc '(link_ix, joint_state),
                        alter (<[link_ix := joint_state]>) i acc) m0 links)
              inst link_ix =
    last_write (ao_lookup m0 inst link_ix)
               (map (λ '(k, v), (i, k, v)) links) inst link_ix).
  { clear. induction links as [|[k v] links IH]; intros m0 Hm0;
      [reflexivity|].
    simpl. rewrite IH.
    - rewrite ao_lookup_alter by exact Hm0. reflexivity.
    - rewrite lookup_alter_eq. destruct Hm0 as [per ->]. simpl. eauto. }
  destruct (m !! i) as [per|] eqn:Hi.
  - apply Hgen. rewrite Hi. eauto.
  - rewrite Hgen by (rewrite lookup_insert_eq; eauto).
    rewrite ao_lookup_fresh by exact Hi. reflexivity.
Qed.

Lemma merge_sampler_states_lookup m states inst link_ix :
  ao_lookup (merge_sampler_states m states) inst link_ix =
  last_write (ao_lookup m inst link_ix) (assignments states) inst link_ix.
Proof.
  unfold merge_sampler_states, assignments. revert m.
  induction states as [|[i links] states IH]; intros m; [reflexivity|].
  simpl. rewrite IH, merge_link_states_lookup, last_write_app. reflexivity.
Qed.

Lemma assignments_app states1 states2 :
  assignments (states1 ++ states2) = assignments states1 ++ assignments states2.
Proof. unfold assignments. apply flat_map_app. Qed.

Section AOSampling.
Context `{Backend}.

(** [ao_results samplers s results s']: called in turn from [s], every
    sampler of [samplers] succeeded; [results] are the states they
    returned. *)
Inductive ao_results
  : list (string * AOStateSampler) → State →
    list (list (ao_instance * list (nat * Q))) → State → Prop :=
| ao_results_nil s : ao_results [] s [] s
| ao_results_cons name smp rest s states w results s' :
    ao_sampler_sample smp (world s) = (Some states, w) →
    ao_results rest (set_world w (add_event (CallAOSampler name) s))
      results s' →
    ao_results ((name, smp) :: rest) s (states :: results) s'.

Lemma sample_ao_states_from_cons name smp rest acc s :
  sample_ao_states_from ((name, smp) :: rest) acc s =
  match ao_sampler_sample smp (world s) with
  | (Some states, w) =>
      sample_ao_states_from rest (merge_sampler_states acc states)
        (set_world w (add_event (CallAOSampler name) s))
  | (None, w) =>
      Raise (AssertionError ("AO sampler '" +:+ name +:+ "' failed"))
            (set_world w (add_event (CallAOSampler name) s))
  end.
Proof.
  unfold sample_ao_states_from. simpl.
  unfold mbind at 1, M_bind at 1. unfold mbind at 1, M_bind at 1.
  unfold emit at 1, modify at 1.
  unfold mbind at 1, M_bind at 1, sim_call at 1. simpl world.
  destruct (ao_sampler_sample smp (world s)) as [[states|] w]; reflexivity.
Qed.

Lemma sample_ao_states_from_Ok samplers acc s m s' :
  sample_ao_states_from samplers acc s = Ok m s' →
  ∃ results, ao_results samplers s results s' ∧
             m = foldl merge_sampler_states acc results.
Proof.
  revert acc s. induction samplers as [|[name smp] rest IH]; intros acc s Hrun.
  - inversion Hrun; subst. exists []. split; [constructor | reflexivity].
  - rewrite sample_ao_states_from_cons in Hrun.
    destruct (ao_sampler_sample smp (world s)) as [[states|] w] eqn:Hs;
      [|discriminate].
    apply IH in Hrun as (results & Hres & ->).
    exists (states :: results). split; [|reflexivity].
    econstructor; eauto.
Qed.

Lemma sample_ao_states_from_run samplers acc s results s' :
  ao_results samplers s results s' →
  sample_ao_states_from samplers acc s =
  Ok (foldl merge_sampler_states acc results) s'.
Proof.
  intros Hres. revert acc.
  induction Hres as [s|name smp rest s states w results s' Hs _ IH];
    intros acc; [reflexivity|].
  rewrite sample_ao_states_from_cons, Hs. apply IH.
Qed.

(** The first sampler that returns [None] ends the loop with the
    assertion error that names it. *)
Lemma sample_ao_states_from_fail pre name smp rest acc s results s1 w :
  ao_results pre s results s1 →
  ao_sampler_sample smp (world s1) = (None, w) →
  sample_ao_states_from (pre ++ (name, smp) :: rest) acc s =
  Raise (AssertionError ("AO sampler '" +:+ name +:+ "' failed"))
        (set_world w (add_event (CallAOSampler name) s1)).
Proof.
  intros Hres Hnone. revert acc.
  induction Hres as [s|name' smp' rest' s states w' results s' Hs _ IH];
    intros acc; simpl.
  - rewrite sample_ao_states_from_cons, Hnone. reflexivity.
  - rewrite sample_ao_states_from_cons, Hs. apply IH. exact Hnone.
Qed.

Lemma merged_results_lookup acc results inst link_ix :
  ao_lookup (foldl merge_sampler_states acc results) inst link_ix =
  last_write (ao_lookup acc inst link_ix) (assignments (concat results))
             inst link_ix.
Proof.
  revert acc. induction results as [|states results IH]; intros acc;
    [reflexivity|].
  simpl. rewrite IH, merge_sampler_states_lookup, assignments_app,
    last_write_app. reflexivity.
Qed.

(** C8: the [ao_states] built from the samplers' results hold, for every
    instance and link index, the value of the last write to that link in
    iteration order: a later sampler's value for the same instance and link
    replaces an earlier one, writes to other links of the instance stay in
    the same per-instance mapping, and a link no sampler wrote keeps what
    it had (nothing, for the empty mapping an episode starts from).  The
    loop returns whenever every sampler succeeds. *)
Theorem ao_states_last_sampler_wins samplers acc s :
  (∀ m s', sample_ao_states_from samplers acc s = Ok m s' →
     ∃ results, ao_results samplers s results s' ∧
       (∀ inst link_ix l1 v l2,
          assignments (concat results) = l1 ++ (inst, link_ix, v) :: l2 →
          Forall (λ a, ¬ writes_to inst link_ix a) l2 →
          ao_lookup m inst link_ix = Some v) ∧
       (∀ inst link_ix,
          Forall (λ a, ¬ writes_to inst link_ix a)
                 (assignments (concat results)) →
          ao_lookup m inst link_ix = ao_lookup acc inst link_ix)) ∧
  (∀ results s', ao_results samplers s results s' →
     sample_ao_states_from samplers acc s =
     Ok (foldl merge_sampler_states acc results) s').
Proof.
  split.
  - intros m s' Hrun.
    apply sample_ao_states_from_Ok in Hrun as (results & Hres & ->).
    exists results. split; [exact Hres|]. split.
    + intros inst link_ix l1 v l2 Hl Hl2.
      rewrite merged_results_lookup, Hl. apply last_write_last. exact Hl2.
    + intros inst link_ix Hnone.
      rewrite merged_results_lookup. apply last_write_none. exact Hnone.
  - intros results s' Hres. apply sample_ao_states_from_run. exact Hres.
Qed.

End AOSampling.

Section AOFailure.
Context `{Backend}.

(** C4, amended: when an articulated-object state sampler returns [None]
    at its turn in an attempt, [generate_single_episode] raises
    [AssertionError("AO sampler '<name>' failed")]; the retry loop has no
    handler, so [generate_episodes] raises the same error at that attempt:
    nothing is retried, no list is returned, and the episode counter is
    where it was. *)
Theorem ao_sampler_failure_escapes fuel sfuel num_episodes generated_episodes
    failed_episodes s sa scene sc pre name smp rest results s1 w :
  _reset_samplers s = Ok tt sa →
  generate_scene (set_sampled_targets ∅ (set_sampled_objects ∅ sa)) =
    Ok scene sc →
  _ao_state_samplers sc = pre ++ (name, smp) :: rest →
  ao_results pre sc results s1 →
  ao_sampler_sample smp (world s1) = (None, w) →
  let e := AssertionError ("AO sampler '" +:+ name +:+ "' failed") in
  let s2 := set_world w (add_event (CallAOSampler name) s1) in
  generate_single_episode sfuel s = Raise e s2 ∧
  num_ep_generated s2 = num_ep_generated s ∧
  ((len generated_episodes < num_episodes)%Z →
   generate_episodes_loop (S fuel) sfuel num_episodes generated_episodes
     failed_episodes s = Raise e s2) ∧
  ((0 < num_episodes)%Z →
   generate_episodes (S fuel) sfuel num_episodes s = Raise e s2).
Proof.
  intros Hreset Hscene Hsamplers Hres Hnone e s2.
  assert (Hg : generate_single_episode sfuel s = Raise e s2).
  { unfold generate_single_episode. apply bind_Raise.
    unfold sample_episode_state.
    rewrite (bind_Ok _ _ _ _ _ Hreset).
    erewrite bind_Ok; [|reflexivity].
    erewrite bind_Ok; [|reflexivity].
    rewrite (bind_Ok _ _ _ _ _ Hscene).
    apply bind_Raise. unfold sample_ao_states.
    erewrite bind_Ok; [|reflexivity].
    rewrite Hsamplers.
    eapply sample_ao_states_from_fail; eassumption. }
  assert (Hloop : ∀ gen f, (len gen < num_episodes)%Z →
    generate_episodes_loop (S fuel) sfuel num_episodes gen f s = Raise e s2).
  { intros gen f Hlt. rewrite generate_episodes_loop_step by exact Hlt.
    apply bind_Raise. exact Hg. }
  split; [exact Hg|]. split; [|split].
  - exact (generate_single_episode_Raise_counter _ _ _ _ Hg).
  - apply Hloop.
  - intros Hn. unfold generate_episodes. apply bind_Raise. apply Hloop.
    unfold len. simpl. lia.
Qed.

End AOFailure.

(** * Configuration errors *)

Lemma dict_set_keys {V} (d : list (string * V)) (k : string) (v : V) :
  k ∉ d.*1 → (dict_set d k v).*1 = d.*1 ++ [k].
Proof.
  induction d as [|[k' v'] d IH]; intros Hk; [reflexivity|].
  rewrite fmap_cons in Hk. apply not_elem_of_cons in Hk as [Hne Hk].
  simpl dict_set. rewrite decide_False by exact Hne.
  rewrite !fmap_cons. simpl. f_equal. apply IH. exact Hk.
Qed.

Lemma dict_of_sets_defined (sets : resource_sets) (y : string) :
  is_Some (dict_of_sets sets !! y) ↔ y ∈ sets.*1.
Proof.
  unfold dict_of_sets.
  assert (Hgen : ∀ (d : gmap string (list string)),
    is_Some (foldl (λ d '(name, xs), <[name := xs]> d) d sets !! y) ↔
    is_Some (d !! y) ∨ y ∈ sets.*1).
  { induction sets as [|[name xs] sets IH]; intros d; simpl.
    - split; [auto|]. intros [?|Hin]; [assumption | inversion Hin].
    - rewrite IH, lookup_insert_is_Some', elem_of_cons. simpl.
      split.
      + intros [[Hn|Hd]|Hin];
          [right; left; symmetry; exact Hn | left; exact Hd
          | right; right; exact Hin].
      + intros [Hd|[Hn|Hin]];
          [left; right; exact Hd | left; left; symmetry; exact Hn
          | right; exact Hin]. }
  rewrite Hgen, lookup_empty. split; [|auto].
  intros [[? Hn]|?]; [discriminate | assumption].
Qed.

Lemma assert_Ok_inv {S} (c : bool) (msg : string) (s s' : S) :
  assert c msg s = Ok tt s' → c = true ∧ s' = s.
Proof. destruct c; simpl; intros Ha; inversion Ha; auto. Qed.

Section Registration.
Context `{Backend}.

Lemma flatten_sets_Ok {V} (d : gmap string (list V)) (names : list string)
    (s : State) r s' :
  flatten_sets d names s = Ok r s' →
  s' = s ∧ Forall (λ y, is_Some (d !! y)) names.
Proof.
  revert r s'. induction names as [|y names IH]; intros r s'; simpl.
  - intros Hr. inversion Hr. auto.
  - destruct (d !! y) as [xs|] eqn:Hy; [|discriminate].
    intros Hr. apply bind_Ok_inv in Hr as (rest & s1 & Hrest & Hr).
    apply IH in Hrest as [-> Hall]. inversion Hr; subst.
    split; [reflexivity|]. constructor; [rewrite Hy; eauto | exact Hall].
Qed.

(** A registration loop: if every step that returns found its name absent
    from the registry, found its entry valid and appended the name, then a
    loop that returns saw distinct names and valid entries only. *)
Lemma for_each_registers {A} (name : A → string) (reg : State → list string)
    (inv : State → Prop) (ok : A → Prop) (body : A → Gen unit)
    (entries : list A) (s s' : State) :
  (∀ x s s', inv s → body x s = Ok tt s' →
     (name x ∉ reg s) ∧ ok x ∧ reg s' = reg s ++ [name x] ∧ inv s') →
  inv s →
  for_each entries body s = Ok tt s' →
  NoDup (name <$> entries) ∧
  (∀ x, x ∈ entries → (name x ∉ reg s)) ∧
  Forall ok entries ∧
  reg s' = reg s ++ (name <$> entries) ∧ inv s'.
Proof.
  intros Hstep. revert s. induction entries as [|x entries IH];
    intros s Hinv Hrun; simpl in *.
  - inversion Hrun; subst. rewrite app_nil_r.
    split; [constructor|]. split; [intros x Hx; inversion Hx|]. auto.
  - apply bind_Ok_inv in Hrun as ([] & s1 & Hx & Hrun).
    destruct (Hstep x s s1 Hinv Hx) as (Hfresh & Hok & Hreg & Hinv1).
    destruct (IH s1 Hinv1 Hrun) as (Hnd & Hfresh' & Hoks & Hreg' & Hinv').
    assert (Hnotin : ∀ y, y ∈ entries → (name y ∉ reg s) ∧ name y ≠ name x).
    { intros y Hy. specialize (Hfresh' y Hy). rewrite Hreg in Hfresh'.
      rewrite elem_of_app, list_elem_of_singleton in Hfresh'. tauto. }
    split; [|split; [|split; [|split]]].
    + constructor; [|exact Hnd].
      rewrite list_elem_of_fmap. intros (y & Hy & Hin).
      destruct (Hnotin y Hin) as [_ Hne]. congruence.
    + intros y Hy. apply elem_of_cons in Hy as [->|Hy]; [exact Hfresh|].
      apply Hnotin. exact Hy.
    + constructor; assumption.
    + rewrite Hreg', Hreg, <- app_assoc. reflexivity.
    + exact Hinv'.
Qed.

End Registration.

Section ConfigValidity.
Context `{Backend}.

(** An object sampler entry the constructor accepts. *)
Definition obj_entry_ok (obj_sets rec_sets : gmap string (list string))
    (x : string * string * UniformParams) : Prop :=
  x.1.2 = "uniform" ∧
  Forall (λ y, is_Some (obj_sets !! y)) (up_sets x.2) ∧
  Forall (λ y, is_Some (rec_sets !! y)) (up_receptacle_sets x.2).

(** An articulated-object state sampler entry the constructor accepts. *)
Definition ao_entry_ok (x : string * string * AOParams) : Prop :=
  x.1.2 = "uniform" ∨ x.1.2 = "composite".

(** A scene sampler entry the constructor accepts. *)
Definition scene_entry_ok (scene_sets : gmap string (list string))
    (x : string * SceneSamplerParams) : Prop :=
  x.1 = "single" ∨
  (x.1 = "subset" ∧
   ∀ included excluded, x.2 = SubsetParams included excluded →
     Forall (λ y, is_Some (scene_sets !! y)) (included ++ excluded)).

Lemma get_obj_samplers_Ok s s' :
  _get_obj_samplers s = Ok tt s' →
  NoDup ((λ x, x.1.1) <$> obj_samplers (cfg s)) ∧
  Forall (obj_entry_ok (_obj_sets s) (_receptacle_sets s))
         (obj_samplers (cfg s)).
Proof.
  unfold _get_obj_samplers. intros Hrun.
  apply bind_Ok_inv in Hrun as ([] & s1 & Hs1 & Hrun).
  inversion Hs1; subst s1; clear Hs1.
  apply bind_Ok_inv in Hrun as (c & s1 & Hc & Hrun).
  inversion Hc; subst c s1; clear Hc. simpl cfg in Hrun.
  eapply (for_each_registers (λ x, x.1.1) (λ st, (_obj_samplers st).*1)
            (λ st, _obj_sets st = _obj_sets s ∧
                   _receptacle_sets st = _receptacle_sets s)
            (obj_entry_ok (_obj_sets s) (_receptacle_sets s)))
    in Hrun as (Hnd & _ & Hok & _); [auto | | split; reflexivity].
  clear. intros [[n t] p] st st' [Ho Hr] Hbody. simpl in Hbody.
  apply bind_Ok_inv in Hbody as (registered & st1 & Hreg & Hbody).
  inversion Hreg; subst registered st1; clear Hreg.
  apply bind_Ok_inv in Hbody as ([] & st1 & Hassert & Hbody).
  apply assert_Ok_inv in Hassert as [Hfresh ->].
  apply negb_true_iff, bool_decide_eq_false in Hfresh.
  destruct (decide (t = "uniform")) as [->|Ht].
  - apply bind_Ok_inv in Hbody as (obj_sets & st1 & Hg & Hbody).
    inversion Hg; subst obj_sets st1; clear Hg.
    apply bind_Ok_inv in Hbody as (objects & st1 & Hobjs & Hbody).
    apply flatten_sets_Ok in Hobjs as [-> Hobjs].
    apply bind_Ok_inv in Hbody as (rec_sets & st1 & Hg & Hbody).
    inversion Hg; subst rec_sets st1; clear Hg.
    apply bind_Ok_inv in Hbody as (receptacles & st1 & Hrecs & Hbody).
    apply flatten_sets_Ok in Hrecs as [-> Hrecs].
    inversion Hbody; subst st'; clear Hbody. simpl.
    rewrite Ho in Hobjs. rewrite Hr in Hrecs.
    split; [exact Hfresh|]. split; [split; [reflexivity | split; assumption]|].
    split; [apply dict_set_keys; exact Hfresh | split; assumption].
  - apply bind_Ok_inv in Hbody as ([] & st1 & _ & Hbody). discriminate.
Qed.

Lemma get_ao_state_samplers_Ok s s' :
  _get_ao_state_samplers s = Ok tt s' →
  NoDup ((λ x, x.1.1) <$> ao_state_samplers (cfg s)) ∧
  Forall ao_entry_ok (ao_state_samplers (cfg s)).
Proof.
  unfold _get_ao_state_samplers. intros Hrun.
  apply bind_Ok_inv in Hrun as ([] & s1 & Hs1 & Hrun).
  inversion Hs1; subst s1; clear Hs1.
  apply bind_Ok_inv in Hrun as (c & s1 & Hc & Hrun).
  inversion Hc; subst c s1; clear Hc. simpl cfg in Hrun.
  eapply (for_each_registers (λ x, x.1.1) (λ st, (_ao_state_samplers st).*1)
            (λ _, True) ao_entry_ok)
    in Hrun as (Hnd & _ & Hok & _); [auto | | exact I].
  clear. intros [[n t] p] st st' _ Hbody. simpl in Hbody.
  apply bind_Ok_inv in Hbody as (registered & st1 & Hreg & Hbody).
  inversion Hreg; subst registered st1; clear Hreg.
  apply bind_Ok_inv in Hbody as ([] & st1 & Hassert & Hbody).
  apply assert_Ok_inv in Hassert as [Hfresh ->].
  apply negb_true_iff, bool_decide_eq_false in Hfresh.
  split; [exact Hfresh|]. unfold ao_entry_ok. simpl.
  destruct (decide (t = "uniform")) as [->|Ht].
  - split; [left; reflexivity|]. destruct p; [|discriminate].
    inversion Hbody; subst st'. simpl.
    split; [apply dict_set_keys; exact Hfresh | exact I].
  - destruct (decide (t = "composite")) as [->|Ht'].
    + split; [right; reflexivity|]. destruct p; [discriminate|].
      apply bind_Ok_inv in Hbody as (params & st1 & Hparams & Hbody).
      inversion Hbody; subst st'. simpl.
      split; [apply dict_set_keys; exact Hfresh | exact I].
    + apply bind_Ok_inv in Hbody as ([] & st1 & _ & Hbody). discriminate.
Qed.

End ConfigValidity.

Section Construction.
Context `{Backend}.

(** Construction reads the configuration and the resource sets but, once
    the sets are cached, changes neither. *)
Definition same_sets (s s' : State) : Prop :=
  cfg s' = cfg s ∧ _scene_sets s' = _scene_sets s ∧
  _obj_sets s' = _obj_sets s ∧ _receptacle_sets s' = _receptacle_sets s.

#[local] Instance same_sets_refl : Reflexive same_sets.
Proof. intros s. repeat split. Qed.

#[local] Instance same_sets_trans : Transitive same_sets.
Proof.
  intros s1 s2 s3 (? & ? & ? & ?) (? & ? & ? & ?).
  repeat split; congruence.
Qed.

Ltac sets_go :=
  repeat (first [ sat_step | exact I ]);
  try solve [ intros; repeat split; reflexivity ].

Lemma initialize_sim_sets scene_name path :
  sat same_sets False (initialize_sim scene_name path).
Proof. unfold initialize_sim. sets_go. Qed.

Lemma get_scene_sampler_sets : sat same_sets False _get_scene_sampler.
Proof. unfold _get_scene_sampler, collect_scene_subset. sets_go. Qed.

Lemma get_obj_samplers_sets : sat same_sets False _get_obj_samplers.
Proof. unfold _get_obj_samplers. sets_go. Qed.

Lemma get_ao_state_samplers_sets : sat same_sets False _get_ao_state_samplers.
Proof.
  unfold _get_ao_state_samplers, composite_params, composite_link_params.
  sets_go.
Qed.

Definition any_change (s s' : State) : Prop := True.

#[local] Instance any_change_refl : Reflexive any_change.
Proof. intros s. exact I. Qed.

#[local] Instance any_change_trans : Transitive any_change.
Proof. intros s1 s2 s3 _ _. exact I. Qed.

(** Construction runs no loop that could fail to end: it returns or
    raises. *)
Lemma init_returns_or_raises s :
  __init__ s ≠ OutOfFuel.
Proof.
  assert (Hsat : sat any_change False __init__).
  { assert (Hany : ∀ s s', same_sets s s' → any_change s s') by (intros; exact I).
    unfold __init__.
    sat_step; [sat_step|].
    sat_step; [eapply sat_mono, initialize_sim_sets; exact Hany|].
    sat_step; [unfold _get_resource_sets; sets_go|].
    sat_step; [eapply sat_mono, get_scene_sampler_sets; exact Hany|].
    sat_step; [eapply sat_mono, get_obj_samplers_sets; exact Hany|].
    sat_step; [eapply sat_mono, get_ao_state_samplers_sets; exact Hany|].
    sets_go. }
  intros Hout. specialize (Hsat s). rewrite Hout in Hsat. exact Hsat.
Qed.

Lemma collect_scene_subset_Ok names s r s' :
  collect_scene_subset names s = Ok r s' →
  s' = s ∧ Forall (λ y, is_Some (_scene_sets s !! y)) names.
Proof.
  unfold collect_scene_subset. generalize (∅ : gset string) as acc.
  revert r. induction names as [|y names IH]; intros r acc; simpl.
  - intros Hr. inversion Hr. auto.
  - intros Hr. apply bind_Ok_inv in Hr as (acc' & s1 & Hy & Hr).
    apply bind_Ok_inv in Hy as (sets & s2 & Hg & Hy).
    inversion Hg; subst sets s2; clear Hg.
    destruct (_scene_sets s !! y) as [members|] eqn:Hl; [|discriminate].
    inversion Hy; subst acc' s1; clear Hy.
    apply IH in Hr as [-> Hall]. split; [reflexivity|].
    constructor; [rewrite Hl; eauto | exact Hall].
Qed.

Lemma get_scene_sampler_Ok s s' :
  _get_scene_sampler s = Ok tt s' →
  scene_entry_ok (_scene_sets s) (scene_sampler (cfg s)).
Proof.
  unfold _get_scene_sampler, scene_entry_ok. intros Hrun.
  apply bind_Ok_inv in Hrun as ([] & s1 & Hs1 & Hrun).
  inversion Hs1; subst s1; clear Hs1.
  apply bind_Ok_inv in Hrun as (c & s1 & Hc & Hrun).
  inversion Hc; subst c s1; clear Hc. simpl cfg in Hrun.
  destruct (scene_sampler (cfg s)) as [sampler_type params]. simpl.
  destruct (decide (sampler_type = "single")) as [->|Hsingle];
    [left; reflexivity|].
  destruct (decide (sampler_type = "subset")) as [->|Hsubset].
  - right. split; [reflexivity|].
    intros included excluded ->.
    apply bind_Ok_inv in Hrun as (inc & s1 & Hinc & Hrun).
    apply collect_scene_subset_Ok in Hinc as [-> Hinc].
    apply bind_Ok_inv in Hrun as (exc & s1 & Hexc & Hrun).
    apply collect_scene_subset_Ok in Hexc as [-> Hexc].
    apply Forall_app. split; assumption.
  - apply bind_Ok_inv in Hrun as ([] & s1 & _ & Hrun). discriminate.
Qed.

End Construction.

(** The configuration errors the constructor meets: in the scene sampler,
    the object samplers and the articulated-object state samplers. *)
Inductive config_error (c : Config) : Prop :=
| unknown_scene_sampler_type :
    (scene_sampler c).1 ≠ "single" → (scene_sampler c).1 ≠ "subset" →
    config_error c
| undefined_scene_set included excluded y :
    (scene_sampler c).1 = "subset" →
    (scene_sampler c).2 = SubsetParams included excluded →
    y ∈ included ++ excluded → y ∉ (scene_sets c).*1 →
    config_error c
| duplicate_obj_sampler_name :
    ¬ NoDup ((λ x, x.1.1) <$> obj_samplers c) → config_error c
| unknown_obj_sampler_type x :
    x ∈ obj_samplers c → x.1.2 ≠ "uniform" → config_error c
| undefined_object_set x y :
    x ∈ obj_samplers c → y ∈ up_sets x.2 → y ∉ (object_sets c).*1 →
    config_error c
| undefined_receptacle_set x y :
    x ∈ obj_samplers c → y ∈ up_receptacle_sets x.2 →
    y ∉ (receptacle_sets c).*1 → config_error c
| duplicate_ao_sampler_name :
    ¬ NoDup ((λ x, x.1.1) <$> ao_state_samplers c) → config_error c
| unknown_ao_sampler_type x :
    x ∈ ao_state_samplers c → x.1.2 ≠ "uniform" → x.1.2 ≠ "composite" →
    config_error c.

Section ConstructionClaims.
Context `{Backend}.

(** A constructor that returns accepted every entry it read. *)
Lemma init_Ok_valid s s' :
  __init__ s = Ok tt s' →
  scene_entry_ok (dict_of_sets (scene_sets (cfg s))) (scene_sampler (cfg s)) ∧
  NoDup ((λ x, x.1.1) <$> obj_samplers (cfg s)) ∧
  Forall (obj_entry_ok (dict_of_sets (object_sets (cfg s)))
                       (dict_of_sets (receptacle_sets (cfg s))))
         (obj_samplers (cfg s)) ∧
  NoDup ((λ x, x.1.1) <$> ao_state_samplers (cfg s)) ∧
  Forall ao_entry_ok (ao_state_samplers (cfg s)).
Proof.
  unfold __init__. intros Hrun.
  apply bind_Ok_inv in Hrun as (c & s0 & Hc & Hrun).
  inversion Hc; subst c s0; clear Hc.
  apply bind_Ok_inv in Hrun as ([] & s1 & Hsim & Hrun).
  apply (sat_Ok same_sets False) in Hsim as (Hc1 & _);
    [|apply initialize_sim_sets].
  apply bind_Ok_inv in Hrun as ([] & s2 & Hsets & Hrun).
  inversion Hsets; subst s2; clear Hsets.
  apply bind_Ok_inv in Hrun as ([] & s3 & Hscene & Hrun).
  pose proof (sat_Ok same_sets False _ _ _ _ get_scene_sampler_sets Hscene)
    as (Hc3 & _ & Ho3 & Hr3).
  apply get_scene_sampler_Ok in Hscene.
  apply bind_Ok_inv in Hrun as ([] & s4 & Hobj & Hrun).
  pose proof (sat_Ok same_sets False _ _ _ _ get_obj_samplers_sets Hobj)
    as (Hc4 & _).
  apply get_obj_samplers_Ok in Hobj as [Hnd Hok].
  apply bind_Ok_inv in Hrun as ([] & s5 & Hao & _).
  apply get_ao_state_samplers_Ok in Hao as [Hnd' Hok'].
  simpl in *. rewrite Hc1 in *. rewrite Hc3, Ho3, Hr3 in *. rewrite Hc4 in *.
  simpl in *. auto.
Qed.

(** C5, amended: a duplicate sampler name, an unknown sampler type or a
    reference to an undefined resource set in the scene sampler, the object
    samplers or the articulated-object state samplers makes construction
    raise.  (Target samplers are not built by the constructor.) *)
Theorem config_errors_abort_construction c debug_visualization w :
  config_error c →
  ∃ e s', RearrangeEpisodeGenerator c debug_visualization w = Raise e s'.
Proof.
  intros Herr. unfold RearrangeEpisodeGenerator.
  destruct (__init__ (blank c debug_visualization w)) as [[] s'|e s'|] eqn:Hi;
    [exfalso | eauto | exfalso; exact (init_returns_or_raises _ Hi)].
  apply init_Ok_valid in Hi as (Hscene & Hnd & Hobj & Hnd' & Hao).
  simpl in *. rewrite Forall_forall in Hobj. rewrite Forall_forall in Hao.
  destruct Herr as [Hs1 Hs2|inc exc y Ht Hp Hy Hundef|Hdup|x Hx Ht
                    |x y Hx Hy Hundef|x y Hx Hy Hundef|Hdup|x Hx Ht1 Ht2].
  - destruct Hscene as [?|[? _]]; contradiction.
  - destruct Hscene as [Hsingle|[_ Hall]]; [congruence|].
    specialize (Hall inc exc Hp). rewrite Forall_forall in Hall.
    apply Hundef, dict_of_sets_defined, Hall, Hy.
  - contradiction.
  - destruct (Hobj x Hx) as (? & _). contradiction.
  - destruct (Hobj x Hx) as (_ & Hall & _). rewrite Forall_forall in Hall.
    apply Hundef, dict_of_sets_defined, Hall, Hy.
  - destruct (Hobj x Hx) as (_ & _ & Hall). rewrite Forall_forall in Hall.
    apply Hundef, dict_of_sets_defined, Hall, Hy.
  - contradiction.
  - destruct (Hao x Hx); contradiction.
Qed.

End ConstructionClaims.

(** * Further properties of the generator *)

(** ** Resource sets *)

(** The value a name holds after a list of definitions. *)
Definition last_definition (cur : option (list string)) (sets : resource_sets)
    (y : string) : option (list string) :=
  foldl (λ cur '(name, xs), if decide (name = y) then Some xs else cur)
        cur sets.

Lemma last_definition_none cur sets y :
  y ∉ sets.*1 → last_definition cur sets y = cur.
Proof.
  unfold last_definition. revert cur.
  induction sets as [|[name xs] sets IH]; intros cur Hy; [reflexivity|].
  rewrite fmap_cons in Hy. apply not_elem_of_cons in Hy as [Hne Hy].
  simpl in *. rewrite decide_False by auto. apply IH. exact Hy.
Qed.

Lemma dict_of_sets_lookup (sets : resource_sets) (y : string) :
  dict_of_sets sets !! y = last_definition None sets y.
Proof.
  unfold dict_of_sets, last_definition.
  assert (Hgen : ∀ d : gmap string (list string),
    foldl (λ d '(name, xs), <[name := xs]> d) d sets !! y =
    foldl (λ cur '(name, xs), if decide (name = y) then Some xs else cur)
          (d !! y) sets).
  { induction sets as [|[name xs] sets IH]; intros d; [reflexivity|].
    simpl. rewrite IH. f_equal.
    destruct (decide (name = y)) as [->|Hne].
    - apply lookup_insert_eq.
    - apply lookup_insert_ne. exact Hne. }
  rewrite Hgen, lookup_empty. reflexivity.
Qed.

Section ResourceSets.
Context `{Backend}.

(** [_get_resource_sets] always returns; it caches the three families of
    sets.  A name defined several times holds its last definition, and a
    name that is not defined is absent. *)
Theorem resource_sets_last_definition_wins s :
  ∃ s', _get_resource_sets s = Ok tt s' ∧
    _scene_sets s' = dict_of_sets (scene_sets (cfg s)) ∧
    _obj_sets s' = dict_of_sets (object_sets (cfg s)) ∧
    _receptacle_sets s' = dict_of_sets (receptacle_sets (cfg s)) ∧
    (∀ sets l1 name xs l2,
       sets = l1 ++ (name, xs) :: l2 → name ∉ l2.*1 →
       dict_of_sets sets !! name = Some xs) ∧
    (∀ sets name, name ∉ sets.*1 → dict_of_sets sets !! name = None).
Proof.
  eexists. split; [reflexivity|]. simpl.
  split; [reflexivity|]. split; [reflexivity|]. split; [reflexivity|]. split.
  - intros sets l1 name xs l2 -> Hl2.
    rewrite dict_of_sets_lookup. unfold last_definition.
    rewrite foldl_app. simpl. rewrite decide_True by reflexivity.
    apply last_definition_none. exact Hl2.
  - intros sets name Hn. rewrite dict_of_sets_lookup.
    apply last_definition_none. exact Hn.
Qed.

End ResourceSets.

(** ** The instances of [ao_states] *)

Lemma merge_link_states_dom m i links inst :
  is_Some (merge_link_states m i links !! inst) ↔
  is_Some (m !! inst) ∨ inst = i.
Proof.
  unfold merge_link_states.
  assert (Hfold : ∀ links (m0 : gmap ao_instance (gmap nat Q)),
    is_Some (foldl (λ acc '(link_ix, joint_state),
                      alter (<[link_ix := joint_state]>) i acc) m0 links
             !! inst) ↔ is_Some (m0 !! inst)).
  { clear. induction links as [|[k v] links IH]; intros m0; [reflexivity|].
    simpl. rewrite IH. destruct (decide (i = inst)) as [->|Hne].
    - rewrite lookup_alter_eq. destruct (m0 !! inst); simpl;
        split; intros [? ?]; eauto; discriminate.
    - rewrite lookup_alter_ne by exact Hne. reflexivity. }
  rewrite Hfold. destruct (m !! i) as [per|] eqn:Hi.
  - split; [auto|]. intros [Hm|Heq]; [exact Hm|].
    subst inst. rewrite Hi. eauto.
  - rewrite lookup_insert_is_Some'. split.
    + intros [Heq|Hm]; [right; symmetry; exact Heq | left; exact Hm].
    + intros [Hm|Heq]; [right; exact Hm | left; symmetry; exact Heq].
Qed.

(** Every instance a sampler returned has an entry in the merged states,
    even when it came with no link, and no other entry is created. *)
Lemma merge_sampler_states_dom m states inst :
  is_Some (merge_sampler_states m states !! inst) ↔
  is_Some (m !! inst) ∨ inst ∈ states.*1.
Proof.
  unfold merge_sampler_states. revert m.
  induction states as [|[i links] states IH]; intros m; simpl.
  - split; [auto|]. intros [?|Hin]; [assumption | inversion Hin].
  - rewrite IH, merge_link_states_dom, elem_of_cons. simpl. tauto.
Qed.

Section AOInstances.
Context `{Backend}.

(** The instances of the [ao_states] of an attempt are those the samplers
    returned (and those already present): an instance returned with no
    link still gets its, empty, per-instance mapping. *)
Theorem ao_states_instances samplers acc s m s' :
  sample_ao_states_from samplers acc s = Ok m s' →
  ∃ results, ao_results samplers s results s' ∧
    ∀ inst, is_Some (m !! inst) ↔
            is_Some (acc !! inst) ∨ inst ∈ (concat results).*1.
Proof.
  intros Hrun.
  apply sample_ao_states_from_Ok in Hrun as (results & Hres & ->).
  exists results. split; [exact Hres|]. clear Hres. revert acc.
  induction results as [|states results IH]; intros acc inst; simpl.
  - split; [auto|]. intros [?|Hin]; [assumption | inversion Hin].
  - rewrite IH, merge_sampler_states_dom, fmap_app, elem_of_app. tauto.
Qed.

End AOInstances.

(** ** The reported maximum displacement *)

Lemma py_max_ge_l (a b : Q) : (a <= py_max a b)%Q.
Proof.
  unfold py_max. destruct (Qgtb b a) eqn:Hc.
  - apply Qlt_le_weak, Qgtb_true. exact Hc.
  - apply Qle_refl.
Qed.

Lemma py_max_ge_r (a b : Q) : (b <= py_max a b)%Q.
Proof.
  unfold py_max. destruct (Qgtb b a) eqn:Hc.
  - apply Qle_refl.
  - apply Qgtb_false. exact Hc.
Qed.

Lemma py_max_le (a b c : Q) : (a <= c)%Q → (b <= c)%Q → (py_max a b <= c)%Q.
Proof. unfold py_max. destruct (Qgtb b a); auto. Qed.

Section MaxDisplacement.
Context `{Backend}.

(** [max_settle_displacement] after the second loop of [settle_sim]. *)
Definition max_displacement (w0 w1 : World) (objs : list RigidObject) : Q :=
  foldl (λ m o, py_max m (displacement w0 w1 o)) 0%Q objs.

Lemma max_displacement_bounds w0 w1 objs :
  (0 <= max_displacement w0 w1 objs)%Q ∧
  Forall (λ o, (displacement w0 w1 o <= max_displacement w0 w1 objs)%Q) objs.
Proof.
  unfold max_displacement.
  assert (Hgen : ∀ objs m0,
    (m0 <= foldl (λ m o, py_max m (displacement w0 w1 o)) m0 objs)%Q ∧
    Forall (λ o, (displacement w0 w1 o <=
                  foldl (λ m o, py_max m (displacement w0 w1 o)) m0 objs)%Q)
           objs).
  { clear. induction objs as [|x objs IH]; intros m0; simpl.
    - split; [apply Qle_refl | constructor].
    - destruct (IH (py_max m0 (displacement w0 w1 x))) as [Hm Hall].
      split; [eapply Qle_trans; [apply py_max_ge_l | exact Hm]|].
      constructor; [|exact Hall].
      eapply Qle_trans; [apply py_max_ge_r | exact Hm]. }
  apply Hgen.
Qed.

Lemma max_displacement_le w0 w1 objs (c : Q) :
  (0 <= c)%Q →
  Forall (λ o, (displacement w0 w1 o <= c)%Q) objs →
  (max_displacement w0 w1 objs <= c)%Q.
Proof.
  unfold max_displacement. generalize 0%Q as m0. intros m0 Hm0 Hall.
  revert m0 Hm0. induction Hall as [|x objs Hx _ IH]; intros m0 Hm0; simpl;
    [exact Hm0|].
  apply IH. apply py_max_le; assumption.
Qed.

Lemma check_stability_max (spawn_positions : gmap string Vector3) (w0 : World)
    (objs : list RigidObject) (s : State) m u s' :
  (∀ o, o ∈ objs →
        spawn_positions !! handle o = Some (translation (handle o) w0)) →
  check_stability spawn_positions objs s = Ok (m, u) s' →
  m = max_displacement w0 (world s) objs.
Proof.
  unfold check_stability, max_displacement.
  assert (Hgen : ∀ objs m0 u0 s,
    (∀ o, o ∈ objs →
          spawn_positions !! handle o = Some (translation (handle o) w0)) →
    fold_loop (λ '(max_settle_displacement, unstable_placements) new_object,
      match spawn_positions !! handle new_object with
      | None => raise (KeyError (handle new_object))
      | Some spawn =>
          t ← sim_get (translation (handle new_object));
          let error := Vector3_length (Vector3_sub spawn t) in
          let max_settle_displacement := py_max max_settle_displacement error in
          if Qgtb error error_eps then
            emit (PrintUnstable (handle new_object) error);;
            mret (max_settle_displacement,
                  unstable_placements ++ [handle new_object])
          else mret (max_settle_displacement, unstable_placements)
      end) objs (m0, u0) s = Ok (m, u) s' →
    m = foldl (λ m o, py_max m (displacement w0 (world s) o)) m0 objs).
  { clear. induction objs as [|x objs IH]; intros m0 u0 s Hspawn Hrun;
      simpl in *.
    - inversion Hrun. reflexivity.
    - rewrite (Hspawn x) in Hrun by left.
      apply bind_Ok_inv in Hrun as ([m1 u1] & s1 & Hx & Hrun).
      apply bind_Ok_inv in Hx as (t & s2 & Ht & Hx).
      inversion Ht; subst t s2; clear Ht.
      assert (Hw : world s1 = world s ∧
                   m1 = py_max m0 (displacement w0 (world s) x)).
      { unfold displacement.
        destruct (Qgtb _ error_eps) in Hx.
        - apply bind_Ok_inv in Hx as ([] & s2 & He & Hx).
          inversion He; subst s2. inversion Hx; subst. auto.
        - inversion Hx; subst. auto. }
      destruct Hw as [Hw ->].
      apply IH in Hrun; [|intros o Ho; apply Hspawn; right; exact Ho].
      rewrite Hw in Hrun. exact Hrun. }
  intros Hspawn Hrun. eapply Hgen; eassumption.
Qed.

End MaxDisplacement.

Section SettleReport.
Context `{Backend}.

(** What [settle_sim] prints: the number and the percentage of unstable
    objects, and the maximum displacement.  The maximum is at least 0 and
    at least every object's displacement, and the verdict is true exactly
    when the maximum is at most 0.1; the unstable objects are never more
    than the objects. *)
Theorem settle_sim_reports_maximum fuel duration make_video s b s' :
  settle_sim fuel duration make_video s = Ok b s' →
  ∃ c sb evs,
    settle_loop fuel duration (before_settle c s) = Ok tt sb ∧
    let objs := ep_sampled_objects s in
    let u := unstable_handles (world s) (world sb) objs in
    let m := max_displacement (world s) (world sb) objs in
    events s' =
      PrintMaxDisplacement m ::
      PrintStabilityReport (len u) (len objs)
        (inject_Z (len u) / inject_Z (len objs) * 100)%Q u :: evs ∧
    (0 <= m)%Q ∧
    Forall (λ o, (displacement (world s) (world sb) o <= m)%Q) objs ∧
    (b = true ↔ (m <= 1 # 10)%Q) ∧
    (0 < len objs)%Z ∧ (len u <= len objs)%Z.
Proof.
  intros Hrun.
  assert (Hne : ep_sampled_objects s ≠ []).
  { intros Hnil. revert Hrun. unfold settle_sim.
    erewrite bind_Ok; [|reflexivity]. rewrite Hnil. discriminate. }
  revert Hrun. unfold settle_sim.
  erewrite bind_Ok; [|reflexivity].
  erewrite bind_Ok; [|rewrite bool_decide_eq_true_2; [reflexivity|]].
  2: { destruct (ep_sampled_objects s); [contradiction|].
       unfold len. simpl. lia. }
  destruct (record_spawn_positions_Ok (ep_sampled_objects s) s)
    as (spawn & c0 & Hspawn & Hlook).
  erewrite bind_Ok; [|exact Hspawn]. cbv beta iota.
  unfold Vector3_div. rewrite inject_Z_len_nonzero by exact Hne.
  erewrite bind_Ok; [|reflexivity].
  erewrite bind_Ok; [|reflexivity].
  match goal with
  | |- context [LookAtAndObserve ?c] => exists c; set (cen := c) in *
  end.
  assert (Hwhen : when (_render_debug_obs s) (vdb (LookAtAndObserve cen)) s =
                  Ok tt (before_settle cen s)).
  { unfold before_settle. destruct (_render_debug_obs s); reflexivity. }
  revert Hrun. rewrite (bind_Ok _ _ _ _ _ Hwhen). intros Hrun.
  apply bind_Ok_inv in Hrun as ([] & sb & Hloop & Hrun).
  exists sb.
  destruct (check_stability_Ok spawn (world s) (ep_sampled_objects s) sb
              Hlook) as (m & sc & Hcs & Hw & Hd & new & He).
  pose proof (check_stability_max _ _ _ _ _ _ _ Hlook Hcs) as Hm.
  rewrite (bind_Ok _ _ _ _ _ Hcs) in Hrun. cbv beta iota zeta in Hrun.
  unfold py_div in Hrun. rewrite inject_Z_len_nonzero in Hrun by exact Hne.
  erewrite bind_Ok in Hrun; [|reflexivity].
  erewrite bind_Ok in Hrun; [|reflexivity].
  erewrite bind_Ok in Hrun; [|reflexivity].
  fold (unstable_handles (world s) (world sb) (ep_sampled_objects s)) in Hrun.
  set (u := unstable_handles (world s) (world sb) (ep_sampled_objects s)) in *.
  assert (Hev : events s' =
    PrintMaxDisplacement m ::
    PrintStabilityReport (len u) (len (ep_sampled_objects s))
      (inject_Z (len u) / inject_Z (len (ep_sampled_objects s)) * 100)%Q u
      :: events sc ∧ b = bool_decide (len u = 0)%Z).
  { destruct (_render_debug_obs s && make_video); inversion Hrun; subst;
      split; reflexivity. }
  destruct Hev as [Hev ->]. exists (events sc).
  split; [exact Hloop|]. cbv zeta. fold u. rewrite <- Hm.
  split; [exact Hev|].
  destruct (max_displacement_bounds (world s) (world sb)
              (ep_sampled_objects s)) as [Hpos Hall].
  rewrite <- Hm in Hpos, Hall.
  split; [exact Hpos|]. split; [exact Hall|].
  assert (Hlen : (len u <= len (ep_sampled_objects s))%Z).
  { unfold u, unstable_handles, len. rewrite length_map.
    pose proof (filter_length (is_unstable (world s) (world sb))
                  (ep_sampled_objects s)). lia. }
  split; [|split; [|exact Hlen]].
  - rewrite bool_decide_eq_true. unfold u, unstable_handles, len.
    rewrite length_map.
    set (l := List.filter (is_unstable (world s) (world sb))
                (ep_sampled_objects s)).
    assert (Hl : Z.of_nat (length l) = 0%Z ↔ l = []).
    { destruct l; simpl; split; first [discriminate | lia | reflexivity]. }
    rewrite Hl. unfold l. rewrite filter_nil_Forall. split.
    + intros Hstable. rewrite Hm.
      apply max_displacement_le; [unfold Qle; simpl; lia|].
      eapply Forall_impl; [exact Hstable|].
      intros o Ho. apply Qgtb_false. exact Ho.
    + intros Hmax. eapply Forall_impl; [exact Hall|].
      intros o Ho. apply Qgtb_false. exact (Qle_trans _ _ _ Ho Hmax).
  - destruct (ep_sampled_objects s); [contradiction|]. unfold len. simpl. lia.
Qed.

End SettleReport.

(** ** The content of an accepted episode *)

Section EpisodeContent.
Context `{Backend}.

Definition same_cfg (s s' : State) : Prop := cfg s' = cfg s.

(** The configuration and the list of sampled objects are left alone. *)
Definition same_objects (s s' : State) : Prop :=
  cfg s' = cfg s ∧ ep_sampled_objects s' = ep_sampled_objects s.

#[local] Instance same_cfg_refl : Reflexive same_cfg.
Proof. intros s. reflexivity. Qed.

#[local] Instance same_cfg_trans : Transitive same_cfg.
Proof. intros s1 s2 s3 H1 H2. unfold same_cfg in *. congruence. Qed.

#[local] Instance same_objects_refl : Reflexive same_objects.
Proof. intros s. split; reflexivity. Qed.

#[local] Instance same_objects_trans : Transitive same_objects.
Proof. intros s1 s2 s3 [? ?] [? ?]. split; congruence. Qed.

Ltac frame_go :=
  repeat (first [ sat_step | exact I ]);
  try solve [ intros; repeat split; reflexivity ].

(** No method of an attempt changes the configuration. *)
Lemma sample_episode_state_cfg : sat same_cfg True sample_episode_state.
Proof.
  unfold sample_episode_state, _reset_samplers, generate_scene,
    initialize_sim, sample_ao_states, sample_ao_states_from,
    sample_object_placements.
  frame_go.
Qed.

Lemma settle_sim_objects fuel duration make_video :
  sat same_objects True (settle_sim fuel duration make_video).
Proof.
  unfold settle_sim, record_spawn_positions, settle_loop, check_stability,
    Vector3_div, py_div.
  frame_go.
Qed.




End EpisodeContent.

(** ** The two caches of sampled objects *)

Lemma for_each_invariant {S A} (I : S → Prop) (body : A → M S unit)
    (l : list A) (s s' : S) :
  (∀ x s s', I s → body x s = Ok tt s' → I s') →
  I s → for_each l body s = Ok tt s' → I s'.
Proof.
  intros Hstep. revert s. induction l as [|x l IH]; intros s HI Hrun;
    simpl in Hrun.
  - inversion Hrun; subst. exact HI.
  - apply bind_Ok_inv in Hrun as ([] & s1 & Hx & Hrun).
    eapply IH; [|exact Hrun]. eapply Hstep; eassumption.
Qed.

Section SampledObjects.
Context `{Backend}.

(** [ep_sampled_objects] holds exactly the objects recorded, per sampler
    name, in [episode_data["sampled_objects"]]. *)
Definition caches_agree (s : State) : Prop :=
  ∀ o, o ∈ ep_sampled_objects s ↔
       ∃ name objs, sampled_objects s !! name = Some objs ∧ o ∈ objs.

Definition same_caches (s s' : State) : Prop :=
  sampled_objects s' = sampled_objects s ∧
  ep_sampled_objects s' = ep_sampled_objects s.

#[local] Instance same_caches_refl : Reflexive same_caches.
Proof. intros s. split; reflexivity. Qed.

#[local] Instance same_caches_trans : Transitive same_caches.
Proof. intros s1 s2 s3 [? ?] [? ?]. split; congruence. Qed.

Ltac caches_go :=
  repeat (first [ sat_step | exact I ]);
  try solve [ intros; repeat split; reflexivity ].

Lemma caches_agree_same s s' : same_caches s s' → caches_agree s → caches_agree s'.
Proof. intros [Hs He] Hagree o. rewrite Hs, He. apply Hagree. Qed.

(** One sampler's objects go to both caches. *)
Lemma caches_agree_add s name (new_objects : list RigidObject) :
  caches_agree s →
  caches_agree
    (set_ep_sampled_objects (ep_sampled_objects s ++ new_objects)
       (set_sampled_objects
          match sampled_objects s !! name with
          | None => <[name := new_objects]> (sampled_objects s)
          | Some old => <[name := old ++ new_objects]> (sampled_objects s)
          end s)).
Proof.
  intros Hagree o. simpl. rewrite elem_of_app, (Hagree o). split.
  - intros [(n & objs & Hn & Ho)|Ho].
    + destruct (decide (n = name)) as [->|Hne].
      * rewrite Hn. exists name, (objs ++ new_objects).
        rewrite lookup_insert_eq, elem_of_app. auto.
      * exists n, objs. split; [|exact Ho].
        destruct (sampled_objects s !! name);
          rewrite lookup_insert_ne by auto; exact Hn.
    + destruct (sampled_objects s !! name) as [old|].
      * exists name, (old ++ new_objects).
        rewrite lookup_insert_eq, elem_of_app. auto.
      * exists name, new_objects. rewrite lookup_insert_eq. auto.
  - intros (n & objs & Hn & Ho).
    destruct (decide (n = name)) as [->|Hne].
    + destruct (sampled_objects s !! name) as [old|] eqn:Hold;
        rewrite lookup_insert_eq in Hn; inversion Hn; subst objs.
      * apply elem_of_app in Ho as [Ho|Ho]; [left | right; exact Ho].
        exists name, old. auto.
      * right. exact Ho.
    + left. exists n, objs. split; [|exact Ho].
      destruct (sampled_objects s !! name);
        rewrite lookup_insert_ne in Hn by auto; exact Hn.
Qed.

Lemma sample_object_placements_agree s s' :
  caches_agree s → sample_object_placements s = Ok tt s' → caches_agree s'.
Proof.
  unfold sample_object_placements. intros Hagree Hrun.
  apply bind_Ok_inv in Hrun as (samplers & s0 & Hg & Hrun).
  inversion Hg; subst samplers s0; clear Hg.
  apply bind_Ok_inv in Hrun as (dbg & s0 & Hg & Hrun).
  inversion Hg; subst s0; clear Hg.
  eapply for_each_invariant; [|exact Hagree|exact Hrun].
  clear. intros [name smp] st st' Hagree Hbody.
  apply bind_Ok_inv in Hbody as ([] & sa & He & Hbody).
  inversion He; subst sa; clear He.
  apply bind_Ok_inv in Hbody as (new_objects & sb & Hcall & Hbody).
  unfold sim_call in Hcall. simpl in Hcall.
  destruct (object_sampler_sample _ _ _ _) as [new w] in Hcall.
  inversion Hcall; subst new_objects sb; clear Hcall.
  apply bind_Ok_inv in Hbody as (so & sc & Hg & Hbody).
  inversion Hg; subst so sc; clear Hg.
  apply bind_Ok_inv in Hbody as ([] & sc & Hm & Hbody).
  inversion Hm; subst sc; clear Hm.
  apply bind_Ok_inv in Hbody as (objs & sd & Hg & Hbody).
  inversion Hg; subst objs sd; clear Hg.
  apply bind_Ok_inv in Hbody as ([] & sd & Hm & Hbody).
  inversion Hm; subst sd; clear Hm.
  apply bind_Ok_inv in Hbody as ([] & se & He & Hbody).
  inversion He; subst se; clear He.
  eapply caches_agree_same.
  - eapply (sat_Ok same_caches True); [|exact Hbody]. caches_go.
  - apply (caches_agree_same (set_ep_sampled_objects
             (ep_sampled_objects st ++ new)
             (set_sampled_objects
                match sampled_objects st !! name with
                | None => <[name := new]> (sampled_objects st)
                | Some old => <[name := old ++ new]> (sampled_objects st)
                end st))); [split; reflexivity|].
    apply caches_agree_add. exact Hagree.
Qed.

(** When the placement phase of an attempt is over, the two caches agree:
    [ep_sampled_objects] holds the objects sampled in this attempt, each
    recorded under its sampler's name, and nothing of an earlier attempt. *)
Theorem sampled_object_caches_agree s r s1 :
  sample_episode_state s = Ok r s1 → caches_agree s1.
Proof.
  unfold sample_episode_state, _reset_samplers. intros Hrun.
  apply bind_Ok_inv in Hrun as ([] & sa & Hreset & Hrun).
  apply bind_Ok_inv in Hreset as ([] & s0 & Hm & Hreset).
  inversion Hm; subst s0; clear Hm.
  apply (sat_Ok same_caches True) in Hreset as [Hs1 He1]; [|caches_go].
  apply bind_Ok_inv in Hrun as ([] & sb & Hm & Hrun).
  inversion Hm; subst sb; clear Hm.
  apply bind_Ok_inv in Hrun as ([] & sb & Hm & Hrun).
  inversion Hm; subst sb; clear Hm.
  apply bind_Ok_inv in Hrun as (scene & sc & Hscene & Hrun).
  apply (sat_Ok same_caches True) in Hscene as [Hs2 He2];
    [|unfold generate_scene, initialize_sim; caches_go].
  apply bind_Ok_inv in Hrun as (ao_st & sd & Hao & Hrun).
  apply (sat_Ok same_caches True) in Hao as [Hs3 He3];
    [|unfold sample_ao_states, sample_ao_states_from; caches_go].
  apply bind_Ok_inv in Hrun as ([] & se & Hobj & Hrun).
  inversion Hrun; subst se; clear Hrun.
  eapply sample_object_placements_agree; [|exact Hobj].
  intros o. simpl in *. rewrite He3, He2, He1, Hs3, Hs2. simpl. split.
  - intros Ho. inversion Ho.
  - intros (n & objs & Hn & _). rewrite lookup_empty in Hn. discriminate.
Qed.

End SampledObjects.

(** ** The sampler registries *)

Lemma dict_set_fresh {V} (d : list (string * V)) (k : string) (v : V) :
  k ∉ d.*1 → dict_set d k v = d ++ [(k, v)].
Proof.
  induction d as [|[k' v'] d IH]; intros Hk; [reflexivity|].
  rewrite fmap_cons in Hk. apply not_elem_of_cons in Hk as [Hne Hk].
  simpl. rewrite decide_False by exact Hne. rewrite IH by exact Hk.
  reflexivity.
Qed.

(** [[x for y in names for x in d[y]]] when every [y] is a key. *)
Definition flatten {V} (d : gmap string (list V)) (names : list string)
  : list V :=
  concat (map (λ y, default [] (d !! y)) names).

Section Registries.
Context `{Backend}.

Lemma flatten_sets_run {V} (d : gmap string (list V)) (names : list string)
    (s : State) :
  Forall (λ y, is_Some (d !! y)) names →
  flatten_sets d names s = Ok (flatten d names) s.
Proof.
  induction 1 as [|y names [xs Hy] _ IH]; [reflexivity|].
  simpl. rewrite Hy. erewrite bind_Ok; [|exact IH].
  unfold flatten. simpl. rewrite Hy. reflexivity.
Qed.

(** The sampler an object sampler entry stands for. *)
Definition build_obj_sampler (obj_sets rec_sets : gmap string (list string))
    (x : string * string * UniformParams) : string * ObjectSampler :=
  (x.1.1,
   mkObjectSampler (flatten obj_sets (up_sets x.2))
     (flatten rec_sets (up_receptacle_sets x.2))
     (up_min x.2, up_max x.2) (up_orientation x.2)).

Lemma get_obj_samplers_loop entries reg s :
  NoDup (reg.*1 ++ ((λ x, x.1.1) <$> entries)) →
  Forall (obj_entry_ok (_obj_sets s) (_receptacle_sets s)) entries →
  for_each entries (λ '(obj_sampler_name, obj_sampler_type, params),
    registered ← gets _obj_samplers;
    assert (negb (dict_has registered obj_sampler_name))
      ("Duplicate object sampler name '" +:+ obj_sampler_name
         +:+ "' in config.");;
    if decide (obj_sampler_type = "uniform") then
      obj_sets ← gets _obj_sets;
      objects ← flatten_sets obj_sets (up_sets params);
      rec_sets ← gets _receptacle_sets;
      receptacles ← flatten_sets rec_sets (up_receptacle_sets params);
      modify (set_obj_samplers
        (dict_set registered obj_sampler_name
           (mkObjectSampler objects receptacles
              (up_min params, up_max params) (up_orientation params))))
    else
      emit (PrintNotImplemented obj_sampler_type);;
      raise NotImplementedError) (set_obj_samplers reg s) =
  Ok tt (set_obj_samplers
           (reg ++ (build_obj_sampler (_obj_sets s) (_receptacle_sets s)
                      <$> entries)) s).
Proof.
  revert reg. induction entries as [|[[n t] p] entries IH]; intros reg Hnd Hok.
  - simpl. rewrite app_nil_r. reflexivity.
  - inversion Hok as [|? ? (Ht & Hobjs & Hrecs) Hok']; subst. simpl in Ht.
    subst t. rewrite fmap_cons in Hnd. simpl in Hnd.
    assert (Hfresh : n ∉ reg.*1).
    { apply NoDup_app in Hnd as (_ & Hdisj & _). intros Hin.
      apply (Hdisj n Hin). left. }
    simpl for_each.
    erewrite bind_Ok; [|].
    2: { erewrite bind_Ok; [|reflexivity]. simpl.
         unfold dict_has. rewrite bool_decide_eq_false_2 by exact Hfresh.
         simpl. erewrite bind_Ok; [|reflexivity].
         erewrite bind_Ok; [|reflexivity].
         erewrite bind_Ok; [|apply flatten_sets_run; exact Hobjs].
         erewrite bind_Ok; [|reflexivity].
         erewrite bind_Ok; [|apply flatten_sets_run; exact Hrecs].
         rewrite dict_set_fresh by exact Hfresh. reflexivity. }
    etrans; [apply (IH (reg ++ [build_obj_sampler (_obj_sets s)
                                  (_receptacle_sets s) (n, "uniform", p)]))|].
    + rewrite fmap_app, <- app_assoc. exact Hnd.
    + exact Hok'.
    + simpl. rewrite <- app_assoc. reflexivity.
Qed.

Lemma get_obj_samplers_run s :
  NoDup ((λ x, x.1.1) <$> obj_samplers (cfg s)) →
  Forall (obj_entry_ok (_obj_sets s) (_receptacle_sets s))
         (obj_samplers (cfg s)) →
  _get_obj_samplers s =
  Ok tt (set_obj_samplers
           (build_obj_sampler (_obj_sets s) (_receptacle_sets s)
              <$> obj_samplers (cfg s)) s).
Proof.
  intros Hnd Hok. unfold _get_obj_samplers.
  erewrite bind_Ok; [|reflexivity]. erewrite bind_Ok; [|reflexivity].
  simpl cfg.
  apply (get_obj_samplers_loop (obj_samplers (cfg s)) [] s);
    [exact Hnd | exact Hok].
Qed.

(** [_get_obj_samplers] returns exactly when the names of the entries are
    pairwise distinct, every type is "uniform" and every set named is
    defined; it then registers, in configuration order, one sampler per
    entry over the concatenation of the sets named. *)
Theorem obj_samplers_registered s :
  NoDup ((λ x, x.1.1) <$> obj_samplers (cfg s)) ∧
  Forall (obj_entry_ok (_obj_sets s) (_receptacle_sets s))
         (obj_samplers (cfg s)) ↔
  _get_obj_samplers s =
  Ok tt (set_obj_samplers
           (build_obj_sampler (_obj_sets s) (_receptacle_sets s)
              <$> obj_samplers (cfg s)) s).
Proof.
  split.
  - intros [Hnd Hok]. apply get_obj_samplers_run; assumption.
  - intros Hrun. apply get_obj_samplers_Ok in Hrun. exact Hrun.
Qed.

End Registries.

Section TargetRegistry.
Context `{Backend}.

(** A target sampler entry [_get_object_target_samplers] accepts: its
    first parameter names object samplers that have sampled in this
    attempt, its second names receptacle sets. *)
Definition target_entry_ok (sampled : gmap string (list RigidObject))
    (rec_sets : gmap string (list string))
    (x : string * string * UniformParams) : Prop :=
  x.1.2 = "uniform" ∧
  Forall (λ y, is_Some (sampled !! y)) (up_sets x.2) ∧
  Forall (λ y, is_Some (rec_sets !! y)) (up_receptacle_sets x.2).

Definition build_target_sampler (sampled : gmap string (list RigidObject))
    (rec_sets : gmap string (list string))
    (x : string * string * UniformParams) : string * ObjectTargetSampler :=
  (x.1.1,
   mkObjectTargetSampler (flatten sampled (up_sets x.2))
     (flatten rec_sets (up_receptacle_sets x.2))
     (up_min x.2, up_max x.2) (up_orientation x.2)).

Lemma get_object_target_samplers_Ok s s' :
  _get_object_target_samplers s = Ok tt s' →
  NoDup ((λ x, x.1.1) <$> obj_target_samplers (cfg s)) ∧
  Forall (target_entry_ok (sampled_objects s) (_receptacle_sets s))
         (obj_target_samplers (cfg s)).
Proof.
  unfold _get_object_target_samplers. intros Hrun.
  apply bind_Ok_inv in Hrun as ([] & s1 & Hs1 & Hrun).
  inversion Hs1; subst s1; clear Hs1.
  apply bind_Ok_inv in Hrun as (c & s1 & Hc & Hrun).
  inversion Hc; subst c s1; clear Hc. simpl cfg in Hrun.
  eapply (for_each_registers (λ x, x.1.1) (λ st, (_target_samplers st).*1)
            (λ st, sampled_objects st = sampled_objects s ∧
                   _receptacle_sets st = _receptacle_sets s)
            (target_entry_ok (sampled_objects s) (_receptacle_sets s)))
    in Hrun as (Hnd & _ & Hok & _); [auto | | split; reflexivity].
  clear. intros [[n t] p] st st' [Ho Hr] Hbody. simpl in Hbody.
  apply bind_Ok_inv in Hbody as (registered & st1 & Hreg & Hbody).
  inversion Hreg; subst registered st1; clear Hreg.
  apply bind_Ok_inv in Hbody as ([] & st1 & Hassert & Hbody).
  apply assert_Ok_inv in Hassert as [Hfresh ->].
  apply negb_true_iff, bool_decide_eq_false in Hfresh.
  destruct (decide (t = "uniform")) as [->|Ht].
  - apply bind_Ok_inv in Hbody as (so & st1 & Hg & Hbody).
    inversion Hg; subst so st1; clear Hg.
    apply bind_Ok_inv in Hbody as (objects & st1 & Hobjs & Hbody).
    apply flatten_sets_Ok in Hobjs as [-> Hobjs].
    apply bind_Ok_inv in Hbody as (rec_sets & st1 & Hg & Hbody).
    inversion Hg; subst rec_sets st1; clear Hg.
    apply bind_Ok_inv in Hbody as (receptacles & st1 & Hrecs & Hbody).
    apply flatten_sets_Ok in Hrecs as [-> Hrecs].
    inversion Hbody; subst st'; clear Hbody. simpl.
    rewrite Ho in Hobjs. rewrite Hr in Hrecs.
    split; [exact Hfresh|]. split; [split; [reflexivity | split; assumption]|].
    split; [apply dict_set_keys; exact Hfresh | split; assumption].
  - apply bind_Ok_inv in Hbody as ([] & st1 & _ & Hbody). discriminate.
Qed.

Lemma get_object_target_samplers_loop entries reg s :
  NoDup (reg.*1 ++ ((λ x, x.1.1) <$> entries)) →
  Forall (target_entry_ok (sampled_objects s) (_receptacle_sets s)) entries →
  for_each entries (λ '(target_sampler_name, target_sampler_type, params),
    registered ← gets _target_samplers;
    assert (negb (dict_has registered target_sampler_name))
      ("Duplicate target sampler name '" +:+ target_sampler_name
         +:+ "' in config.");;
    if decide (target_sampler_type = "uniform") then
      so ← gets sampled_objects;
      object_instances ← flatten_sets so (up_sets params);
      rec_sets ← gets _receptacle_sets;
      receptacles ← flatten_sets rec_sets (up_receptacle_sets params);
      modify (set_target_samplers
        (dict_set registered target_sampler_name
           (mkObjectTargetSampler object_instances receptacles
              (up_min params, up_max params) (up_orientation params))))
    else
      emit (PrintNotImplemented target_sampler_type);;
      raise NotImplementedError) (set_target_samplers reg s) =
  Ok tt (set_target_samplers
           (reg ++ (build_target_sampler (sampled_objects s)
                      (_receptacle_sets s) <$> entries)) s).
Proof.
  revert reg. induction entries as [|[[n t] p] entries IH]; intros reg Hnd Hok.
  - simpl. rewrite app_nil_r. reflexivity.
  - inversion Hok as [|? ? (Ht & Hobjs & Hrecs) Hok']; subst. simpl in Ht.
    subst t. rewrite fmap_cons in Hnd. simpl in Hnd.
    assert (Hfresh : n ∉ reg.*1).
    { apply NoDup_app in Hnd as (_ & Hdisj & _). intros Hin.
      apply (Hdisj n Hin). left. }
    simpl for_each.
    erewrite bind_Ok; [|].
    2: { erewrite bind_Ok; [|reflexivity]. simpl.
         unfold dict_has. rewrite bool_decide_eq_false_2 by exact Hfresh.
         simpl. erewrite bind_Ok; [|reflexivity].
         erewrite bind_Ok; [|reflexivity].
         erewrite bind_Ok; [|apply flatten_sets_run; exact Hobjs].
         erewrite bind_Ok; [|reflexivity].
         erewrite bind_Ok; [|apply flatten_sets_run; exact Hrecs].
         rewrite dict_set_fresh by exact Hfresh. reflexivity. }
    etrans; [apply (IH (reg ++ [build_target_sampler (sampled_objects s)
                                  (_receptacle_sets s) (n, "uniform", p)]))|].
    + rewrite fmap_app, <- app_assoc. exact Hnd.
    + exact Hok'.
    + simpl. rewrite <- app_assoc. reflexivity.
Qed.

(** [_get_object_target_samplers] returns exactly when the names of the
    target sampler entries are pairwise distinct, every type is "uniform",
    every name in the first parameter is the name of an object sampler
    with objects recorded in [episode_data["sampled_objects"]], and every
    receptacle set named is defined.  It then registers one target sampler
    per entry, over the objects those samplers placed in this attempt. *)
Theorem target_samplers_registered s :
  NoDup ((λ x, x.1.1) <$> obj_target_samplers (cfg s)) ∧
  Forall (target_entry_ok (sampled_objects s) (_receptacle_sets s))
         (obj_target_samplers (cfg s)) ↔
  _get_object_target_samplers s =
  Ok tt (set_target_samplers
           (build_target_sampler (sampled_objects s) (_receptacle_sets s)
              <$> obj_target_samplers (cfg s)) s).
Proof.
  split.
  - intros [Hnd Hok]. unfold _get_object_target_samplers.
    erewrite bind_Ok; [|reflexivity]. erewrite bind_Ok; [|reflexivity].
    simpl cfg.
    apply (get_object_target_samplers_loop
             (obj_target_samplers (cfg s)) [] s); [exact Hnd | exact Hok].
  - intros Hrun. apply get_object_target_samplers_Ok in Hrun. exact Hrun.
Qed.

End TargetRegistry.

Section CompositeParams.
Context `{Backend}.

(** The per-link ranges of one handle of a composite sampler. *)
Definition build_links (link_sample_params : list (string * Q * Q))
  : list (string * (Q * Q)) :=
  (λ x, (x.1.1, (x.1.2, x.2))) <$> link_sample_params.

Definition build_composite (entries : list (string * list (string * Q * Q)))
  : list (string * list (string * (Q * Q))) :=
  (λ e, (e.1, build_links e.2)) <$> entries.

Lemma build_links_names l : (build_links l).*1 = (λ x, x.1.1) <$> l.
Proof. unfold build_links. rewrite <- list_fmap_compose. reflexivity. Qed.

Lemma build_composite_names l : (build_composite l).*1 = l.*1.
Proof.
  unfold build_composite. rewrite <- list_fmap_compose. reflexivity.
Qed.

(** A registration loop that threads its registry as a local variable. *)
Lemma fold_loop_registers {A V} (name : A → string) (build : A → V)
    (ok : A → Prop) (body : list (string * V) → A → Gen (list (string * V)))
    (entries : list A) (acc : list (string * V)) (s : State) :
  (∀ acc x s, (name x ∉ acc.*1) → ok x →
     body acc x s = Ok (acc ++ [(name x, build x)]) s) →
  (∀ acc x s r s', body acc x s = Ok r s' → (name x ∉ acc.*1) ∧ ok x) →
  (NoDup (acc.*1 ++ (name <$> entries)) ∧ Forall ok entries →
   fold_loop body entries acc s =
   Ok (acc ++ ((λ x, (name x, build x)) <$> entries)) s) ∧
  (∀ r s', NoDup acc.*1 → fold_loop body entries acc s = Ok r s' →
     NoDup (acc.*1 ++ (name <$> entries)) ∧ Forall ok entries).
Proof.
  intros Hrun Hinv. revert acc s.
  induction entries as [|x entries IH]; intros acc s; simpl.
  - split.
    + intros _. rewrite app_nil_r. reflexivity.
    + intros r s' Hnd _. rewrite app_nil_r. split; [exact Hnd | constructor].
  - split.
    + intros [Hnd Hok]. inversion Hok as [|? ? Hx Hok']; subst.
      assert (Hfresh : name x ∉ acc.*1).
      { apply NoDup_app in Hnd as (_ & Hdisj & _). intros Hin.
        apply (Hdisj _ Hin). left. }
      erewrite bind_Ok; [|apply Hrun; assumption].
      destruct (IH (acc ++ [(name x, build x)]) s) as [IHrun _].
      rewrite IHrun, <- app_assoc; [reflexivity|].
      split; [|exact Hok']. rewrite fmap_app, <- app_assoc. exact Hnd.
    + intros r s' Hnd Hfold.
      apply bind_Ok_inv in Hfold as (acc' & s1 & Hx & Hfold).
      destruct (Hinv _ _ _ _ _ Hx) as [Hfresh Hok].
      rewrite (Hrun acc x s Hfresh Hok) in Hx.
      inversion Hx; subst acc' s1; clear Hx.
      destruct (IH (acc ++ [(name x, build x)]) s) as [_ IHinv].
      apply IHinv in Hfold as [Hnd' Hok'].
      * rewrite fmap_app, <- app_assoc in Hnd'. split; [exact Hnd'|].
        constructor; assumption.
      * rewrite fmap_app. apply NoDup_app. split; [exact Hnd|].
        split; [|apply NoDup_singleton].
        intros y Hy Hin. apply list_elem_of_singleton in Hin. simpl in Hin.
        subst y. contradiction.
Qed.

Lemma composite_link_params_spec ao_handle link_sample_params s :
  (NoDup ((λ x, x.1.1) <$> link_sample_params) →
   composite_link_params ao_handle link_sample_params s =
   Ok (build_links link_sample_params) s) ∧
  (∀ r s', composite_link_params ao_handle link_sample_params s = Ok r s' →
     NoDup ((λ x, x.1.1) <$> link_sample_params)).
Proof.
  unfold composite_link_params, build_links.
  destruct (fold_loop_registers (λ x : string * Q * Q, x.1.1)
              (λ x, (x.1.2, x.2)) (λ _, True)
              (λ links '(link_name, lo, hi),
                 assert (negb (dict_has links link_name))
                   ("Duplicate link name '" +:+ link_name +:+ "' for handle '"
                      +:+ ao_handle +:+ " in composite AO sampler config.");;
                 mret (dict_set links link_name (lo, hi)))
              link_sample_params [] s) as [Hrun Hinv].
  - intros acc [[n lo] hi] st Hfresh _. simpl.
    unfold dict_has. rewrite bool_decide_eq_false_2 by exact Hfresh. simpl.
    erewrite bind_Ok; [|reflexivity].
    rewrite dict_set_fresh by exact Hfresh. reflexivity.
  - intros acc [[n lo] hi] st r st' Hbody. simpl in *.
    apply bind_Ok_inv in Hbody as ([] & st1 & Ha & _).
    apply assert_Ok_inv in Ha as [Ha _].
    apply negb_true_iff, bool_decide_eq_false in Ha. auto.
  - split.
    + intros Hnd. apply Hrun. split; [exact Hnd|].
      apply Forall_forall. auto.
    + intros r s' Hfold. apply Hinv in Hfold; [|constructor].
      apply Hfold.
Qed.

(** The entries of a composite sampler the constructor accepts: distinct
    handles, and distinct link names under each handle. *)
Definition composite_ok (entries : list (string * list (string * Q * Q)))
  : Prop :=
  NoDup entries.*1 ∧
  Forall (λ e, NoDup ((λ x, x.1.1) <$> e.2)) entries.

Lemma composite_params_spec entries s :
  (composite_ok entries →
   composite_params entries s = Ok (build_composite entries) s) ∧
  (∀ r s', composite_params entries s = Ok r s' → composite_ok entries).
Proof.
  unfold composite_params, build_composite, composite_ok.
  destruct (fold_loop_registers
              (λ e : string * list (string * Q * Q), e.1)
              (λ e, build_links e.2)
              (λ e, NoDup ((λ x, x.1.1) <$> e.2))
              (λ composite_ao_sampler_params '(ao_handle, link_sample_params),
                 assert (negb (dict_has composite_ao_sampler_params ao_handle))
                   ("Duplicate handle '" +:+ ao_handle
                      +:+ "' in composite AO sampler config.");;
                 links ← composite_link_params ao_handle link_sample_params;
                 mret (dict_set composite_ao_sampler_params ao_handle links))
              entries [] s) as [Hrun Hinv].
  - intros acc [h links] st Hfresh Hnd. simpl in *.
    unfold dict_has. rewrite bool_decide_eq_false_2 by exact Hfresh. simpl.
    erewrite bind_Ok; [|reflexivity].
    erewrite bind_Ok;
      [|apply (proj1 (composite_link_params_spec h links st)); exact Hnd].
    rewrite dict_set_fresh by exact Hfresh. reflexivity.
  - intros acc [h links] st r st' Hbody. simpl in *.
    apply bind_Ok_inv in Hbody as ([] & st1 & Ha & Hbody).
    apply assert_Ok_inv in Ha as [Ha ->].
    apply negb_true_iff, bool_decide_eq_false in Ha. split; [exact Ha|].
    apply bind_Ok_inv in Hbody as (l & st1 & Hl & _).
    exact (proj2 (composite_link_params_spec h links st) _ _ Hl).
  - split.
    + intros [Hnd Hok]. apply Hrun. split; assumption.
    + intros r s' Hfold. apply Hinv in Hfold; [|constructor]. exact Hfold.
Qed.

End CompositeParams.

Section AORegistry.
Context `{Backend}.

(** An articulated-object state sampler entry the constructor accepts. *)
Definition ao_entry_valid (x : string * string * AOParams) : Prop :=
  match x.2 with
  | AOUniformParams _ _ _ _ => x.1.2 = "uniform"
  | AOCompositeParams entries => x.1.2 = "composite" ∧ composite_ok entries
  end.

Definition build_ao_sampler (x : string * string * AOParams)
  : string * AOStateSampler :=
  (x.1.1,
   match x.2 with
   | AOUniformParams ao_handle link lo hi =>
       ArticulatedObjectStateSampler ao_handle link (lo, hi)
   | AOCompositeParams entries =>
       CompositeArticulatedObjectStateSampler (build_composite entries)
   end).


Lemma get_ao_state_samplers_loop entries reg s :
  NoDup (reg.*1 ++ ((λ x, x.1.1) <$> entries)) →
  Forall ao_entry_valid entries →
  for_each entries
    (λ '(ao_state_sampler_name, ao_state_sampler_type, params),
    registered ← gets _ao_state_samplers;
    assert (negb (dict_has registered ao_state_sampler_name))
      ("Duplicate AO state sampler name " +:+ ao_state_sampler_name
         +:+ " in config.");;
    if decide (ao_state_sampler_type = "uniform") then
      match params with
      | AOUniformParams ao_handle link lo hi =>
          modify (set_ao_state_samplers
            (dict_set registered ao_state_sampler_name
               (ArticulatedObjectStateSampler ao_handle link (lo, hi))))
      | AOCompositeParams _ => raise TypeError
      end
    else if decide (ao_state_sampler_type = "composite") then
      match params with
      | AOCompositeParams entries =>
          composite_ao_sampler_params ← composite_params entries;
          modify (set_ao_state_samplers
            (dict_set registered ao_state_sampler_name
               (CompositeArticulatedObjectStateSampler
                  composite_ao_sampler_params)))
      | AOUniformParams _ _ _ _ => raise TypeError
      end
    else
      emit (PrintNotImplemented ao_state_sampler_type);;
      raise NotImplementedError) (set_ao_state_samplers reg s) =
  Ok tt (set_ao_state_samplers (reg ++ (build_ao_sampler <$> entries)) s).
Proof.
  revert reg. induction entries as [|[[n t] p] entries IH]; intros reg Hnd Hok.
  - simpl. rewrite app_nil_r. reflexivity.
  - inversion Hok as [|? ? Hx Hok']; subst.
    rewrite fmap_cons in Hnd. simpl in Hnd.
    assert (Hfresh : n ∉ reg.*1).
    { apply NoDup_app in Hnd as (_ & Hdisj & _). intros Hin.
      apply (Hdisj n Hin). left. }
    assert (Hstep : ∀ k : unit → Gen unit,
      ((let '(ao_state_sampler_name, ao_state_sampler_type, params) :=
          (n, t, p) in
        registered ← gets _ao_state_samplers;
        assert (negb (dict_has registered ao_state_sampler_name))
          ("Duplicate AO state sampler name " +:+ ao_state_sampler_name
             +:+ " in config.");;
        if decide (ao_state_sampler_type = "uniform") then
          match params with
          | AOUniformParams ao_handle link lo hi =>
              modify (set_ao_state_samplers
                (dict_set registered ao_state_sampler_name
                   (ArticulatedObjectStateSampler ao_handle link (lo, hi))))
          | AOCompositeParams _ => raise TypeError
          end
        else if decide (ao_state_sampler_type = "composite") then
          match params with
          | AOCompositeParams entries =>
              composite_ao_sampler_params ← composite_params entries;
              modify (set_ao_state_samplers
                (dict_set registered ao_state_sampler_name
                   (CompositeArticulatedObjectStateSampler
                      composite_ao_sampler_params)))
          | AOUniformParams _ _ _ _ => raise TypeError
          end
        else
          emit (PrintNotImplemented ao_state_sampler_type);;
          raise NotImplementedError) ≫= k) (set_ao_state_samplers reg s) =
      k tt (set_ao_state_samplers (reg ++ [build_ao_sampler (n, t, p)]) s)).
    { intros k. apply bind_Ok.
      erewrite bind_Ok; [|reflexivity]. simpl.
      unfold dict_has. rewrite bool_decide_eq_false_2 by exact Hfresh.
      simpl. erewrite bind_Ok; [|reflexivity].
      unfold ao_entry_valid in Hx. simpl in Hx.
      destruct p as [ao_handle link lo hi|comp].
      - subst t. simpl.
        rewrite dict_set_fresh by exact Hfresh. reflexivity.
      - destruct Hx as [-> Hcomp]. simpl.
        erewrite bind_Ok;
          [|apply (proj1 (composite_params_spec comp _)); exact Hcomp].
        rewrite dict_set_fresh by exact Hfresh. reflexivity. }
    simpl for_each. etrans; [apply Hstep|].
    etrans; [apply (IH (reg ++ [build_ao_sampler (n, t, p)]))|].
    + rewrite fmap_app, <- app_assoc. exact Hnd.
    + exact Hok'.
    + simpl. rewrite <- app_assoc. reflexivity.
Qed.

Lemma get_ao_state_samplers_run s :
  NoDup ((λ x, x.1.1) <$> ao_state_samplers (cfg s)) →
  Forall ao_entry_valid (ao_state_samplers (cfg s)) →
  _get_ao_state_samplers s =
  Ok tt (set_ao_state_samplers
           (build_ao_sampler <$> ao_state_samplers (cfg s)) s).
Proof.
  intros Hnd Hok. unfold _get_ao_state_samplers.
  erewrite bind_Ok; [|reflexivity]. erewrite bind_Ok; [|reflexivity].
  simpl cfg.
  apply (get_ao_state_samplers_loop (ao_state_samplers (cfg s)) [] s);
    [exact Hnd | exact Hok].
Qed.


End AORegistry.

Section SceneSampler.
Context `{Backend}.

(** The scenes of the sets named, as [_get_scene_sampler] collects them. *)
Definition scene_subset (sets : gmap string (list string))
    (names : list string) : gset string :=
  foldl (λ acc scene_set,
           foldl (λ a scene_subset, {[scene_subset]} ∪ a) acc
                 (default [] (sets !! scene_set)))
        ∅ names.

Lemma collect_scene_subset_run names s :
  Forall (λ y, is_Some (_scene_sets s !! y)) names →
  collect_scene_subset names s = Ok (scene_subset (_scene_sets s) names) s.
Proof.
  unfold collect_scene_subset, scene_subset.
  generalize (∅ : gset string) as acc. intros acc Hall. revert acc.
  induction Hall as [|y names [members Hy] _ IH]; intros acc; [reflexivity|].
  simpl. erewrite bind_Ok; [|erewrite bind_Ok; [|reflexivity]].
  - rewrite IH. rewrite Hy. reflexivity.
  - simpl. rewrite Hy. reflexivity.
Qed.

(** A scene sampler entry of the right shape that the constructor
    accepts. *)
Definition scene_entry_valid (sets : gmap string (list string))
    (x : string * SceneSamplerParams) : Prop :=
  match x.2 with
  | SingleParams _ => x.1 = "single"
  | SubsetParams included excluded =>
      x.1 = "subset" ∧
      Forall (λ y, is_Some (sets !! y)) (included ++ excluded)
  end.

Definition build_scene_sampler (sets : gmap string (list string))
    (x : string * SceneSamplerParams) : SceneSampler :=
  match x.2 with
  | SingleParams scene => SingleSceneSampler scene
  | SubsetParams included excluded =>
      SceneSubsetSampler (scene_subset sets included)
                         (scene_subset sets excluded)
  end.

Lemma get_scene_sampler_run s :
  scene_entry_valid (_scene_sets s) (scene_sampler (cfg s)) →
  _get_scene_sampler s =
  Ok tt (set_scene_sampler
           (Some (build_scene_sampler (_scene_sets s) (scene_sampler (cfg s))))
           s).
Proof.
  unfold _get_scene_sampler, scene_entry_valid, build_scene_sampler.
  intros Hvalid.
  erewrite bind_Ok; [|reflexivity]. erewrite bind_Ok; [|reflexivity].
  cbn beta. change (cfg (set_scene_sampler None s)) with (cfg s).
  destruct (scene_sampler (cfg s)) as [t [scene|inc exc]];
    simpl in *.
  - subst t. reflexivity.
  - destruct Hvalid as [-> Hall]. apply Forall_app in Hall as [Hinc Hexc].
    simpl.
    erewrite bind_Ok; [|apply (collect_scene_subset_run inc); exact Hinc].
    erewrite bind_Ok; [|apply (collect_scene_subset_run exc); exact Hexc].
    reflexivity.
Qed.

Lemma load_configs_loop (paths : list string) (s : State) :
  ∃ s', for_each paths (λ object_path, sim_do (load_configs object_path)) s =
          Ok tt s' ∧
        same_sets s s' ∧ sim_created s' = sim_created s.
Proof.
  revert s. induction paths as [|p paths IH]; intros s; simpl.
  - exists s. repeat split.
  - destruct (IH (set_world (load_configs p (world s)) s))
      as (s' & Hrun & Hsets & Hc).
    exists s'. split; [|split; [exact Hsets | exact Hc]].
    erewrite bind_Ok; [exact Hrun | reflexivity].
Qed.

(** The first initialization creates the simulator and cannot trip the
    empty-scene assertion. *)
Lemma initialize_sim_fresh scene_name path s :
  sim_created s = false →
  ∃ s', initialize_sim scene_name path s = Ok tt s' ∧
        same_sets s s' ∧ sim_created s' = true.
Proof.
  intros Hfresh. unfold initialize_sim.
  erewrite bind_Ok; [|reflexivity]. rewrite Hfresh.
  destruct (load_configs_loop (additional_object_paths (cfg s))
              (set_sim_created true
                 (set_world (Simulator_new scene_name path (world s)) s)))
    as (s1 & Hrun & Hsets & Hc).
  eexists. split.
  - erewrite bind_Ok; [reflexivity|].
    erewrite bind_Ok; [|reflexivity].
    erewrite bind_Ok; [|reflexivity].
    erewrite bind_Ok; [|reflexivity].
    exact Hrun.
  - simpl. split; [|exact Hc].
    destruct Hsets as (? & ? & ? & ?). repeat split; assumption.
Qed.

End SceneSampler.

Section ConstructionSucceeds.
Context `{Backend}.

Definition same_target_samplers (s s' : State) : Prop :=
  _target_samplers s' = _target_samplers s.

#[local] Instance same_target_samplers_refl : Reflexive same_target_samplers.
Proof. intros s. reflexivity. Qed.

#[local] Instance same_target_samplers_trans :
  Transitive same_target_samplers.
Proof. intros s1 s2 s3 H1 H2. unfold same_target_samplers in *. congruence. Qed.

Lemma initialize_sim_targets scene_name path :
  sat same_target_samplers False (initialize_sim scene_name path).
Proof.
  unfold initialize_sim.
  repeat (first [ sat_step | exact I ]);
    try solve [ intros; reflexivity ].
Qed.

(** A configuration the constructor accepts. *)
Definition config_valid (c : Config) : Prop :=
  scene_entry_valid (dict_of_sets (scene_sets c)) (scene_sampler c) ∧
  NoDup ((λ x, x.1.1) <$> obj_samplers c) ∧
  Forall (obj_entry_ok (dict_of_sets (object_sets c))
                       (dict_of_sets (receptacle_sets c)))
         (obj_samplers c) ∧
  NoDup ((λ x, x.1.1) <$> ao_state_samplers c) ∧
  Forall ao_entry_valid (ao_state_samplers c).

(** On a valid configuration construction returns: the simulator exists,
    the scene sampler, the object samplers and the articulated-object state
    samplers are registered as configured, no target sampler is registered
    yet, no object is sampled and the episode counter is 0. *)
Theorem construction_succeeds c debug_visualization w :
  config_valid c →
  ∃ s, RearrangeEpisodeGenerator c debug_visualization w = Ok tt s ∧
       cfg s = c ∧ sim_created s = true ∧
       _scene_sampler s =
         Some (build_scene_sampler (dict_of_sets (scene_sets c))
                 (scene_sampler c)) ∧
       _obj_samplers s =
         (build_obj_sampler (dict_of_sets (object_sets c))
            (dict_of_sets (receptacle_sets c)) <$> obj_samplers c) ∧
       _ao_state_samplers s = (build_ao_sampler <$> ao_state_samplers c) ∧
       _target_samplers s = [] ∧
       ep_sampled_objects s = [] ∧ num_ep_generated s = 0.
Proof.
  intros (Hscene & Hnd & Hobj & Hnd' & Hao).
  unfold RearrangeEpisodeGenerator, __init__.
  erewrite bind_Ok; [|reflexivity]. simpl cfg.
  destruct (initialize_sim_fresh "NONE" (dataset_path c)
              (blank c debug_visualization w) eq_refl)
    as (s1 & Hsim & (Hc1 & _) & Hcreated).
  simpl in Hc1.
  assert (Htargets : _target_samplers s1 = []).
  { apply (sat_Ok same_target_samplers False) in Hsim;
      [exact Hsim | apply initialize_sim_targets]. }
  erewrite bind_Ok; [|exact Hsim].
  erewrite bind_Ok; [|reflexivity].
  set (s2 := set_resource_sets (dict_of_sets (scene_sets (cfg s1)))
               (dict_of_sets (object_sets (cfg s1)))
               (dict_of_sets (receptacle_sets (cfg s1))) s1).
  erewrite bind_Ok;
    [|apply (get_scene_sampler_run s2); simpl; rewrite Hc1; exact Hscene].
  set (s3 := set_scene_sampler _ s2).
  erewrite bind_Ok;
    [|apply (get_obj_samplers_run s3); simpl; rewrite Hc1; assumption].
  set (s4 := set_obj_samplers _ s3).
  erewrite bind_Ok;
    [|apply (get_ao_state_samplers_run s4); simpl; rewrite Hc1;
      assumption].
  eexists. split; [reflexivity|]. simpl. rewrite Hc1.
  repeat split; assumption.
Qed.

End ConstructionSucceeds.

(** ** Termination of the settle loop *)

Section SettleTermination.
Context `{Backend}.

(** A simulator whose clock advances by the step it is given, and a
    visualizer that leaves the clock alone. *)
Definition clock_advances : Prop :=
  (∀ dt w, get_world_time (step_world dt w) == get_world_time w + dt)%Q ∧
  (∀ c w, get_world_time (vdb_call c w) == get_world_time w)%Q.

Lemma settle_loop_ends fuel duration s :
  clock_advances →
  (duration <= get_world_time (world s) + inject_Z (Z.of_nat fuel) * (1 # 30))%Q →
  ∃ s', settle_loop fuel duration s = Ok tt s' ∧
        (duration <= get_world_time (world s'))%Q.
Proof.
  intros [Hstep Hvdb]. unfold settle_loop. revert s.
  induction fuel as [|fuel IH]; intros s Hfuel.
  - simpl. erewrite bind_Ok; [|erewrite bind_Ok; reflexivity].
    assert (Hd : (duration <= get_world_time (world s))%Q).
    { simpl in Hfuel. rewrite Qmult_0_l, Qplus_0_r in Hfuel. exact Hfuel. }
    rewrite (proj2 (Qltb_false _ _) Hd). exists s. split; [reflexivity | exact Hd].
  - simpl. erewrite bind_Ok; [|erewrite bind_Ok; reflexivity].
    destruct (Qltb (get_world_time (world s)) duration) eqn:Hc.
    + match goal with
      | |- context [while_loop fuel ?c ?b] =>
          set (loop := while_loop fuel c b) in *
      end.
      assert (Hbody : ∃ s1,
        (emit CallStepWorld;;
         sim_do (step_world (1 / 30));;
         dbg ← gets _render_debug_obs;
         when dbg (vdb SettleObservation)) s = Ok tt s1 ∧
        (get_world_time (world s1) == get_world_time (world s) + (1 # 30))%Q).
      { erewrite bind_Ok; [|reflexivity]. erewrite bind_Ok; [|reflexivity].
        erewrite bind_Ok; [|reflexivity]. simpl.
        destruct (_render_debug_obs s); eexists; (split; [reflexivity|]);
          simpl; [rewrite Hvdb|]; apply Hstep. }
      destruct Hbody as (s1 & Hbody & Htime).
      erewrite bind_Ok; [|exact Hbody].
      apply IH. rewrite Htime.
      rewrite Nat2Z.inj_succ, <- Z.add_1_r, inject_Z_plus in Hfuel.
      eapply Qle_trans; [exact Hfuel|].
      apply Qle_lteq. right. change (inject_Z 1) with 1%Q. ring.
    + exists s. split; [reflexivity|]. apply Qltb_false. exact Hc.
Qed.


(** So the stability check of a non-empty attempt returns a verdict, given
    steps for the time that is left. *)
Theorem settle_sim_returns fuel duration make_video s :
  clock_advances →
  ep_sampled_objects s ≠ [] →
  (duration <= get_world_time (world s) + inject_Z (Z.of_nat fuel) * (1 # 30))%Q →
  ∃ b s', settle_sim fuel duration make_video s = Ok b s'.
Proof.
  intros Hclock Hne Hfuel.
  destruct (settle_sim_run fuel duration make_video s Hne) as (c & Hrun).
  destruct (settle_loop_ends fuel duration (before_settle c s) Hclock)
    as (sb & Hloop & _).
  { unfold before_settle. destruct (_render_debug_obs s); [|exact Hfuel].
    simpl. rewrite (proj2 Hclock). exact Hfuel. }
  rewrite Hloop in Hrun. destruct Hrun as (m & ratio & evs & s' & Hs & _).
  eauto.
Qed.

End SettleTermination.

(** ** Re-initializing the simulator *)

Section InitializeSim.
Context `{Backend}.

Definition same_progress (s s' : State) : Prop :=
  ep_sampled_objects s' = ep_sampled_objects s ∧
  num_ep_generated s' = num_ep_generated s.

#[local] Instance same_progress_refl : Reflexive same_progress.
Proof. intros s. split; reflexivity. Qed.

#[local] Instance same_progress_trans : Transitive same_progress.
Proof. intros s1 s2 s3 [? ?] [? ?]. split; congruence. Qed.

(** [initialize_sim] raises in one case only: a simulator exists, it holds
    the scene that is asked for, and that scene is the empty scene "NONE";
    the object is then left as it was.  In every other case it returns
    with a simulator in place, the caches of the generator untouched. *)
Theorem initialize_sim_empty_scene_guard scene_name path s :
  (sim_created s = true → sim_cfg_scene_id (world s) = scene_name →
   scene_name = "NONE" →
   initialize_sim scene_name path s =
   Raise (AssertionError
            "Should never generate episodes in an empty scene. Mistake?") s) ∧
  (¬ (sim_created s = true ∧ sim_cfg_scene_id (world s) = scene_name ∧
      scene_name = "NONE") →
   ∃ s', initialize_sim scene_name path s = Ok tt s' ∧
         sim_created s' = true ∧ same_sets s s' ∧
         ep_sampled_objects s' = ep_sampled_objects s ∧
         num_ep_generated s' = num_ep_generated s).
Proof.
  split.
  - intros Hcreated Hcur ->. unfold initialize_sim.
    erewrite bind_Ok; [|reflexivity]. rewrite Hcreated.
    apply bind_Raise. erewrite bind_Ok; [|reflexivity].
    apply bind_Raise. rewrite Hcur.
    rewrite bool_decide_eq_true_2 by reflexivity. simpl.
    apply bind_Raise. reflexivity.
  - intros Hguard. destruct (sim_created s) eqn:Hcreated.
    + unfold initialize_sim.
      erewrite bind_Ok; [|reflexivity]. rewrite Hcreated.
      destruct (decide (sim_cfg_scene_id (world s) = scene_name))
        as [Hcur|Hcur].
      * assert (Hne : scene_name ≠ "NONE") by tauto.
        eexists. split.
        -- erewrite bind_Ok; [reflexivity|].
           erewrite bind_Ok; [|reflexivity].
           erewrite bind_Ok; [reflexivity|].
           rewrite bool_decide_eq_true_2 by exact Hcur. simpl.
           erewrite bind_Ok; [reflexivity|].
           rewrite bool_decide_eq_true_2 by congruence. reflexivity.
        -- simpl. rewrite Hcreated. repeat split.
      * eexists. split.
        -- erewrite bind_Ok; [reflexivity|].
           erewrite bind_Ok; [|reflexivity].
           erewrite bind_Ok; [reflexivity|].
           rewrite bool_decide_eq_false_2 by exact Hcur. reflexivity.
        -- simpl. rewrite Hcreated. repeat split.
    + destruct (initialize_sim_fresh scene_name path s Hcreated)
        as (s' & Hrun & Hsets & Hc).
      exists s'. split; [exact Hrun|]. split; [exact Hc|].
      split; [exact Hsets|].
      assert (Hsat : sat same_progress False (initialize_sim scene_name path)).
      { unfold initialize_sim.
        repeat (first [ sat_step | exact I ]);
          try solve [ intros; split; reflexivity ]. }
      exact (sat_Ok _ _ _ _ _ _ Hsat Hrun).
Qed.

End InitializeSim.

(** ** What generation leaves alone *)

Section ReadOnly.
Context `{Backend}.

(** The state built by the constructor: configuration, resource sets and
    samplers other than the target samplers. *)
Definition same_registries (s s' : State) : Prop :=
  cfg s' = cfg s ∧ _render_debug_obs s' = _render_debug_obs s ∧
  _scene_sets s' = _scene_sets s ∧ _obj_sets s' = _obj_sets s ∧
  _receptacle_sets s' = _receptacle_sets s ∧
  _scene_sampler s' = _scene_sampler s ∧
  _obj_samplers s' = _obj_samplers s ∧
  _ao_state_samplers s' = _ao_state_samplers s.

#[local] Instance same_registries_refl : Reflexive same_registries.
Proof. intros s. repeat split. Qed.

#[local] Instance same_registries_trans : Transitive same_registries.
Proof.
  intros s1 s2 s3 (? & ? & ? & ? & ? & ? & ? & ?) (? & ? & ? & ? & ? & ? & ? & ?).
  repeat split; congruence.
Qed.

Ltac registries_go :=
  repeat (first [ sat_step | exact I ]);
  try solve [ intros; repeat split; reflexivity ].

Lemma generate_single_episode_registries sfuel :
  sat same_registries True (generate_single_episode sfuel).
Proof.
  unfold generate_single_episode, sample_episode_state, _reset_samplers,
    generate_scene, initialize_sim, sample_ao_states, sample_ao_states_from,
    sample_object_placements, settle_sim, record_spawn_positions, settle_loop,
    check_stability, Vector3_div, py_div, _get_object_target_samplers,
    sample_targets, record_target, assemble_episode.
  registries_go.
Qed.

Lemma generate_episodes_loop_registries fuel sfuel n gen f :
  sat same_registries True (generate_episodes_loop fuel sfuel n gen f).
Proof.
  revert gen f. induction fuel as [|fuel IH]; intros gen f; simpl.
  - destruct (bool_decide (len gen < n)%Z);
      [apply sat_out_of_fuel; exact I | apply sat_ret; exact _].
  - destruct (bool_decide (len gen < n)%Z); [|apply sat_ret; exact _].
    apply sat_bind; [exact _ | apply generate_single_episode_registries|].
    intros [ep|]; apply IH.
Qed.

(** Generating episodes only reads what the constructor built: whether an
    attempt is accepted, rejected or raises, and whatever
    [generate_episodes] does, the configuration, the resource sets, the
    scene sampler, the object samplers and the articulated-object state
    samplers of the generator are those it had. *)
Theorem generation_keeps_registries fuel sfuel num_episodes s :
  (∀ r s', generate_single_episode sfuel s = Ok r s' → same_registries s s') ∧
  (∀ e s', generate_single_episode sfuel s = Raise e s' →
           same_registries s s') ∧
  (∀ eps s', generate_episodes fuel sfuel num_episodes s = Ok eps s' →
             same_registries s s') ∧
  (∀ e s', generate_episodes fuel sfuel num_episodes s = Raise e s' →
           same_registries s s').
Proof.
  assert (Hgen : sat same_registries True
                   (generate_episodes fuel sfuel num_episodes)).
  { unfold generate_episodes.
    apply sat_bind; [exact _ | apply generate_episodes_loop_registries|].
    intros [eps f]. registries_go. }
  split; [|split; [|split]].
  - intros r s' Hg.
    exact (sat_Ok _ _ _ _ _ _ (generate_single_episode_registries sfuel) Hg).
  - intros e s' Hg.
    exact (sat_Raise _ _ _ _ _ _ (generate_single_episode_registries sfuel) Hg).
  - intros eps s' Hg. exact (sat_Ok _ _ _ _ _ _ Hgen Hg).
  - intros e s' Hg. exact (sat_Raise _ _ _ _ _ _ Hgen Hg).
Qed.

(** Without target samplers in the configuration an accepted episode has
    no target. *)
Theorem no_target_sampler_no_target sfuel s ep s' :
  obj_target_samplers (cfg s) = [] →
  generate_single_episode sfuel s = Ok (Some ep) s' →
  targets ep = ∅.
Proof.
  intros Hnone Hg.
  apply generate_single_episode_Ok_inv in Hg
    as (scene & ao_st & s1 & stable & s2 & Hpre & Hsettle & Hg).
  destruct Hg as [(_ & Hr & _)|(_ & s3 & s4 & Ht & Hs & Ha)]; [discriminate|].
  pose proof (sat_Ok same_cfg True _ _ _ _ sample_episode_state_cfg Hpre)
    as Hc1.
  apply sample_episode_state_Ok in Hpre as (_ & Ht1 & _).
  pose proof (sat_Ok same_objects True _ _ _ _
                (settle_sim_objects sfuel 5 true) Hsettle) as [Hc2 _].
  apply (sat_Ok quiet True) in Hsettle as (_ & Ht2 & _);
    [|apply settle_sim_quiet].
  assert (Hcfg : obj_target_samplers (cfg s2) = []).
  { unfold same_cfg in Hc1. rewrite Hc2, Hc1. exact Hnone. }
  unfold _get_object_target_samplers in Ht.
  erewrite bind_Ok in Ht; [|reflexivity].
  erewrite bind_Ok in Ht; [|reflexivity].
  simpl cfg in Ht. rewrite Hcfg in Ht. inversion Ht; subst s3; clear Ht.
  inversion Hs; subst s4; clear Hs.
  rewrite assemble_episode_eq in Ha. inversion Ha; subst. simpl.
  rewrite Ht2, Ht1. reflexivity.
Qed.

End ReadOnly.

(** * The claims on a concrete backend

    Runs of the generator over [Toy.backend]: every object falls at the
    speed the script gives for the attempt, so an attempt is stable exactly
    when that speed is small enough. *)

#[local] Existing Instance Toy.backend.

(** Requesting a negative number of episodes: the loop body never runs and
    the list is empty, so its length is not the number requested. *)
Lemma generate_episodes_negative_count :
  ∃ s', generate_episodes 0 0 (-1) (Toy.generator Toy.base_cfg []) = Ok [] s' ∧
        len ([] : list RearrangeEpisode) ≠ (-1)%Z.
Proof.
  eexists. split; [vm_compute; reflexivity | discriminate].
Qed.

(** One unstable attempt, then a stable one: one record is returned. *)
Lemma generate_episodes_count_witness :
  ∃ eps s',
    generate_episodes 2 150 1 (Toy.generator Toy.base_cfg [1; 0]%Q) =
      Ok eps s' ∧
    len eps = Z.max 0 1.
Proof.
  pose (s0 := Toy.generator Toy.base_cfg [1; 0]%Q).
  pose (m := generate_episodes 2 150 1).
  assert (E : m s0 = Ok (Toy.returned [] m s0) (Toy.state_after m s0))
    by (vm_compute; reflexivity).
  exists (Toy.returned [] m s0), (Toy.state_after m s0).
  split; [exact E|].
  exact (proj1 (proj1 (generate_episodes_count 2 150 1 s0) _ _ E)).
Defined.

(** An attempt in which the objects fall one unit per second is rejected. *)
Lemma unstable_attempt_is_rejected_witness :
  ∃ s2,
    generate_single_episode 150 (Toy.generator Toy.base_cfg [1%Q]) =
      Ok None (add_event PrintAbortUnstable s2) ∧
    num_ep_generated (add_event PrintAbortUnstable s2) =
      num_ep_generated (Toy.generator Toy.base_cfg [1%Q]) ∧
    sampled_targets (add_event PrintAbortUnstable s2) = ∅.
Proof.
  pose (s0 := Toy.generator Toy.base_cfg [1%Q]).
  pose (s1 := Toy.state_after sample_episode_state s0).
  pose (r := Toy.returned (EmptyString, ∅) sample_episode_state s0).
  pose (s2 := Toy.state_after (settle_sim 150 5 true) s1).
  assert (E1 : sample_episode_state s0 = Ok (r.1, r.2) s1)
    by (vm_compute; reflexivity).
  assert (E2 : settle_sim 150 5 true s1 = Ok false s2)
    by (vm_compute; reflexivity).
  exists s2.
  destruct (unstable_attempt_is_rejected 0 150 1 [] 0 s0 r.1 r.2 s1 s2 E1 E2)
    as (Hg & Hn & Ht & _).
  split; [exact Hg|]. split; [exact Hn | exact Ht].
Defined.

(** Two episodes from a fresh generator are numbered "0" and "1". *)
Lemma episode_id_is_acceptance_index_witness :
  ∃ eps s',
    generate_episodes 2 150 2 (Toy.generator Toy.base_cfg [0; 0]%Q) =
      Ok eps s' ∧
    episode_id <$> eps = ["0"; "1"] ∧
    num_ep_generated s' = length eps ∧
    ∀ k ep, eps !! k = Some ep → episode_id ep = pretty k.
Proof.
  pose (w := Toy.world0 [0; 0]%Q).
  pose (s0 := Toy.generator Toy.base_cfg [0; 0]%Q).
  pose (m := generate_episodes 2 150 2).
  assert (E0 : RearrangeEpisodeGenerator Toy.base_cfg false w = Ok tt s0)
    by (vm_compute; reflexivity).
  assert (E : m s0 = Ok (Toy.returned [] m s0) (Toy.state_after m s0))
    by (vm_compute; reflexivity).
  exists (Toy.returned [] m s0), (Toy.state_after m s0).
  split; [exact E|]. split; [vm_compute; reflexivity|].
  exact (proj2 (proj2 (proj2 (proj2 (episode_id_is_acceptance_index 150))))
           Toy.base_cfg false w s0 _ _ E0
           (generate_episodes_lifetime _ _ _ _ _ _ E)).
Defined.

(** The record of a stable attempt. *)
Lemma start_pose_is_constant_witness :
  ∃ ep s',
    generate_single_episode 150 (Toy.generator Toy.base_cfg [0%Q]) =
      Ok (Some ep) s' ∧
    start_position ep = [0; 0; 0]%Q ∧ start_rotation ep = [0; 0; 0; 1]%Q.
Proof.
  pose (s0 := Toy.generator Toy.base_cfg [0%Q]).
  pose (m := generate_single_episode 150).
  destruct (Toy.returned None m s0) as [ep|] eqn:Hep;
    [|vm_compute in Hep; discriminate].
  assert (E : m s0 = Ok (Toy.returned None m s0) (Toy.state_after m s0))
    by (vm_compute; reflexivity).
  rewrite Hep in E.
  exists ep, (Toy.state_after m s0). split; [exact E|].
  exact (start_pose_is_constant 150 s0 ep _ E).
Defined.

(** A target sampler whose object list names the same set twice proposes
    two targets for one instance: the attempt raises.  With the base
    configuration the returned record holds one target per removed target
    object. *)
Lemma duplicate_target_is_rejected_witness :
  (∃ s4,
     generate_single_episode 150
       (Toy.generator
          (Toy.with_target_samplers
             [("any_targets", "uniform",
               mkUniformParams ["any"; "any"] ["table"] 2 2 "up")]
             Toy.base_cfg) [0%Q]) =
     Raise (AssertionError
              "Duplicate target for instance '002_master_chef_can_:0000'.")
           s4) ∧
  (∃ ep s',
     generate_single_episode 150 (Toy.generator Toy.base_cfg [0%Q]) =
       Ok (Some ep) s' ∧
     size (targets ep) = 2 ∧
     size (targets ep) +
       count_removals (events (Toy.generator Toy.base_cfg [0%Q])) =
     count_removals (events s')).
Proof.
  split.
  - pose (s0 := Toy.generator
                  (Toy.with_target_samplers
                     [("any_targets", "uniform",
                       mkUniformParams ["any"; "any"] ["table"] 2 2 "up")]
                     Toy.base_cfg) [0%Q]).
    pose (r := Toy.returned (EmptyString, ∅) sample_episode_state s0).
    pose (s1 := Toy.state_after sample_episode_state s0).
    pose (s2 := Toy.state_after (settle_sim 150 5 true) s1).
    pose (s3 := Toy.state_after _get_object_target_samplers s2).
    pose (s4 := Toy.state_after sample_targets s3).
    assert (E1 : sample_episode_state s0 = Ok (r.1, r.2) s1)
      by (vm_compute; reflexivity).
    assert (E2 : settle_sim 150 5 true s1 = Ok true s2)
      by (vm_compute; reflexivity).
    assert (E3 : _get_object_target_samplers s2 = Ok tt s3)
      by (vm_compute; reflexivity).
    assert (E4 : sample_targets s3 =
                 Raise (AssertionError
                   "Duplicate target for instance '002_master_chef_can_:0000'.")
                   s4)
      by (vm_compute; reflexivity).
    exists s4.
    exact (proj1 (proj2 (proj2 (duplicate_target_is_rejected 150)))
             s0 r.1 r.2 s1 s2 s3 _ s4 E1 E2 E3 E4).
  - pose (s0 := Toy.generator Toy.base_cfg [0%Q]).
    pose (m := generate_single_episode 150).
    destruct (Toy.returned None m s0) as [ep|] eqn:Hep;
      [|vm_compute in Hep; discriminate].
    assert (E : m s0 = Ok (Toy.returned None m s0) (Toy.state_after m s0))
      by (vm_compute; reflexivity).
    assert (Hsize : from_option (λ ep, size (targets ep)) 0
                      (Toy.returned None m s0) = 2)
      by (vm_compute; reflexivity).
    rewrite Hep in E, Hsize.
    exists ep, (Toy.state_after m s0). split; [exact E|].
    split; [exact Hsize|].
    exact (proj2 (proj2 (proj2 (duplicate_target_is_rejected 150)))
             s0 ep _ E).
Defined.

(** A generator that has sampled no object cannot check stability. *)
Lemma settle_sim_needs_objects_witness :
  settle_sim 150 5 true (Toy.generator Toy.base_cfg []) =
  Raise (AssertionError EmptyString) (Toy.generator Toy.base_cfg []).
Proof.
  apply (proj1 (settle_sim_needs_objects 150 5 true
                  (Toy.generator Toy.base_cfg []))).
  vm_compute. reflexivity.
Defined.

(** The stability check of an attempt in which the objects fall. *)
Lemma settle_sim_verdict_witness :
  ∃ sb b s',
    settle_sim 150 5 true
      (Toy.state_after sample_episode_state
         (Toy.generator Toy.base_cfg [1%Q])) = Ok b s' ∧
    (b = true ↔
     Forall (λ o, (displacement
                     (world (Toy.state_after sample_episode_state
                               (Toy.generator Toy.base_cfg [1%Q])))
                     (world sb) o <= 1 # 10)%Q)
            (ep_sampled_objects
               (Toy.state_after sample_episode_state
                  (Toy.generator Toy.base_cfg [1%Q])))).
Proof.
  pose (s1 := Toy.state_after sample_episode_state
                (Toy.generator Toy.base_cfg [1%Q])).
  pose (m := settle_sim 150 5 true).
  assert (Hne : ep_sampled_objects s1 ≠ [])
    by (intros Heq; vm_compute in Heq; discriminate).
  assert (E : m s1 = Ok (Toy.returned true m s1) (Toy.state_after m s1))
    by (vm_compute; reflexivity).
  destruct (settle_sim_verdict 150 5 true s1 Hne) as (c & Hret & Hloop).
  destruct (Hret _ _ E) as (sb & Hsb).
  destruct (Hloop sb Hsb) as (_ & b & s' & Hs & Hiff & _).
  exists sb, b, s'. split; [exact Hs | exact Hiff].
Defined.

(** A sampler over the empty range [2, 1] fails: with it second in the
    configuration, [generate_episodes] raises instead of retrying. *)
Lemma ao_sampler_failure_not_retried :
  ∃ s',
    generate_episodes 3 150 1
      (Toy.generator
         (Toy.with_ao_samplers
            (ao_state_samplers Toy.base_cfg ++
             [("bad", "uniform", AOUniformParams "fridge" "door" 2 1)])
            Toy.base_cfg) [0; 0; 0]%Q) =
    Raise (AssertionError "AO sampler 'bad' failed") s'.
Proof. eexists. vm_compute. reflexivity. Qed.

Lemma ao_sampler_failure_escapes_witness :
  ∃ s2,
    generate_single_episode 150
      (Toy.generator
         (Toy.with_ao_samplers
            [("bad", "uniform", AOUniformParams "fridge" "door" 2 1)]
            Toy.base_cfg) [0%Q]) =
      Raise (AssertionError "AO sampler 'bad' failed") s2 ∧
    generate_episodes 3 150 1
      (Toy.generator
         (Toy.with_ao_samplers
            [("bad", "uniform", AOUniformParams "fridge" "door" 2 1)]
            Toy.base_cfg) [0%Q]) =
      Raise (AssertionError "AO sampler 'bad' failed") s2.
Proof.
  pose (s0 := Toy.generator
                (Toy.with_ao_samplers
                   [("bad", "uniform", AOUniformParams "fridge" "door" 2 1)]
                   Toy.base_cfg) [0%Q]).
  pose (sa := Toy.state_after _reset_samplers s0).
  pose (sb := set_sampled_targets ∅ (set_sampled_objects ∅ sa)).
  pose (sc := Toy.state_after generate_scene sb).
  pose (smp := ArticulatedObjectStateSampler "fridge" "door" (2, 1)%Q).
  assert (E1 : _reset_samplers s0 = Ok tt sa) by (vm_compute; reflexivity).
  assert (E2 : generate_scene sb =
               Ok (Toy.returned EmptyString generate_scene sb) sc)
    by (vm_compute; reflexivity).
  assert (E3 : _ao_state_samplers sc = [] ++ [("bad", smp)])
    by (vm_compute; reflexivity).
  assert (E4 : ao_sampler_sample smp (world sc) = (None, world sc))
    by (vm_compute; reflexivity).
  destruct (ao_sampler_failure_escapes 2 150 1 [] 0 s0 sa _ sc [] "bad" smp
              [] [] sc (world sc) E1 E2 E3 (ao_results_nil sc) E4)
    as (Hg & _ & _ & Hloop).
  eexists. split; [exact Hg | apply Hloop; lia].
Defined.

(** An object sampler of an unknown type stops construction. *)
Lemma config_errors_abort_construction_witness :
  ∃ e s',
    RearrangeEpisodeGenerator
      (Toy.with_obj_samplers
         [("any", "gaussian", mkUniformParams ["any"] ["table"] 2 2 "up")]
         Toy.base_cfg)
      false (Toy.world0 []) = Raise e s'.
Proof.
  apply config_errors_abort_construction.
  apply (unknown_obj_sampler_type _
           ("any", "gaussian", mkUniformParams ["any"] ["table"] 2 2 "up")).
  - simpl. left.
  - simpl. discriminate.
Defined.

(** A target sampler of an unknown type does not: the generator is
    constructed, and the error appears in the first attempt that reaches
    target sampling. *)
Lemma target_sampler_error_survives_construction :
  ∃ s,
    RearrangeEpisodeGenerator
      (Toy.with_target_samplers
         [("any_targets", "gaussian",
           mkUniformParams ["any"] ["table"] 2 2 "up")]
         Toy.base_cfg)
      false (Toy.world0 [0%Q]) = Ok tt s ∧
    ∃ s', generate_single_episode 150 s = Raise NotImplementedError s'.
Proof.
  eexists. split; [vm_compute; reflexivity|].
  eexists. vm_compute. reflexivity.
Qed.

(** Three samplers writing to two links of one instance: the second write
    to link 3 replaces the first, and link 6 sits beside it. *)
Lemma ao_states_last_sampler_wins_witness :
  ∃ m s',
    sample_ao_states_from
      [("a", ArticulatedObjectStateSampler "fridge" "top" (1, 1)%Q);
       ("b", ArticulatedObjectStateSampler "fridge" "top" (2, 2)%Q);
       ("c", ArticulatedObjectStateSampler "fridge" "bottom" (3, 3)%Q)]
      ∅ (Toy.generator Toy.base_cfg []) = Ok m s' ∧
    ao_lookup m 6 3 = Some 2%Q ∧ ao_lookup m 6 6 = Some 3%Q ∧
    ∃ results,
      (∀ inst link_ix l1 v l2,
         assignments (concat results) = l1 ++ (inst, link_ix, v) :: l2 →
         Forall (λ a, ¬ writes_to inst link_ix a) l2 →
         ao_lookup m inst link_ix = Some v).
Proof.
  pose (s0 := Toy.generator Toy.base_cfg []).
  pose (m := sample_ao_states_from
      [("a", ArticulatedObjectStateSampler "fridge" "top" (1, 1)%Q);
       ("b", ArticulatedObjectStateSampler "fridge" "top" (2, 2)%Q);
       ("c", ArticulatedObjectStateSampler "fridge" "bottom" (3, 3)%Q)] ∅).
  assert (E : m s0 = Ok (Toy.returned ∅ m s0) (Toy.state_after m s0))
    by (vm_compute; reflexivity).
  exists (Toy.returned ∅ m s0), (Toy.state_after m s0).
  split; [exact E|]. split; [vm_compute; reflexivity|].
  split; [vm_compute; reflexivity|].
  destruct (proj1 (ao_states_last_sampler_wins _ ∅ s0) _ _ E)
    as (results & _ & Hlast & _).
  exists results. exact Hlast.
Defined.

(** * The further properties on the concrete backend *)

Lemma ao_states_instances_witness :
  ∃ m s',
    sample_ao_states_from
      [("a", ArticulatedObjectStateSampler "fridge" "top" (1, 1)%Q);
       ("b", ArticulatedObjectStateSampler "cabinet" "top" (2, 2)%Q)]
      ∅ (Toy.generator Toy.base_cfg []) = Ok m s' ∧
    is_Some (m !! 6) ∧ is_Some (m !! 7) ∧ m !! 5 = None ∧
    ∃ results : list (list (ao_instance * list (nat * Q))),
      ∀ inst, is_Some (m !! inst) ↔
              is_Some ((∅ : gmap ao_instance (gmap nat Q)) !! inst) ∨
              inst ∈ (concat results).*1.
Proof.
  pose (s0 := Toy.generator Toy.base_cfg []).
  pose (m := sample_ao_states_from
      [("a", ArticulatedObjectStateSampler "fridge" "top" (1, 1)%Q);
       ("b", ArticulatedObjectStateSampler "cabinet" "top" (2, 2)%Q)] ∅).
  assert (E : m s0 = Ok (Toy.returned ∅ m s0) (Toy.state_after m s0))
    by (vm_compute; reflexivity).
  exists (Toy.returned ∅ m s0), (Toy.state_after m s0).
  split; [exact E|].
  split; [eexists; vm_compute; reflexivity|].
  split; [eexists; vm_compute; reflexivity|].
  split; [vm_compute; reflexivity|].
  destruct (ao_states_instances _ ∅ s0 _ _ E) as (results & _ & Hdom).
  exists results. exact Hdom.
Defined.

Lemma settle_sim_reports_maximum_witness :
  ∃ b s' sb evs,
    settle_sim 150 5 true
      (Toy.state_after sample_episode_state
         (Toy.generator Toy.base_cfg [1%Q])) = Ok b s' ∧
    events s' =
      PrintMaxDisplacement
        (max_displacement
           (world (Toy.state_after sample_episode_state
                     (Toy.generator Toy.base_cfg [1%Q])))
           (world sb)
           (ep_sampled_objects
              (Toy.state_after sample_episode_state
                 (Toy.generator Toy.base_cfg [1%Q]))))
      :: evs ∧
    b = false.
Proof.
  pose (s1 := Toy.state_after sample_episode_state
                (Toy.generator Toy.base_cfg [1%Q])).
  pose (m := settle_sim 150 5 true).
  assert (E : m s1 = Ok false (Toy.state_after m s1))
    by (vm_compute; reflexivity).
  destruct (settle_sim_reports_maximum 150 5 true s1 _ _ E)
    as (c & sb & evs & _ & Hev & _).
  exists false, (Toy.state_after m s1), sb. eexists.
  split; [exact E|]. split; [exact Hev | reflexivity].
Defined.


Lemma sampled_object_caches_agree_witness :
  caches_agree
    (Toy.state_after sample_episode_state (Toy.generator Toy.base_cfg [0%Q])).
Proof.
  pose (s0 := Toy.generator Toy.base_cfg [0%Q]).
  assert (E : sample_episode_state s0 =
              Ok (Toy.returned (EmptyString, ∅) sample_episode_state s0)
                 (Toy.state_after sample_episode_state s0))
    by (vm_compute; reflexivity).
  exact (sampled_object_caches_agree s0 _ _ E).
Defined.

Lemma obj_samplers_registered_witness :
  ∃ s',
    _get_obj_samplers (Toy.generator Toy.base_cfg []) = Ok tt s' ∧
    (_obj_samplers s').*1 = ["any"].
Proof.
  pose (s0 := Toy.generator Toy.base_cfg []).
  eexists. split.
  - apply (proj1 (obj_samplers_registered s0)). split.
    + apply (bool_decide_unpack _). vm_compute. exact I.
    + repeat constructor; simpl; eexists; vm_compute; reflexivity.
  - vm_compute. reflexivity.
Defined.

Lemma target_samplers_registered_witness :
  ∃ s',
    _get_object_target_samplers
      (Toy.state_after sample_episode_state
         (Toy.generator Toy.base_cfg [0%Q])) = Ok tt s' ∧
    (_target_samplers s').*1 = ["any_targets"].
Proof.
  pose (s1 := Toy.state_after sample_episode_state
                (Toy.generator Toy.base_cfg [0%Q])).
  eexists. split.
  - apply (proj1 (target_samplers_registered s1)). split.
    + apply (bool_decide_unpack _). vm_compute. exact I.
    + repeat constructor; simpl; eexists; vm_compute; reflexivity.
  - vm_compute. reflexivity.
Defined.


Lemma base_cfg_valid : config_valid Toy.base_cfg.
Proof.
  split; [reflexivity|]. split; [|split; [|split]].
  - apply (bool_decide_unpack _). vm_compute. exact I.
  - repeat constructor; simpl; eexists; vm_compute; reflexivity.
  - apply (bool_decide_unpack _). vm_compute. exact I.
  - repeat constructor; simpl;
      apply (bool_decide_unpack _); vm_compute; exact I.
Qed.

Lemma construction_succeeds_witness :
  ∃ s, RearrangeEpisodeGenerator Toy.base_cfg false (Toy.world0 []) = Ok tt s ∧
       num_ep_generated s = 0 ∧ ep_sampled_objects s = [] ∧
       _target_samplers s = [].
Proof.
  destruct (construction_succeeds (H:=Toy.backend) Toy.base_cfg false
              (Toy.world0 []) base_cfg_valid)
    as (s & Hrun & _ & _ & _ & _ & _ & Ht & He & Hn).
  exists s. split; [exact Hrun|]. split; [exact Hn|].
  split; [exact He | exact Ht].
Defined.

Lemma toy_clock_advances : clock_advances.
Proof.
  split.
  - intros dt w. simpl. apply Qred_correct.
  - intros c w. reflexivity.
Qed.


Lemma settle_sim_returns_witness :
  ∃ b s',
    settle_sim 150 5 true
      (Toy.state_after sample_episode_state
         (Toy.generator Toy.base_cfg [0%Q])) = Ok b s'.
Proof.
  apply (settle_sim_returns 150 5 true _ toy_clock_advances).
  - intros Heq. vm_compute in Heq. discriminate.
  - vm_compute. discriminate.
Defined.

Lemma initialize_sim_empty_scene_guard_witness :
  initialize_sim "NONE" "data" (Toy.generator Toy.base_cfg []) =
  Raise (AssertionError
           "Should never generate episodes in an empty scene. Mistake?")
        (Toy.generator Toy.base_cfg []).
Proof.
  apply (proj1 (initialize_sim_empty_scene_guard "NONE" "data"
                  (Toy.generator Toy.base_cfg [])));
    vm_compute; reflexivity.
Defined.

Lemma generation_keeps_registries_witness :
  ∃ eps s',
    generate_episodes 2 150 1 (Toy.generator Toy.base_cfg [1; 0]%Q) =
      Ok eps s' ∧
    same_registries (Toy.generator Toy.base_cfg [1; 0]%Q) s'.
Proof.
  pose (s0 := Toy.generator Toy.base_cfg [1; 0]%Q).
  pose (m := generate_episodes 2 150 1).
  assert (E : m s0 = Ok (Toy.returned [] m s0) (Toy.state_after m s0))
    by (vm_compute; reflexivity).
  exists (Toy.returned [] m s0), (Toy.state_after m s0).
  split; [exact E|].
  exact (proj1 (proj2 (proj2 (generation_keeps_registries 2 150 1 s0)))
           _ _ E).
Defined.

Lemma no_target_sampler_no_target_witness :
  ∃ ep s',
    generate_single_episode 150
      (Toy.generator (Toy.with_target_samplers [] Toy.base_cfg) [0%Q]) =
      Ok (Some ep) s' ∧
    targets ep = ∅.
Proof.
  pose (s0 := Toy.generator (Toy.with_target_samplers [] Toy.base_cfg) [0%Q]).
  pose (m := generate_single_episode 150).
  destruct (Toy.returned None m s0) as [ep|] eqn:Hep;
    [|vm_compute in Hep; discriminate].
  assert (E : m s0 = Ok (Toy.returned None m s0) (Toy.state_after m s0))
    by (vm_compute; reflexivity).
  rewrite Hep in E.
  exists ep, (Toy.state_after m s0). split; [exact E|].
  apply (no_target_sampler_no_target 150 s0 ep (Toy.state_after m s0));
    [|exact E].
  vm_compute. reflexivity.
Defined.
